(** * Content-based publish/subscribe matcher: model and verification

    A shallow embedding of [common/subscription_matcher.py] (the
    [WindowManager] and [SubscriptionMatcher] classes), of the listener
    and the event and control handlers of [brokers/broker.py], of the
    notification handling of [subscribers/subscriber.py] and of the
    subscription generators of [common/data_generator.py].

    - Python [float] is IEEE binary64: the primitive type [float].
    - Python [dict] is insertion ordered: an association list.
    - Methods that mutate [self] and may raise are functions from the
      object's state to a [result] paired with the state at the moment of
      return or of the raise.
    - Methods that draw at random are functions from the state of the
      sources of chance to a value paired with the state after the draws. *)

From Stdlib Require Import ZArith List String Ascii Bool Floats DecimalString Lia.
Import ListNotations.
Local Open Scope string_scope.
Local Open Scope Z_scope.
Local Open Scope list_scope.

(* ================================================================== *)
(** ** Python runtime: exceptions *)

(** The exceptions the modelled code can raise, with the text [str(e)] of each. *)
Inductive exn : Type :=
| ValueError (msg : string)
| StatisticsError (msg : string)
| KeyError (key : string).

Inductive result (A : Type) : Type :=
| Ok (a : A)
| Raise (e : exn).
Arguments Ok {A} a.
Arguments Raise {A} e.

(* ================================================================== *)
(** ** Python runtime: floats *)

(** [float(n)] for an [int]: the nearest binary64 value. *)
Definition float_of_int (z : Z) : float :=
  SF2Prim (binary_normalize prec emax z 0 false).

Definition is_finite (x : float) : bool :=
  match Prim2SF x with
  | S754_zero _ | S754_finite _ _ _ => true
  | _ => false
  end.

(** A finite float is an integer multiple of [2^-1074]; [exact_units] is
    that integer ([float.as_integer_ratio] on a common denominator). *)
Definition exact_units (x : float) : Z :=
  match Prim2SF x with
  | S754_finite s m e => cond_Zopp s (Z.shiftl (Zpos m) (e + 1074))
  | _ => 0
  end.

(** The float nearest to [num * 2^e / den] (what [float(Fraction)] returns). *)
Definition float_of_ratio (num : Z) (e : Z) (den : positive) : float :=
  match num with
  | Z0 => PrimFloat.zero
  | Zpos p => SF2Prim (SFdiv prec emax (S754_finite false p e) (S754_finite false den 0))
  | Zneg p => SF2Prim (SFdiv prec emax (S754_finite true p e) (S754_finite false den 0))
  end.

(** [statistics.mean] on a list of floats: [StatisticsError] on no data;
    the exact rational mean rounded once when every value is finite;
    otherwise the float sum of the non-finite values divided by the count. *)
Definition statistics_mean (values : list float) : result float :=
  match values with
  | [] => Raise (StatisticsError "mean requires at least one data point")
  | _ :: _ =>
      let n := Pos.of_nat (List.length values) in
      if forallb is_finite values
      then Ok (float_of_ratio (fold_left Z.add (map exact_units values) 0) (-1074) n)
      else Ok (PrimFloat.div
                 (fold_left PrimFloat.add
                    (filter (fun x => negb (is_finite x)) values) PrimFloat.zero)
                 (float_of_int (Zpos n)))
  end.

(** Built-in [max]: keeps the first item and replaces it by a later item
    that compares greater; [ValueError] on an empty sequence. *)
Definition py_max (values : list float) : result float :=
  match values with
  | [] => Raise (ValueError "max() arg is an empty sequence")
  | v :: rest =>
      Ok (fold_left (fun best item => if PrimFloat.ltb best item then item else best) rest v)
  end.

(** Built-in [min]: replaces the kept item by a later one that compares less. *)
Definition py_min (values : list float) : result float :=
  match values with
  | [] => Raise (ValueError "min() arg is an empty sequence")
  | v :: rest =>
      Ok (fold_left (fun best item => if PrimFloat.ltb item best then item else best) rest v)
  end.

(** Built-in [sum]: left-to-right float addition from [0] (CPython 3.12 and
    later compensate the partial sums, which can change the last bits). *)
Definition py_sum (values : list float) : float :=
  fold_left PrimFloat.add values PrimFloat.zero.

(** The literal [0.01]. *)
Definition tolerance : float := 0x1.47ae147ae147bp-7%float.

(* ================================================================== *)
(** ** Python runtime: strings *)

Definition string_of_Z (z : Z) : string := NilZero.string_of_int (Z.to_int z).

(** [s.replace(old, "")] for a non-empty [old]: every non-overlapping
    occurrence of [old], scanning from the left, is dropped. [skip] counts
    the characters of the current occurrence still to drop. *)
Fixpoint drop_occurrences (old : string) (skip : nat) (s : string) : string :=
  match s with
  | EmptyString => EmptyString
  | String c s' =>
      match skip with
      | S k => drop_occurrences old k s'
      | O =>
          if prefix old s
          then drop_occurrences old (Nat.pred (String.length old)) s'
          else String c (drop_occurrences old O s')
      end
  end.

Definition str_remove (old s : string) : string := drop_occurrences old O s.

(* ================================================================== *)
(** ** Python runtime: insertion-ordered dictionaries with string keys *)

Definition dict (V : Type) : Type := list (string * V).

Fixpoint dict_get {V : Type} (k : string) (d : dict V) : option V :=
  match d with
  | [] => None
  | (k', v) :: d' => if String.eqb k k' then Some v else dict_get k d'
  end.

(** [d[k] = v]: an existing key keeps its position, a new key goes last. *)
Fixpoint dict_set {V : Type} (k : string) (v : V) (d : dict V) : dict V :=
  match d with
  | [] => [(k, v)]
  | (k', v') :: d' =>
      if String.eqb k k' then (k, v) :: d' else (k', v') :: dict_set k v d'
  end.

(** [del d[k]] (guarded by [k in d] at every call site). *)
Fixpoint dict_del {V : Type} (k : string) (d : dict V) : dict V :=
  match d with
  | [] => []
  | (k', v') :: d' =>
      if String.eqb k k' then d' else (k', v') :: dict_del k d'
  end.

Definition dict_mem {V : Type} (k : string) (d : dict V) : bool :=
  match dict_get k d with
  | Some _ => true
  | None => false
  end.

Definition dict_keys {V : Type} (d : dict V) : list string := map fst d.
Definition dict_values {V : Type} (d : dict V) : list V := map snd d.

(* ================================================================== *)
(** ** Messages ([protos/ecommerce_pb2]) *)

(** The generated protobuf module is not among the sources: each message
    type below is modelled from the data model of the specification
    (section 3) and from the field accesses of the matcher. *)

(** Modelled from the spec: the enum [ComparisonOperator] of the missing
    protobuf module, the six operators of a condition. *)
Inductive ComparisonOperator : Type :=
| EQUAL
| NOT_EQUAL
| GREATER_THAN
| LESS_THAN
| GREATER_EQUAL
| LESS_EQUAL.

(** Modelled from the spec: the enum [SubscriptionType] of the missing
    protobuf module, the kind of a subscription. *)
Inductive SubscriptionType : Type :=
| SIMPLE
| COMPLEX.

(** Modelled from the spec: the message [FilterCondition] of the missing
    protobuf module; the value is kept as a string. *)
Record FilterCondition : Type := {
  field_name : string;
  operator : ComparisonOperator;
  value : string;
  is_windowed : bool
}.

(** Modelled from the spec: the message [WindowConfig] of the missing
    protobuf module. An unset [window_config] reads as the default message:
    size [0] and the empty aggregation type. *)
Record WindowConfig : Type := {
  window_size : Z;
  aggregation_type : string
}.

(** Modelled from the spec: the message [Subscription] of the missing
    protobuf module ([sub_type] is its field [type]). *)
Record Subscription : Type := {
  subscription_id : string;
  subscriber_id : string;
  sub_type : SubscriptionType;
  conditions : list FilterCondition;
  window_config : WindowConfig
}.

(** Modelled from the spec: the message [PurchaseEvent] of the missing
    protobuf module (fields [user_id], [product_id], [category], [price],
    [quantity], [warehouse_id]). *)
Record PurchaseEvent : Type := {
  purchase_user_id : string;
  purchase_product_id : string;
  purchase_category : string;
  purchase_price : float;
  purchase_quantity : Z;
  purchase_warehouse_id : string
}.

(** Modelled from the spec: the message [ProductViewEvent] of the missing
    protobuf module (fields [user_id], [product_id], [category],
    [view_duration], [source]). *)
Record ProductViewEvent : Type := {
  view_user_id : string;
  view_product_id : string;
  view_category : string;
  view_view_duration : Z;
  view_source : string
}.

(** Modelled from the spec: the message [InventoryUpdateEvent] of the
    missing protobuf module (fields [product_id], [category],
    [stock_level], [warehouse_id], [operation]). *)
Record InventoryUpdateEvent : Type := {
  inventory_product_id : string;
  inventory_category : string;
  inventory_stock_level : Z;
  inventory_warehouse_id : string;
  inventory_operation : string
}.

(** Modelled from the spec: the message [UserRatingEvent] of the missing
    protobuf module (fields [user_id], [product_id], [category], [rating],
    [review_text]). *)
Record UserRatingEvent : Type := {
  rating_user_id : string;
  rating_product_id : string;
  rating_category : string;
  rating_rating : float;
  rating_review_text : string
}.

(** Modelled from the spec: the field [event_type] of the missing message
    [EcommerceEvent] together with the payload it selects (exactly one
    variant payload is present per event). *)
Inductive EventPayload : Type :=
| PURCHASE (purchase : PurchaseEvent)
| PRODUCT_VIEW (product_view : ProductViewEvent)
| INVENTORY_UPDATE (inventory_update : InventoryUpdateEvent)
| USER_RATING (user_rating : UserRatingEvent).

(** Modelled from the spec: the message [EcommerceEvent] of the missing
    protobuf module. *)
Record EcommerceEvent : Type := {
  event_id : string;
  event_timestamp : Z;
  event_payload : EventPayload
}.

(** Modelled from the spec: the two notification variants of the missing
    protobuf module, [SimpleNotification] and [ComplexNotification]. *)
Inductive NotificationBody : Type :=
| SimpleNotification (matched_event : EcommerceEvent)
| ComplexNotification (category : string) (cn_field_name : string)
    (aggregated_value : float) (cn_window_size : Z) (condition_met : bool).

(** Modelled from the spec: the message [Notification] of the missing
    protobuf module, as the matcher fills it. *)
Record Notification : Type := {
  notification_id : string;
  n_subscription_id : string;
  n_subscriber_id : string;
  n_timestamp : Z;
  body : NotificationBody
}.

(** What a field access on an event yields ([Any] in the source). *)
Inductive FieldValue : Type :=
| VStr (s : string)
| VInt (n : Z)
| VFloat (x : float).

(* ================================================================== *)
(** ** A decimal reader, used to run the model on concrete inputs *)

Fixpoint read_digits (s : string) (acc : Z) (count : nat) : option (Z * nat * string) :=
  match s with
  | String c s' =>
      let n := Z.of_nat (nat_of_ascii c) in
      if (48 <=? n) && (n <=? 57)
      then read_digits s' (10 * acc + (n - 48)) (S count)
      else Some (acc, count, s)
  | EmptyString => Some (acc, count, s)
  end.

(** Reads [[-]digits[.digits]] as [float] does on such a literal; every
    other string is refused. *)
Definition decimal_float (s : string) : option float :=
  let '(neg, s1) :=
    match s with
    | String "-"%char r => (true, r)
    | _ => (false, s)
    end in
  let signed := fun x : float => if neg then PrimFloat.opp x else x in
  match read_digits s1 0 O with
  | Some (ip, S _, EmptyString) => Some (signed (float_of_ratio ip 0 1))
  | Some (ip, S _, String "."%char r) =>
      match read_digits r ip O with
      | Some (num, S k, EmptyString) =>
          Some (signed (float_of_ratio num 0 (Z.to_pos (10 ^ Z.of_nat (S k)))))
      | _ => None
      end
  | _ => None
  end.

(* ================================================================== *)
(** ** [class WindowManager] *)

Record WindowManager : Type := {
  wm_window_size : Z;
  wm_aggregation_type : string;
  window : list float;
  is_full : bool
}.

(** [deque(maxlen=n)] raises [ValueError] for a negative [n]. *)
Definition WindowManager_init (size : Z) (agg : string) : result WindowManager :=
  if size <? 0 then Raise (ValueError "maxlen must be non-negative")
  else Ok {| wm_window_size := size; wm_aggregation_type := agg;
             window := []; is_full := false |}.

(** [deque.append] under [maxlen]: the item is appended, and the leftmost
    item is dropped when the length then exceeds [maxlen]. *)
Definition deque_append (maxlen : Z) (d : list float) (x : float) : list float :=
  let d' := d ++ [x] in
  if maxlen <? Z.of_nat (List.length d') then tl d' else d'.

Definition _calculate_aggregation (self : WindowManager) : result float :=
  let values := window self in
  if String.eqb (wm_aggregation_type self) "avg" then statistics_mean values
  else if String.eqb (wm_aggregation_type self) "max" then py_max values
  else if String.eqb (wm_aggregation_type self) "min" then py_min values
  else if String.eqb (wm_aggregation_type self) "sum" then Ok (py_sum values)
  else statistics_mean values.

Definition set_window (self : WindowManager) (w : list float) : WindowManager :=
  {| wm_window_size := wm_window_size self;
     wm_aggregation_type := wm_aggregation_type self;
     window := w; is_full := is_full self |}.

Definition set_is_full (self : WindowManager) (b : bool) : WindowManager :=
  {| wm_window_size := wm_window_size self;
     wm_aggregation_type := wm_aggregation_type self;
     window := window self; is_full := b |}.

(** Returns [(window_full, aggregated_value)] and the manager as the call
    leaves it; on a raise the manager keeps the appended value. *)
Definition add_value (v : float) (self : WindowManager)
  : result (bool * option float) * WindowManager :=
  let self1 := set_window self (deque_append (wm_window_size self) (window self) v) in
  if Z.of_nat (List.length (window self1)) =? wm_window_size self1 then
    let self2 := set_is_full self1 true in
    match _calculate_aggregation self2 with
    | Ok aggregated => (Ok (true, Some aggregated), set_window self2 [])
    | Raise e => (Raise e, self2)
    end
  else (Ok (false, None), self1).

(** Successive [add_value] calls on one manager, made by a caller that
    goes on after a call that raises (as the broker does from one event to
    the next): the outcome of each call, and the manager at the end. *)
Fixpoint add_values (values : list float) (self : WindowManager)
  : list (result (bool * option float)) * WindowManager :=
  match values with
  | [] => ([], self)
  | v :: rest =>
      let '(r, self1) := add_value v self in
      let '(rs, self2) := add_values rest self1 in
      (r :: rs, self2)
  end.

(* ================================================================== *)
(** ** [class SubscriptionMatcher]: state and effects *)

(** [subscription_contexts] maps an id to a dictionary that is created
    empty and never written: its values are [tt]. *)
Record SubscriptionMatcher : Type := {
  simple_subscriptions : dict Subscription;
  complex_subscriptions : dict Subscription;
  window_managers : dict (dict WindowManager);
  subscription_contexts : dict unit
}.

Definition SubscriptionMatcher_init : SubscriptionMatcher :=
  {| simple_subscriptions := []; complex_subscriptions := [];
     window_managers := []; subscription_contexts := [] |}.

(** A method of the matcher: the result, and the matcher after the call. *)
Definition M (A : Type) : Type := SubscriptionMatcher -> result A * SubscriptionMatcher.

Definition ret {A : Type} (a : A) : M A := fun self => (Ok a, self).

Definition raise {A : Type} (e : exn) : M A := fun self => (Raise e, self).

Definition bind {A B : Type} (m : M A) (k : A -> M B) : M B :=
  fun self =>
    match m self with
    | (Ok a, self') => k a self'
    | (Raise e, self') => (Raise e, self')
    end.

Notation "x <- m ;; k" := (bind m (fun x => k))
  (at level 100, m at next level, right associativity).

(** A [for] loop that collects the notifications of each iteration. *)
Fixpoint for_each {A B : Type} (f : A -> M (list B)) (l : list A) : M (list B) :=
  match l with
  | [] => ret []
  | a :: l' =>
      xs <- f a ;;
      ys <- for_each f l' ;;
      ret (xs ++ ys)
  end.

Definition set_simple (d : dict Subscription) : M unit :=
  fun self =>
    (Ok tt, {| simple_subscriptions := d;
               complex_subscriptions := complex_subscriptions self;
               window_managers := window_managers self;
               subscription_contexts := subscription_contexts self |}).

Definition set_complex (d : dict Subscription) : M unit :=
  fun self =>
    (Ok tt, {| simple_subscriptions := simple_subscriptions self;
               complex_subscriptions := d;
               window_managers := window_managers self;
               subscription_contexts := subscription_contexts self |}).

Definition set_window_managers (d : dict (dict WindowManager)) : M unit :=
  fun self =>
    (Ok tt, {| simple_subscriptions := simple_subscriptions self;
               complex_subscriptions := complex_subscriptions self;
               window_managers := d;
               subscription_contexts := subscription_contexts self |}).

Definition set_contexts (d : dict unit) : M unit :=
  fun self =>
    (Ok tt, {| simple_subscriptions := simple_subscriptions self;
               complex_subscriptions := complex_subscriptions self;
               window_managers := window_managers self;
               subscription_contexts := d |}).

Definition get {A : Type} (proj : SubscriptionMatcher -> A) : M A :=
  fun self => (Ok (proj self), self).

(** [d[k]], raising [KeyError] on a missing key. *)
Definition lookup {V : Type} (k : string) (d : dict V) : M V :=
  match dict_get k d with
  | Some v => ret v
  | None => raise (KeyError k)
  end.

(* ================================================================== *)
(** ** Concrete subscriptions and events *)

Definition electronics : FilterCondition :=
  {| field_name := "category"; operator := EQUAL; value := "Electronics";
     is_windowed := false |}.

Definition avg_rating_above_3 : FilterCondition :=
  {| field_name := "avg_rating"; operator := GREATER_THAN; value := "3.0";
     is_windowed := true |}.

Definition avg_rating_below_5 : FilterCondition :=
  {| field_name := "avg_rating"; operator := LESS_THAN; value := "5.0";
     is_windowed := true |}.

Definition avg_rating_is_3 : FilterCondition :=
  {| field_name := "avg_rating"; operator := EQUAL; value := "3.0";
     is_windowed := true |}.

Definition avg_rating_is_not_3 : FilterCondition :=
  {| field_name := "avg_rating"; operator := NOT_EQUAL; value := "3.0";
     is_windowed := true |}.

(** The default [WindowConfig] of a subscription that sets none. *)
Definition no_window_config : WindowConfig :=
  {| window_size := 0; aggregation_type := "" |}.

Definition simple_electronics : Subscription :=
  {| subscription_id := "S1"; subscriber_id := "alice"; sub_type := SIMPLE;
     conditions := [electronics]; window_config := no_window_config |}.

(** A simple subscription with no condition at all. *)
Definition simple_everything : Subscription :=
  {| subscription_id := "S0"; subscriber_id := "bob"; sub_type := SIMPLE;
     conditions := []; window_config := no_window_config |}.

(** Scenario S4 of the specification with a window of two. *)
Definition complex_ratings : Subscription :=
  {| subscription_id := "S4"; subscriber_id := "carol"; sub_type := COMPLEX;
     conditions := [electronics; avg_rating_above_3];
     window_config := {| window_size := 2; aggregation_type := "avg" |} |}.

(** A range on one aggregate: two windowed conditions on the same field. *)
Definition complex_range : Subscription :=
  {| subscription_id := "S5"; subscriber_id := "dave"; sub_type := COMPLEX;
     conditions := [avg_rating_above_3; avg_rating_below_5];
     window_config := {| window_size := 2; aggregation_type := "avg" |} |}.

(** A complex subscription that sets no [window_config]. *)
Definition complex_unconfigured : Subscription :=
  {| subscription_id := "S6"; subscriber_id := "erin"; sub_type := COMPLEX;
     conditions := [avg_rating_above_3]; window_config := no_window_config |}.

Definition rating_event (category : string) (rating : float) : EcommerceEvent :=
  {| event_id := "evt"; event_timestamp := 1700000000000;
     event_payload :=
       USER_RATING {| rating_user_id := "user_1"; rating_product_id := "prod_1";
                      rating_category := category; rating_rating := rating;
                      rating_review_text := "" |} |}.

Definition purchase_event (category : string) (price : float) : EcommerceEvent :=
  {| event_id := "evt"; event_timestamp := 1700000000000;
     event_payload :=
       PURCHASE {| purchase_user_id := "user_1"; purchase_product_id := "prod_1";
                   purchase_category := category; purchase_price := price;
                   purchase_quantity := 1; purchase_warehouse_id := "wh_1" |} |}.

(** Scenarios S2 and S3 of the specification. *)
Definition price_above_500 : Subscription :=
  {| subscription_id := "S2"; subscriber_id := "alice"; sub_type := SIMPLE;
     conditions := [{| field_name := "price"; operator := GREATER_THAN;
                       value := "500.0"; is_windowed := false |}];
     window_config := no_window_config |}.

Definition electronics_above_100 : Subscription :=
  {| subscription_id := "S3"; subscriber_id := "alice"; sub_type := SIMPLE;
     conditions := [electronics;
                    {| field_name := "price"; operator := GREATER_THAN;
                       value := "100"; is_windowed := false |}];
     window_config := no_window_config |}.

(** A manager of capacity two that holds one sample. *)
Definition half_full_manager : WindowManager :=
  {| wm_window_size := 2; wm_aggregation_type := "avg";
     window := [4%float]; is_full := false |}.

(** [str] of a float is not reached on these inputs (float fields are
    compared as numbers); any function serves. *)
Definition str_of_float_unused (x : float) : string := "".

(** A complex subscription without a windowed condition, registered under
    the id of [simple_electronics]. *)
Definition complex_gate_only : Subscription :=
  {| subscription_id := "S1"; subscriber_id := "alice"; sub_type := COMPLEX;
     conditions := [electronics]; window_config := no_window_config |}.

(** A complex subscription with a negative window size. *)
Definition complex_negative : Subscription :=
  {| subscription_id := "S7"; subscriber_id := "frank"; sub_type := COMPLEX;
     conditions := [electronics; avg_rating_above_3];
     window_config := {| window_size := -1; aggregation_type := "avg" |} |}.

(** An empty manager of capacity two that averages. *)
Definition empty_manager : WindowManager :=
  {| wm_window_size := 2; wm_aggregation_type := "avg"; window := [];
     is_full := false |}.

(* ================================================================== *)
(** ** [class SubscriptionMatcher]: methods *)

Section Matcher.

Set Default Proof Using "Type".

(** [float(s)] for a string [s] ([None] when it raises [ValueError]) and
    [str(x)] for a float [x], as the Python runtime provides them. *)
Variable float_of_str : string -> option float.
Variable str_of_float : float -> string.

(** [float(v)]; [None] stands for the [ValueError] the callers catch. *)
Definition py_float (v : FieldValue) : option float :=
  match v with
  | VStr s => float_of_str s
  | VInt n => Some (float_of_int n)
  | VFloat x => Some x
  end.

Definition py_str (v : FieldValue) : string :=
  match v with
  | VStr s => s
  | VInt n => string_of_Z n
  | VFloat x => str_of_float x
  end.

Definition _extract_field_value (event : EcommerceEvent) (name : string)
  : option FieldValue :=
  match event_payload event with
  | PURCHASE purchase =>
      if String.eqb name "user_id" then Some (VStr (purchase_user_id purchase))
      else if String.eqb name "product_id" then Some (VStr (purchase_product_id purchase))
      else if String.eqb name "category" then Some (VStr (purchase_category purchase))
      else if String.eqb name "price" then Some (VFloat (purchase_price purchase))
      else if String.eqb name "quantity" then Some (VInt (purchase_quantity purchase))
      else if String.eqb name "warehouse_id" then Some (VStr (purchase_warehouse_id purchase))
      else None
  | PRODUCT_VIEW view =>
      if String.eqb name "user_id" then Some (VStr (view_user_id view))
      else if String.eqb name "product_id" then Some (VStr (view_product_id view))
      else if String.eqb name "category" then Some (VStr (view_category view))
      else if String.eqb name "view_duration" then Some (VInt (view_view_duration view))
      else if String.eqb name "source" then Some (VStr (view_source view))
      else None
  | INVENTORY_UPDATE inventory =>
      if String.eqb name "product_id" then Some (VStr (inventory_product_id inventory))
      else if String.eqb name "category" then Some (VStr (inventory_category inventory))
      else if String.eqb name "stock_level" then Some (VInt (inventory_stock_level inventory))
      else if String.eqb name "warehouse_id" then Some (VStr (inventory_warehouse_id inventory))
      else if String.eqb name "operation" then Some (VStr (inventory_operation inventory))
      else None
  | USER_RATING rating =>
      if String.eqb name "user_id" then Some (VStr (rating_user_id rating))
      else if String.eqb name "product_id" then Some (VStr (rating_product_id rating))
      else if String.eqb name "category" then Some (VStr (rating_category rating))
      else if String.eqb name "rating" then Some (VFloat (rating_rating rating))
      else if String.eqb name "review_text" then Some (VStr (rating_review_text rating))
      else None
  end.

Definition numeric_fields : list string :=
  ["price"; "stock_level"; "rating"; "quantity"; "view_duration"].

Definition compare_floats (op : ComparisonOperator) (x y : float) : bool :=
  match op with
  | EQUAL => PrimFloat.eqb x y
  | NOT_EQUAL => negb (PrimFloat.eqb x y)
  | GREATER_THAN => PrimFloat.ltb y x
  | GREATER_EQUAL => PrimFloat.leb y x
  | LESS_THAN => PrimFloat.ltb x y
  | LESS_EQUAL => PrimFloat.leb x y
  end.

Definition compare_strings (op : ComparisonOperator) (x y : string) : bool :=
  match op with
  | EQUAL => String.eqb x y
  | NOT_EQUAL => negb (String.eqb x y)
  | GREATER_THAN => String.ltb y x
  | GREATER_EQUAL => String.leb y x
  | LESS_THAN => String.ltb x y
  | LESS_EQUAL => String.leb x y
  end.

Definition _evaluate_condition (event : EcommerceEvent) (condition : FilterCondition)
  : bool :=
  match _extract_field_value event (field_name condition) with
  | None => false
  | Some field_value =>
      if existsb (String.eqb (field_name condition)) numeric_fields then
        match py_float field_value with
        | None => false
        | Some x =>
            match float_of_str (value condition) with
            | None => false
            | Some y => compare_floats (operator condition) x y
            end
        end
      else compare_strings (operator condition) (py_str field_value) (value condition)
  end.

Definition _evaluate_windowed_condition (aggregated : float) (condition : FilterCondition)
  : bool :=
  match float_of_str (value condition) with
  | None => false
  | Some condition_value =>
      match operator condition with
      | GREATER_THAN => PrimFloat.ltb condition_value aggregated
      | GREATER_EQUAL => PrimFloat.leb condition_value aggregated
      | LESS_THAN => PrimFloat.ltb aggregated condition_value
      | LESS_EQUAL => PrimFloat.leb aggregated condition_value
      | EQUAL =>
          PrimFloat.ltb (PrimFloat.abs (PrimFloat.sub aggregated condition_value)) tolerance
      | NOT_EQUAL =>
          PrimFloat.leb tolerance (PrimFloat.abs (PrimFloat.sub aggregated condition_value))
      end
  end.

Definition base_field (name : string) : string :=
  str_remove "min_" (str_remove "max_" (str_remove "avg_" name)).

Definition _extract_numeric_value (event : EcommerceEvent) (name : string)
  : option float :=
  match _extract_field_value event (base_field name) with
  | Some v => py_float v
  | None => None
  end.

Definition _match_simple_subscription (event : EcommerceEvent) (subscription : Subscription)
  : bool :=
  forallb (_evaluate_condition event) (conditions subscription).

Definition _create_simple_notification (now : Z) (event : EcommerceEvent)
  (subscription : Subscription) : Notification :=
  {| notification_id :=
       ("notif_" ++ string_of_Z now ++ "_" ++ subscription_id subscription)%string;
     n_subscription_id := subscription_id subscription;
     n_subscriber_id := subscriber_id subscription;
     n_timestamp := now;
     body := SimpleNotification event |}.

Definition notification_category (conds : list FilterCondition) : string :=
  match find (fun cond => String.eqb (field_name cond) "category"
                          && match operator cond with EQUAL => true | _ => false end) conds with
  | Some cond => value cond
  | None => "unknown"
  end.

Definition _create_complex_notification (now : Z) (subscription : Subscription)
  (condition : FilterCondition) (aggregated : float) : Notification :=
  {| notification_id :=
       ("complex_notif_" ++ string_of_Z now ++ "_" ++ subscription_id subscription)%string;
     n_subscription_id := subscription_id subscription;
     n_subscriber_id := subscriber_id subscription;
     n_timestamp := now;
     body := ComplexNotification (notification_category (conditions subscription))
               (field_name condition) aggregated
               (window_size (window_config subscription)) true |}.

Definition lift {A : Type} (r : result A) : M A :=
  match r with
  | Ok a => ret a
  | Raise e => raise e
  end.

(** A [for] loop run for its effect only. *)
Fixpoint iter {A : Type} (f : A -> M unit) (l : list A) : M unit :=
  match l with
  | [] => ret tt
  | a :: l' => _ <- f a ;; iter f l'
  end.

(** [self.window_managers[sid][name] = manager]. *)
Definition store_window_manager (sid name : string) (manager : WindowManager) : M unit :=
  wms <- get window_managers ;;
  inner <- lookup sid wms ;;
  set_window_managers (dict_set sid (dict_set name manager inner) wms).

(** One iteration of the loop of [_setup_window_managers]. *)
Definition setup_condition (subscription : Subscription) (condition : FilterCondition)
  : M unit :=
  if is_windowed condition then
    manager <- lift (WindowManager_init
                       (window_size (window_config subscription))
                       (aggregation_type (window_config subscription))) ;;
    store_window_manager (subscription_id subscription) (field_name condition) manager
  else ret tt.

Definition _setup_window_managers (subscription : Subscription) : M unit :=
  let sid := subscription_id subscription in
  wms <- get window_managers ;;
  _ <- set_window_managers (dict_set sid [] wms) ;;
  ctx <- get subscription_contexts ;;
  _ <- set_contexts (dict_set sid tt ctx) ;;
  iter (setup_condition subscription) (conditions subscription).

Definition add_subscription (subscription : Subscription) : M unit :=
  match sub_type subscription with
  | SIMPLE =>
      d <- get simple_subscriptions ;;
      set_simple (dict_set (subscription_id subscription) subscription d)
  | COMPLEX =>
      d <- get complex_subscriptions ;;
      _ <- set_complex (dict_set (subscription_id subscription) subscription d) ;;
      _setup_window_managers subscription
  end.

Definition remove_subscription (sid : string) : M unit :=
  simple <- get simple_subscriptions ;;
  if dict_mem sid simple then set_simple (dict_del sid simple)
  else
    complex <- get complex_subscriptions ;;
    if dict_mem sid complex then
      _ <- set_complex (dict_del sid complex) ;;
      wms <- get window_managers ;;
      _ <- (if dict_mem sid wms then set_window_managers (dict_del sid wms) else ret tt) ;;
      ctx <- get subscription_contexts ;;
      if dict_mem sid ctx then set_contexts (dict_del sid ctx) else ret tt
    else ret tt.

(** [self.window_managers[sid][name].add_value(v)]: the manager found under
    the two keys is updated in place, also when [add_value] raises. *)
Definition window_add_value (sid name : string) (v : float) : M (bool * option float) :=
  wms <- get window_managers ;;
  inner <- lookup sid wms ;;
  manager <- lookup name inner ;;
  let '(r, manager') := add_value v manager in
  _ <- set_window_managers (dict_set sid (dict_set name manager' inner) wms) ;;
  lift r.

(** The conjunction of the non-windowed conditions (the first loop of
    [_match_complex_subscription]). *)
Definition non_windowed_match (event : EcommerceEvent) (subscription : Subscription) : bool :=
  forallb (fun condition =>
             if is_windowed condition then true else _evaluate_condition event condition)
          (conditions subscription).

(** One iteration of the second loop of [_match_complex_subscription]. *)
Definition process_windowed_condition (now : Z) (event : EcommerceEvent)
  (subscription : Subscription) (condition : FilterCondition) : M (list Notification) :=
  if is_windowed condition then
    match _extract_numeric_value event (field_name condition) with
    | Some v =>
        r <- window_add_value (subscription_id subscription) (field_name condition) v ;;
        match r with
        | (true, Some aggregated) =>
            if _evaluate_windowed_condition aggregated condition
            then ret [_create_complex_notification now subscription condition aggregated]
            else ret []
        | _ => ret []
        end
    | None => ret []
    end
  else ret [].

Definition _match_complex_subscription (now : Z) (event : EcommerceEvent)
  (subscription : Subscription) : M (list Notification) :=
  if negb (non_windowed_match event subscription) then ret []
  else for_each (process_windowed_condition now event subscription)
                (conditions subscription).

(** The first loop of [match_event], over the simple subscriptions. *)
Definition match_simple_subscriptions (now : Z) (event : EcommerceEvent)
  (subscriptions : list Subscription) : list Notification :=
  flat_map (fun subscription =>
              if _match_simple_subscription event subscription
              then [_create_simple_notification now event subscription]
              else [])
           subscriptions.

(** [now] is the reading of the millisecond clock, [int(time.time() * 1000)]:
    every reading taken during one call is taken to be [now]. *)
Definition match_event (now : Z) (event : EcommerceEvent) : M (list Notification) :=
  simple <- get simple_subscriptions ;;
  let notifications := match_simple_subscriptions now event (dict_values simple) in
  complex <- get complex_subscriptions ;;
  complex_notifications <- for_each (_match_complex_subscription now event)
                                    (dict_values complex) ;;
  ret (notifications ++ complex_notifications).

Definition get_statistics (self : SubscriptionMatcher) : dict Z :=
  let n_simple := Z.of_nat (List.length (simple_subscriptions self)) in
  let n_complex := Z.of_nat (List.length (complex_subscriptions self)) in
  [("simple_subscriptions", n_simple);
   ("complex_subscriptions", n_complex);
   ("total_subscriptions", n_simple + n_complex)].

(* ================================================================== *)
(** ** [class EcommerceBroker]: event and control handlers *)

(** [published] is the sequence of multipart messages handed to the
    subscriber socket: the topic (the subscriber id) and the notification
    carried by the [BrokerMessage]. The socket is taken to accept every
    message ([_send_notification] logs and skips a failed send). *)
Record EcommerceBroker : Type := {
  matcher : SubscriptionMatcher;
  subscriber_addresses : dict string;
  events_processed : Z;
  notifications_sent : Z;
  published : list (string * Notification)
}.

Definition set_matcher (self : EcommerceBroker) (m : SubscriptionMatcher) : EcommerceBroker :=
  {| matcher := m;
     subscriber_addresses := subscriber_addresses self;
     events_processed := events_processed self;
     notifications_sent := notifications_sent self;
     published := published self |}.

Definition _send_notification (self : EcommerceBroker) (notification : Notification)
  : EcommerceBroker :=
  {| matcher := matcher self;
     subscriber_addresses := subscriber_addresses self;
     events_processed := events_processed self;
     notifications_sent := notifications_sent self + 1;
     published := published self ++ [(n_subscriber_id notification, notification)] |}.

(** [try: notifications = match_event(event); send each; except: log]. *)
Definition _handle_event (now : Z) (event : EcommerceEvent) (self : EcommerceBroker)
  : EcommerceBroker :=
  match match_event now event (matcher self) with
  | (Ok notifications, m) => fold_left _send_notification notifications (set_matcher self m)
  | (Raise _, m) => set_matcher self m
  end.

(** [_process_publisher_event] on a message that parses to an event. *)
Definition _process_publisher_event (now : Z) (event : EcommerceEvent)
  (self : EcommerceBroker) : EcommerceBroker :=
  let self' := _handle_event now event self in
  {| matcher := matcher self';
     subscriber_addresses := subscriber_addresses self';
     events_processed := events_processed self' + 1;
     notifications_sent := notifications_sent self';
     published := published self' |}.

(** A control request after JSON decoding and protobuf parsing. *)
Inductive Request : Type :=
| subscribe (subscription : Subscription) (address : string)
| unsubscribe (sid : string)
| status
| other_request (type : string).

(** The reply dictionary: [status] is ["success"] or ["error"]; the
    [uptime] entry of the statistics (a wall-clock reading) is left out. *)
Record Response : Type := {
  response_status : string;
  response_message : option string;
  response_statistics : option (dict Z)
}.

Definition str_exn (e : exn) : string :=
  match e with
  | ValueError msg => msg
  | StatisticsError msg => msg
  | KeyError key => ("'" ++ key ++ "'")%string
  end.

Definition _handle_subscriber_request (request : Request) (self : EcommerceBroker)
  : Response * EcommerceBroker :=
  match request with
  | subscribe subscription address =>
      match add_subscription subscription (matcher self) with
      | (Ok _, m) =>
          ({| response_status := "success";
              response_message :=
                Some ("Subscription " ++ subscription_id subscription ++ " added")%string;
              response_statistics := None |},
           {| matcher := m;
              subscriber_addresses :=
                dict_set (subscriber_id subscription) address (subscriber_addresses self);
              events_processed := events_processed self;
              notifications_sent := notifications_sent self;
              published := published self |})
      | (Raise e, m) =>
          ({| response_status := "error";
              response_message := Some (str_exn e);
              response_statistics := None |},
           set_matcher self m)
      end
  | unsubscribe sid =>
      match remove_subscription sid (matcher self) with
      | (Ok _, m) =>
          ({| response_status := "success";
              response_message := Some ("Subscription " ++ sid ++ " removed")%string;
              response_statistics := None |},
           set_matcher self m)
      | (Raise e, m) =>
          ({| response_status := "error";
              response_message := Some (str_exn e);
              response_statistics := None |},
           set_matcher self m)
      end
  | status =>
      ({| response_status := "success";
          response_message := None;
          response_statistics :=
            Some (get_statistics (matcher self)
                  ++ [("events_processed", events_processed self);
                      ("notifications_sent", notifications_sent self)]) |},
       self)
  | other_request _ =>
      ({| response_status := "error";
          response_message := Some "Unknown request type";
          response_statistics := None |},
       self)
  end.

(** [_publisher_listener]: the event messages received on the publisher
    socket are handled one after the other, each with the clock reading
    of its handling. *)
Definition _publisher_listener (events : list (Z * EcommerceEvent))
  (self : EcommerceBroker) : EcommerceBroker :=
  fold_left (fun broker p => _process_publisher_event (fst p) (snd p) broker)
            events self.

(* ================================================================== *)
(** ** [class EcommerceSubscriber]: received notifications *)

(** The part of the subscriber's state that [_process_notification]
    writes: [recent_notifications] is a [deque(maxlen=50)]. *)
Record EcommerceSubscriber : Type := {
  recent_notifications : list Notification;
  notifications_received : Z;
  simple_notifications : Z;
  complex_notifications : Z;
  latencies : list Z
}.

Definition EcommerceSubscriber_init : EcommerceSubscriber :=
  {| recent_notifications := []; notifications_received := 0;
     simple_notifications := 0; complex_notifications := 0; latencies := [] |}.

(** [deque.append] under [maxlen], for items of any type. *)
Definition deque_append_item {A : Type} (maxlen : Z) (d : list A) (x : A) : list A :=
  let d' := d ++ [x] in
  if maxlen <? Z.of_nat (List.length d') then tl d' else d'.

(** The slice [l[-k:]] for [k >= 1]: the last [k] items, or all of [l]. *)
Definition last_items {A : Type} (k : nat) (l : list A) : list A :=
  skipn (List.length l - k) l.

(** [_process_notification] on a message that parses to a notification;
    [current_time] is the reading of the millisecond clock. A notification
    carries one of the two bodies, as the matcher builds it. *)
Definition _process_notification (current_time : Z) (notification : Notification)
  (self : EcommerceSubscriber) : EcommerceSubscriber :=
  let latency := current_time - n_timestamp notification in
  let appended := latencies self ++ [latency] in
  {| recent_notifications :=
       deque_append_item 50 (recent_notifications self) notification;
     notifications_received := notifications_received self + 1;
     simple_notifications :=
       match body notification with
       | SimpleNotification _ => simple_notifications self + 1
       | ComplexNotification _ _ _ _ _ => simple_notifications self
       end;
     complex_notifications :=
       match body notification with
       | SimpleNotification _ => complex_notifications self
       | ComplexNotification _ _ _ _ _ => complex_notifications self + 1
       end;
     latencies :=
       if 1000 <? Z.of_nat (List.length appended) then last_items 1000 appended
       else appended |}.

(** [_notification_listener] for one broker socket: the notifications
    received are processed one after the other, each with the clock
    reading of its processing. *)
Definition _notification_listener (received : list (Z * Notification))
  (self : EcommerceSubscriber) : EcommerceSubscriber :=
  fold_left (fun subscriber p => _process_notification (fst p) (snd p) subscriber)
            received self.

(* ================================================================== *)
(** ** Callers of the matcher *)

(** The reset at the start of the second test of
    [evaluation/performance_test.py]: the two subscription maps are
    cleared in place; the window managers and the contexts are not. *)
Definition reset_subscriptions (self : SubscriptionMatcher) : SubscriptionMatcher :=
  {| simple_subscriptions := [];
     complex_subscriptions := [];
     window_managers := window_managers self;
     subscription_contexts := subscription_contexts self |}.

(** A call on the matcher, as the broker and the scripts make them. *)
Inductive Call : Type :=
| call_add (subscription : Subscription)
| call_remove (sid : string)
| call_match (now : Z) (event : EcommerceEvent).

Definition raised {A : Type} (r : result A) : option exn :=
  match r with
  | Ok _ => None
  | Raise e => Some e
  end.

(** One call: what it raised, if anything, and the matcher it leaves. *)
Definition run_call (c : Call) (self : SubscriptionMatcher)
  : option exn * SubscriptionMatcher :=
  match c with
  | call_add subscription =>
      (raised (fst (add_subscription subscription self)),
       snd (add_subscription subscription self))
  | call_remove sid =>
      (raised (fst (remove_subscription sid self)), snd (remove_subscription sid self))
  | call_match now event =>
      (raised (fst (match_event now event self)), snd (match_event now event self))
  end.

(** A sequence of calls by a caller that catches what a call raises. *)
Fixpoint run_calls (calls : list Call) (self : SubscriptionMatcher)
  : list (option exn) * SubscriptionMatcher :=
  match calls with
  | [] => ([], self)
  | c :: rest =>
      let '(e, self1) := run_call c self in
      let '(es, self2) := run_calls rest self1 in
      (e :: es, self2)
  end.

(* ================================================================== *)
(** ** [class EcommerceDataGenerator]: generated subscriptions
    ([common/data_generator.py]) *)

(** The sources of chance, as the Python runtime provides them: the state
    [entropy] of the generators, [random._randbelow(n)] (an integer below
    [n], from which [random.choice] and [random.randint] are built),
    [random.random()], [round(random.uniform(lo, hi), digits)] and
    [str(uuid.uuid4())]. *)
Record Chance : Type := {
  entropy : Type;
  randbelow : nat -> entropy -> nat * entropy;
  random_random : entropy -> float * entropy;
  random_rounded : float -> float -> Z -> entropy -> float * entropy;
  uuid4 : entropy -> string * entropy
}.

Section Generator.

Variable chance : Chance.

(** A computation that draws from the sources of chance. *)
Definition G (A : Type) : Type := entropy chance -> A * entropy chance.

Definition gret {A : Type} (a : A) : G A := fun g => (a, g).

Definition gbind {A B : Type} (m : G A) (k : A -> G B) : G B :=
  fun g => let '(a, g') := m g in k a g'.

Notation "x <~ m ;; k" := (gbind m (fun x => k))
  (at level 100, m at next level, right associativity).

(** [random.choice(seq)] is [seq[_randbelow(len(seq))]]; every sequence
    chosen from below is a non-empty literal, so [default] is not used. *)
Definition random_choice {A : Type} (default : A) (seq : list A) : G A :=
  fun g => let '(i, g') := randbelow chance (List.length seq) g in (nth i seq default, g').

(** [random.randint(a, b)] is [a + _randbelow(b - a + 1)]. *)
Definition random_randint (a b : Z) : G Z :=
  fun g => let '(i, g') := randbelow chance (Z.to_nat (b - a + 1)) g in (a + Z.of_nat i, g').

(** [str(round(random.uniform(lo, hi), digits))]. *)
Definition random_value (lo hi : float) (digits : Z) : G string :=
  fun g => let '(x, g') := random_rounded chance lo hi digits g in (str_of_float x, g').

(** [for _ in range(n): items.append(draw())]. *)
Fixpoint draw_each {A : Type} (n : nat) (draw : G A) : G (list A) :=
  match n with
  | O => gret []
  | S n' => a <~ draw ;; rest <~ draw_each n' draw ;; gret (a :: rest)
  end.

Definition categories : list string :=
  ["Electronics"; "Clothing"; "Books"; "Home & Garden"; "Sports";
   "Beauty"; "Toys"; "Automotive"; "Food"; "Health"].

Definition products : dict (list string) :=
  [("Electronics", ["LAPTOP123"; "PHONE456"; "TABLET789"; "CAMERA001"; "HEADPHONE002"]);
   ("Clothing", ["SHIRT001"; "PANTS002"; "DRESS003"; "JACKET004"; "SHOES005"]);
   ("Books", ["BOOK001"; "BOOK002"; "BOOK003"; "BOOK004"; "BOOK005"]);
   ("Home & Garden", ["CHAIR001"; "TABLE002"; "LAMP003"; "PLANT004"; "TOOL005"]);
   ("Sports", ["BALL001"; "BIKE002"; "SHOES003"; "BAG004"; "WATCH005"]);
   ("Beauty", ["LIPSTICK001"; "CREAM002"; "PERFUME003"; "BRUSH004"; "MASK005"]);
   ("Toys", ["DOLL001"; "CAR002"; "PUZZLE003"; "GAME004"; "ROBOT005"]);
   ("Automotive", ["TIRE001"; "OIL002"; "BATTERY003"; "FILTER004"; "TOOL005"]);
   ("Food", ["SNACK001"; "DRINK002"; "CANDY003"; "SAUCE004"; "SPICE005"]);
   ("Health", ["VITAMIN001"; "MEDICINE002"; "BANDAGE003"; "CREAM004"; "SUPPLEMENT005"])].

(** [self.products[category]] for a category of the list above. *)
Definition products_of (category : string) : list string :=
  match dict_get category products with
  | Some l => l
  | None => []
  end.

(** [f"{i:04d}"] for an [i] that is not negative. *)
Definition zero_padded (width : nat) (i : Z) : string :=
  let digits := string_of_Z i in
  (String.concat "" (repeat "0" (width - String.length digits)) ++ digits)%string.

(** [[f"user_{i:04d}" for i in range(1, 1001)]]. *)
Definition users : list string :=
  map (fun i => ("user_" ++ zero_padded 4 (Z.of_nat i))%string) (seq 1 1000).

(** [sub in s]. *)
Definition str_contains (sub s : string) : bool :=
  match String.index 0 sub s with
  | Some _ => true
  | None => false
  end.

Definition ordering_operators : list ComparisonOperator :=
  [GREATER_THAN; LESS_THAN; GREATER_EQUAL; LESS_EQUAL].

Definition windowed_field_choices : list string :=
  ["avg_rating"; "avg_price"; "max_price"; "min_rating"].

Definition regular_field_choices : list string :=
  ["category"; "product_id"; "user_id"; "price"; "stock_level"; "rating"].

Definition equality_field_choices : list string :=
  ["category"; "product_id"; "user_id"].

Definition _generate_condition (windowed : bool) : G FilterCondition :=
  if windowed then
    name <~ random_choice "" windowed_field_choices ;;
    op <~ random_choice EQUAL ordering_operators ;;
    v <~ (if str_contains "price" name then random_value 10 1000 2
          else random_value 1 5 1) ;;
    gret {| field_name := name; operator := op; value := v; is_windowed := windowed |}
  else
    name <~ random_choice "" regular_field_choices ;;
    if String.eqb name "category" then
      v <~ random_choice "" categories ;;
      gret {| field_name := name; operator := EQUAL; value := v;
              is_windowed := windowed |}
    else if String.eqb name "product_id" then
      category <~ random_choice "" categories ;;
      v <~ random_choice "" (products_of category) ;;
      gret {| field_name := name; operator := EQUAL; value := v;
              is_windowed := windowed |}
    else if String.eqb name "user_id" then
      v <~ random_choice "" users ;;
      gret {| field_name := name; operator := EQUAL; value := v;
              is_windowed := windowed |}
    else if existsb (String.eqb name) ["price"; "stock_level"; "rating"] then
      op <~ random_choice EQUAL ordering_operators ;;
      v <~ (if String.eqb name "price" then random_value 10 1000 2
            else if String.eqb name "stock_level"
                 then (n <~ random_randint 1 100 ;; gret (string_of_Z n))
            else random_value 1 5 1) ;;
      gret {| field_name := name; operator := op; value := v; is_windowed := windowed |}
    else
      gret {| field_name := name; operator := EQUAL; value := "default";
              is_windowed := windowed |}.

Definition _generate_equality_condition : G FilterCondition :=
  name <~ random_choice "" equality_field_choices ;;
  v <~ (if String.eqb name "category" then random_choice "" categories
        else if String.eqb name "product_id"
             then (category <~ random_choice "" categories ;;
                   random_choice "" (products_of category))
        else random_choice "" users) ;;
  gret {| field_name := name; operator := EQUAL; value := v; is_windowed := false |}.

Definition generate_simple_subscription (subscriber : string) : G Subscription :=
  num_conditions <~ random_randint 1 3 ;;
  conds <~ draw_each (Z.to_nat num_conditions) (_generate_condition false) ;;
  sid <~ uuid4 chance ;;
  gret {| subscription_id := sid; subscriber_id := subscriber; sub_type := SIMPLE;
          conditions := conds; window_config := no_window_config |}.

Definition generate_complex_subscription (subscriber : string) : G Subscription :=
  num_regular <~ random_randint 1 2 ;;
  regular <~ draw_each (Z.to_nat num_regular) (_generate_condition false) ;;
  windowed_condition <~ _generate_condition true ;;
  size <~ random_randint 5 20 ;;
  kind <~ random_choice "" ["avg"; "max"; "min"] ;;
  sid <~ uuid4 chance ;;
  gret {| subscription_id := sid; subscriber_id := subscriber; sub_type := COMPLEX;
          conditions := regular ++ [windowed_condition];
          window_config := {| window_size := size; aggregation_type := kind |} |}.

Definition generate_subscription_with_equality_ratio (subscriber : string)
  (equality_ratio : float) : G Subscription :=
  num_conditions <~ random_randint 1 3 ;;
  conds <~ draw_each (Z.to_nat num_conditions)
             (u <~ random_random chance ;;
              if PrimFloat.ltb u equality_ratio then _generate_equality_condition
              else _generate_condition false) ;;
  sid <~ uuid4 chance ;;
  gret {| subscription_id := sid; subscriber_id := subscriber; sub_type := SIMPLE;
          conditions := conds; window_config := no_window_config |}.

End Generator.

(** A source of chance to run the generators on: the state counts the
    draws, [_randbelow(n)] is the count modulo [n]. *)
Definition counting_chance : Chance :=
  {| entropy := nat;
     randbelow := fun n g => (Nat.modulo g n, S g);
     random_random := fun g => (0.5%float, S g);
     random_rounded := fun lo hi digits g => (lo, S g);
     uuid4 := fun g => (("uuid-" ++ string_of_Z (Z.of_nat g))%string, S g) |}.

(* ================================================================== *)
(** ** Vocabulary of the properties *)

(** The manager stored under [window_managers[sid][name]], if any. *)
Definition manager_at (self : SubscriptionMatcher) (sid name : string)
  : option WindowManager :=
  match dict_get sid (window_managers self) with
  | Some inner => dict_get name inner
  | None => None
  end.

(** A manager between two calls of [add_value]: capacity at least one and
    a buffer strictly below capacity. *)
Definition manager_ready (w : WindowManager) : Prop :=
  1 <= wm_window_size w /\ Z.of_nat (List.length (window w)) < wm_window_size w.

(** Lexicographic order on strings, by character code. *)
Inductive lex_lt : string -> string -> Prop :=
| lex_lt_empty : forall c s, lex_lt EmptyString (String c s)
| lex_lt_head : forall c1 c2 s1 s2,
    (nat_of_ascii c1 < nat_of_ascii c2)%nat -> lex_lt (String c1 s1) (String c2 s2)
| lex_lt_tail : forall c s1 s2, lex_lt s1 s2 -> lex_lt (String c s1) (String c s2).

Definition is_simple_for (sid : string) (n : Notification) : bool :=
  String.eqb (n_subscription_id n) sid
  && match body n with SimpleNotification _ => true | _ => false end.

Definition is_complex_for (sid name : string) (n : Notification) : bool :=
  String.eqb (n_subscription_id n) sid
  && match body n with
     | ComplexNotification _ fn _ _ _ => String.eqb fn name
     | SimpleNotification _ => false
     end.

(** The notifications a call hands back: none when it raises. *)
Definition emitted {A : Type} (r : result (list A)) : list A :=
  match r with
  | Ok l => l
  | Raise _ => []
  end.

(** A sequence of [match_event] calls, each with its clock reading; as in
    the broker's event handler a raising call yields no notification and
    the next event is matched on the matcher as the raise left it. *)
Fixpoint match_events (events : list (Z * EcommerceEvent)) (self : SubscriptionMatcher)
  : list Notification * SubscriptionMatcher :=
  match events with
  | [] => ([], self)
  | (now, event) :: rest =>
      let '(r, self1) := match_event now event self in
      let '(out, self2) := match_events rest self1 in
      (emitted r ++ out, self2)
  end.

(** An event that passes the sampling gate of [S] and yields a number for
    the base field of [name]. *)
Definition sampled (S : Subscription) (name : string) (event : EcommerceEvent) : bool :=
  non_windowed_match event S
  && match _extract_numeric_value event name with Some _ => true | None => false end.

(** The windowed conditions of [S] whose field name is [name]. *)
Definition windowed_on (name : string) (S : Subscription) : list FilterCondition :=
  filter (fun c => is_windowed c && String.eqb (field_name c) name) (conditions S).

(** [l1] is [l2] with some elements left out, order kept. *)
Inductive subsequence {A : Type} : list A -> list A -> Prop :=
| subsequence_nil : subsequence [] []
| subsequence_skip : forall x l1 l2, subsequence l1 l2 -> subsequence l1 (x :: l2)
| subsequence_keep : forall x l1 l2, subsequence l1 l2 -> subsequence (x :: l1) (x :: l2).

(** Keys and subscription ids agree and no key repeats (what a Python
    dictionary filled by [add_subscription] guarantees). *)
Definition registry_ok (d : dict Subscription) : Prop :=
  NoDup (dict_keys d) /\ forall k S, In (k, S) d -> subscription_id S = k.

(** What every sequence of control operations and [match_event] calls
    keeps: no key repeats in [window_managers] and
    [subscription_contexts], and an id that is not in the complex map has
    no window managers and no context. *)
Definition consistent (self : SubscriptionMatcher) : Prop :=
  NoDup (dict_keys (window_managers self))
  /\ NoDup (dict_keys (subscription_contexts self))
  /\ (forall sid, dict_get sid (complex_subscriptions self) = None ->
       dict_get sid (window_managers self) = None
       /\ dict_get sid (subscription_contexts self) = None).

(** The matcher between two calls when only subscriptions with a window
    size of at least one were added: every windowed condition of a complex
    subscription has its manager, and every manager is ready. *)
Definition valid (self : SubscriptionMatcher) : Prop :=
  registry_ok (simple_subscriptions self)
  /\ registry_ok (complex_subscriptions self)
  /\ (forall S c, In S (dict_values (complex_subscriptions self)) ->
       In c (conditions S) -> is_windowed c = true ->
       exists w, manager_at self (subscription_id S) (field_name c) = Some w)
  /\ (forall sid name w, manager_at self sid name = Some w -> manager_ready w)
  /\ consistent self.

(** The matcher with [window_managers] replaced. *)
Definition with_window_managers (self : SubscriptionMatcher)
  (d : dict (dict WindowManager)) : SubscriptionMatcher :=
  snd (set_window_managers d self).

(** The manager [WindowManager(size, kind)] builds for a size that is not
    negative. *)
Definition fresh_manager (cfg : WindowConfig) : WindowManager :=
  {| wm_window_size := window_size cfg; wm_aggregation_type := aggregation_type cfg;
     window := []; is_full := false |}.

(** The dictionary [_setup_window_managers] fills, starting from [inner]. *)
Definition managers_for (cfg : WindowConfig) (conds : list FilterCondition)
  (inner : dict WindowManager) : dict WindowManager :=
  fold_left (fun acc c =>
               if is_windowed c then dict_set (field_name c) (fresh_manager cfg) acc
               else acc)
            conds inner.

(** The subscription can be registered: a complex subscription with a
    windowed condition needs a window size that is not negative. *)
Definition registrable (S : Subscription) : Prop :=
  sub_type S = SIMPLE
  \/ 0 <= window_size (window_config S)
  \/ forallb (fun c => negb (is_windowed c)) (conditions S) = true.

(** What a [match_event] call never touches: the subscriptions, the
    contexts and the ids that have window managers. *)
Definition same_registry (s1 s2 : SubscriptionMatcher) : Prop :=
  simple_subscriptions s2 = simple_subscriptions s1
  /\ complex_subscriptions s2 = complex_subscriptions s1
  /\ subscription_contexts s2 = subscription_contexts s1
  /\ dict_keys (window_managers s2) = dict_keys (window_managers s1).

(** The manager under [(sid, name)] exists, has capacity [N] and a buffer
    below capacity; [buffered] is the length of that buffer. *)
Definition tracked (sid name : string) (N : Z) (self : SubscriptionMatcher) : Prop :=
  exists w, manager_at self sid name = Some w
            /\ wm_window_size w = N
            /\ Z.of_nat (List.length (window w)) < N.

Definition buffered (sid name : string) (self : SubscriptionMatcher) : nat :=
  match manager_at self sid name with
  | Some w => List.length (window w)
  | None => O
  end.

Definition count_for (sid name : string) (ns : list Notification) : nat :=
  List.length (filter (is_complex_for sid name) ns).

(** A computation that feeds at most [adds] samples to the manager under
    [(sid, name)]: the notifications it hands back for that pair, times
    the capacity, plus what stays buffered, is bounded by what was buffered
    plus [adds]. *)
Definition feeds (sid name : string) (N : Z) (m : M (list Notification)) (adds : nat)
  : Prop :=
  forall self r self',
    tracked sid name N self ->
    m self = (r, self') ->
    tracked sid name N self'
    /\ N * Z.of_nat (count_for sid name (emitted r)) + Z.of_nat (buffered sid name self')
       <= Z.of_nat (buffered sid name self) + Z.of_nat adds.

Definition total {A : Type} (g : A -> nat) (l : list A) : nat :=
  fold_right (fun a acc => (g a + acc)%nat) O l.

(** The samples one condition of the tracked subscription feeds to the
    manager under [name] on [event]: one when it is windowed, its field
    name is [name] and the event yields a number. *)
Definition sample_of (name : string) (event : EcommerceEvent) (c : FilterCondition)
  : nat :=
  if is_windowed c && String.eqb (field_name c) name
     && match _extract_numeric_value event (field_name c) with
        | Some _ => true
        | None => false
        end
  then 1%nat else O.

(** The samples one [match_event] call may feed to the manager of [S]
    under [name]: one per windowed condition named [name] when the event is
    sampled, none otherwise. *)
Definition samples_of (S : Subscription) (name : string) (event : EcommerceEvent) : nat :=
  if sampled S name event then List.length (windowed_on name S) else O.

(** The matcher after [add_subscription] of each subscription in turn. *)
Definition registered (subscriptions : list Subscription) : SubscriptionMatcher :=
  fold_left (fun self S => snd (add_subscription S self))
            subscriptions SubscriptionMatcher_init.

(** A broker that has handled nothing yet, around the matcher [m]. *)
Definition broker_with (m : SubscriptionMatcher) : EcommerceBroker :=
  {| matcher := m; subscriber_addresses := []; events_processed := 0;
     notifications_sent := 0; published := [] |}.

(** The managers of [s2] are those of [s1]: the same keys hold a manager,
    and each manager has the capacity and the aggregation type it had. *)
Definition same_configuration (s1 s2 : SubscriptionMatcher) : Prop :=
  forall sid name,
    match manager_at s1 sid name, manager_at s2 sid name with
    | Some w, Some w' =>
        wm_window_size w' = wm_window_size w
        /\ wm_aggregation_type w' = wm_aggregation_type w
    | None, None => True
    | _, _ => False
    end.

(** The condition [c] with another operator. *)
Definition with_operator (c : FilterCondition) (op : ComparisonOperator)
  : FilterCondition :=
  {| field_name := field_name c; operator := op; value := value c;
     is_windowed := is_windowed c |}.

(** The event has the field of [c] and, for a numeric field name, both
    the field and the value of [c] convert with [float]. *)
Definition comparable (event : EcommerceEvent) (c : FilterCondition) : bool :=
  match _extract_field_value event (field_name c) with
  | None => false
  | Some field_value =>
      if existsb (String.eqb (field_name c)) numeric_fields then
        match py_float field_value, float_of_str (value c) with
        | Some _, Some _ => true
        | _, _ => false
        end
      else true
  end.

(** The notification is a simple one (it carries the matched event). *)
Definition is_simple (n : Notification) : bool :=
  match body n with
  | SimpleNotification _ => true
  | ComplexNotification _ _ _ _ _ => false
  end.

(** The aggregates a sequence of [add_value] outcomes reports: one for
    each call that returned [(True, aggregate)]. *)
Definition fired (outcomes : list (result (bool * option float))) : list float :=
  flat_map (fun r => match r with
                     | Ok (true, Some a) => [a]
                     | _ => []
                     end)
           outcomes.

(** The number one event feeds to the window of [S] under [name]: none
    unless the event passes the non-windowed gate of [S] and has a number
    for the base field of [name]. *)
Definition event_samples (S : Subscription) (name : string) (event : EcommerceEvent)
  : list float :=
  if non_windowed_match event S then
    match _extract_numeric_value event name with
    | Some v => [v]
    | None => []
    end
  else [].

Definition samples (S : Subscription) (name : string)
  (events : list (Z * EcommerceEvent)) : list float :=
  flat_map (fun p => event_samples S name (snd p)) events.

(** The aggregates that the complex notifications for [(sid, name)] in a
    list of notifications carry, in order. *)
Definition reported (sid name : string) (ns : list Notification) : list float :=
  flat_map (fun n => if is_complex_for sid name n then
                       match body n with
                       | ComplexNotification _ _ a _ _ => [a]
                       | SimpleNotification _ => []
                       end
                     else [])
           ns.

(** A computation that hands the values [vs], in order, to the manager
    under [(sid, name)] and reports the aggregates that satisfy [c]. *)
Definition feeds_exactly (sid name : string) (c : FilterCondition)
  (m : M (list Notification)) (vs : list float) : Prop :=
  forall self out self' w,
    manager_at self sid name = Some w ->
    m self = (Ok out, self') ->
    manager_at self' sid name = Some (snd (add_values vs w))
    /\ reported sid name out
       = filter (fun a => _evaluate_windowed_condition a c)
                (fired (fst (add_values vs w))).

(** The event variant that alone has a field of this name, for the field
    names that [_extract_field_value] returns for one variant only. *)
Definition only_in (name : string) : option string :=
  if existsb (String.eqb name) ["price"; "quantity"] then Some "purchase"
  else if existsb (String.eqb name) ["view_duration"; "source"] then Some "product_view"
  else if existsb (String.eqb name) ["stock_level"; "operation"]
       then Some "inventory_update"
  else if existsb (String.eqb name) ["rating"; "review_text"] then Some "user_rating"
  else None.

(** Two field names that no single event has. *)
Definition different_events (n1 n2 : string) : bool :=
  match only_in n1, only_in n2 with
  | Some v1, Some v2 => negb (String.eqb v1 v2)
  | _, _ => false
  end.

(** The call registers a subscription that is SIMPLE or has a window size
    of at least one; every other call qualifies. *)
Definition sized (c : Call) : Prop :=
  match c with
  | call_add subscription =>
      sub_type subscription = SIMPLE \/ 1 <= window_size (window_config subscription)
  | _ => True
  end.

(** [random._randbelow(n)] returns an integer below [n]. *)
Definition in_range (chance : Chance) : Prop :=
  forall (n : nat) (g : entropy chance),
    (0 < n)%nat -> (fst (randbelow chance n g) < n)%nat.

(** An equality condition on one of the three identifying fields, with a
    value from the generator's tables. *)
Definition equality_condition (c : FilterCondition) : Prop :=
  is_windowed c = false /\ operator c = EQUAL
  /\ ((field_name c = "category" /\ In (value c) categories)
      \/ (field_name c = "product_id"
          /\ exists category, In category categories
                              /\ In (value c) (products_of category))
      \/ (field_name c = "user_id" /\ In (value c) users)).

(** A non-windowed condition as the generator builds them: an equality
    condition, or an ordering on [price], [stock_level] or [rating]. *)
Definition regular_condition (c : FilterCondition) : Prop :=
  equality_condition c
  \/ (is_windowed c = false
      /\ In (field_name c) ["price"; "stock_level"; "rating"]
      /\ In (operator c) ordering_operators).

(** A windowed condition as the generator builds them. *)
Definition windowed_condition (c : FilterCondition) : Prop :=
  is_windowed c = true
  /\ In (field_name c) windowed_field_choices
  /\ In (operator c) ordering_operators.

(** [S] is the result of one of the three subscription generators. *)
Definition generated (chance : Chance) (S : Subscription) : Prop :=
  exists (subscriber : string) (g : entropy chance),
    S = fst (generate_simple_subscription chance subscriber g)
    \/ S = fst (generate_complex_subscription chance subscriber g)
    \/ exists ratio,
         S = fst (generate_subscription_with_equality_ratio chance subscriber ratio g).

(* ================================================================== *)
(** ** Dictionaries *)

Lemma dict_get_set_same : forall (V : Type) (k : string) (v : V) (d : dict V),
  dict_get k (dict_set k v d) = Some v.
Proof.
  induction d as [|[k' v'] d IH]; simpl.
  - now rewrite String.eqb_refl.
  - destruct (String.eqb k k') eqn:E; simpl; rewrite ?String.eqb_refl, ?E; auto.
Qed.

Lemma dict_get_set_other : forall (V : Type) (k k' : string) (v : V) (d : dict V),
  k' <> k -> dict_get k' (dict_set k v d) = dict_get k' d.
Proof.
  intros V k k' v d Hne.
  induction d as [|[k0 v0] d IH]; simpl.
  - apply String.eqb_neq in Hne. now rewrite Hne.
  - destruct (String.eqb k k0) eqn:E; simpl.
    + apply String.eqb_eq in E. subst k0.
      apply String.eqb_neq in Hne. now rewrite Hne.
    + now rewrite IH.
Qed.

Lemma dict_get_set : forall (V : Type) (k k' : string) (v : V) (d : dict V),
  dict_get k' (dict_set k v d) = if String.eqb k' k then Some v else dict_get k' d.
Proof.
  intros. destruct (String.eqb k' k) eqn:E.
  - apply String.eqb_eq in E. subst. apply dict_get_set_same.
  - apply String.eqb_neq in E. now apply dict_get_set_other.
Qed.

Lemma dict_get_None_keys : forall (V : Type) (k : string) (d : dict V),
  dict_get k d = None <-> ~ In k (dict_keys d).
Proof.
  clear float_of_str.
  induction d as [|[k' v'] d IH]; simpl.
  - tauto.
  - destruct (String.eqb k k') eqn:E.
    + apply String.eqb_eq in E. subst. split; [discriminate | tauto].
    + apply String.eqb_neq in E. rewrite IH. split.
      * intros H [H1|H1]; [congruence | tauto].
      * intros H H1. apply H. now right.
Qed.

Lemma dict_get_In : forall (V : Type) (k : string) (v : V) (d : dict V),
  dict_get k d = Some v -> In (k, v) d.
Proof.
  induction d as [|[k' v'] d IH]; simpl; [discriminate|].
  destruct (String.eqb k k') eqn:E.
  - apply String.eqb_eq in E. intros [= ->]. subst. now left.
  - auto.
Qed.

Lemma In_dict_get : forall (V : Type) (k : string) (v : V) (d : dict V),
  NoDup (dict_keys d) -> In (k, v) d -> dict_get k d = Some v.
Proof.
  clear float_of_str.
  induction d as [|[k' v'] d IH]; simpl; [tauto|].
  intros Hnd [H|H].
  - injection H as -> ->. now rewrite String.eqb_refl.
  - inversion Hnd as [|? ? Hnotin Hnd']; subst.
    destruct (String.eqb k k') eqn:E; auto.
    apply String.eqb_eq in E. subst k'. exfalso. apply Hnotin.
    change (In (fst (k, v)) (map fst d)). now apply in_map.
Qed.

Lemma dict_set_fresh : forall (V : Type) (k : string) (v : V) (d : dict V),
  dict_get k d = None -> dict_set k v d = d ++ [(k, v)].
Proof.
  induction d as [|[k' v'] d IH]; simpl; auto.
  destruct (String.eqb k k'); [discriminate|]. intros H. now rewrite IH.
Qed.

Lemma dict_del_absent : forall (V : Type) (k : string) (d : dict V),
  dict_get k d = None -> dict_del k d = d.
Proof.
  induction d as [|[k' v'] d IH]; simpl; auto.
  destruct (String.eqb k k'); [discriminate|]. intros H. now rewrite IH.
Qed.

Lemma dict_del_set_fresh : forall (V : Type) (k : string) (v : V) (d : dict V),
  dict_get k d = None -> dict_del k (dict_set k v d) = d.
Proof.
  induction d as [|[k' v'] d IH]; simpl.
  - now rewrite String.eqb_refl.
  - destruct (String.eqb k k') eqn:E; [discriminate|]. intros H.
    simpl. rewrite E. now rewrite IH.
Qed.

Lemma dict_keys_set_present : forall (V : Type) (k : string) (v v0 : V) (d : dict V),
  dict_get k d = Some v0 -> dict_keys (dict_set k v d) = dict_keys d.
Proof.
  induction d as [|[k' v'] d IH]; simpl; [discriminate|].
  destruct (String.eqb k k') eqn:E; simpl.
  - apply String.eqb_eq in E. now subst.
  - intros H. f_equal. now apply IH.
Qed.

Lemma dict_keys_set_fresh : forall (V : Type) (k : string) (v : V) (d : dict V),
  dict_get k d = None -> dict_keys (dict_set k v d) = dict_keys d ++ [k].
Proof.
  intros. rewrite dict_set_fresh by assumption. unfold dict_keys. now rewrite map_app.
Qed.

Lemma dict_mem_true : forall (V : Type) (k : string) (d : dict V),
  dict_mem k d = true <-> exists v, dict_get k d = Some v.
Proof.
  intros. unfold dict_mem. destruct (dict_get k d); split; eauto; try discriminate.
  intros [? ?]. discriminate.
Qed.

Lemma dict_mem_false : forall (V : Type) (k : string) (d : dict V),
  dict_mem k d = false <-> dict_get k d = None.
Proof.
  intros. unfold dict_mem. destruct (dict_get k d); split; auto; discriminate.
Qed.

(* ================================================================== *)
(** ** The window manager *)

Lemma deque_append_room : forall (maxlen : Z) (d : list float) (x : float),
  Z.of_nat (List.length d) < maxlen -> deque_append maxlen d x = d ++ [x].
Proof.
  intros maxlen d x H. unfold deque_append.
  rewrite length_app. simpl.
  destruct (Z.ltb_spec maxlen (Z.of_nat (List.length d + 1))); auto. lia.
Qed.

Lemma statistics_mean_returns : forall (values : list float),
  values <> [] -> exists a, statistics_mean values = Ok a.
Proof.
  intros [|x l] H; [congruence|]. unfold statistics_mean.
  destruct (forallb is_finite (x :: l)); eauto.
Qed.

Lemma py_max_returns : forall (values : list float),
  values <> [] -> exists a, py_max values = Ok a.
Proof. intros [|x l] H; [congruence|]. simpl. eauto. Qed.

Lemma py_min_returns : forall (values : list float),
  values <> [] -> exists a, py_min values = Ok a.
Proof. intros [|x l] H; [congruence|]. simpl. eauto. Qed.

Lemma _calculate_aggregation_returns : forall (self : WindowManager),
  window self <> [] -> exists a, _calculate_aggregation self = Ok a.
Proof.
  intros self H. unfold _calculate_aggregation.
  destruct (String.eqb _ "avg"); [now apply statistics_mean_returns|].
  destruct (String.eqb _ "max"); [now apply py_max_returns|].
  destruct (String.eqb _ "min"); [now apply py_min_returns|].
  destruct (String.eqb _ "sum"); [eauto|].
  now apply statistics_mean_returns.
Qed.

(** What [add_value] does on a ready manager, as one equation: below
    capacity the value is buffered; at capacity the aggregate is returned,
    the buffer is emptied and [is_full] is set. *)
Lemma add_value_ready : forall (v : float) (self : WindowManager),
  manager_ready self ->
  (Z.of_nat (List.length (window self)) + 1 < wm_window_size self
   /\ add_value v self = (Ok (false, None), set_window self (window self ++ [v])))
  \/ (Z.of_nat (List.length (window self)) + 1 = wm_window_size self
      /\ exists a,
           _calculate_aggregation (set_is_full (set_window self (window self ++ [v])) true)
             = Ok a
           /\ add_value v self
              = (Ok (true, Some a), set_window (set_is_full self true) [])).
Proof.
  intros v self [Hcap Hlen]. unfold add_value.
  rewrite deque_append_room by assumption. simpl.
  rewrite length_app. simpl. rewrite Nat2Z.inj_add. simpl.
  destruct (Z.eqb_spec (Z.of_nat (List.length (window self)) + 1) (wm_window_size self))
    as [E|E].
  - right. split; [assumption|].
    destruct (_calculate_aggregation_returns
                (set_is_full (set_window self (window self ++ [v])) true)) as [a Ha].
    { simpl. destruct (window self); discriminate. }
    exists a. split; [exact Ha|]. now rewrite Ha.
  - left. split; [lia | reflexivity].
Qed.


(* ================================================================== *)
(** ** Condition evaluation *)

Lemma ascii_compare_Lt : forall c1 c2 : ascii,
  Ascii.compare c1 c2 = Lt <-> (nat_of_ascii c1 < nat_of_ascii c2)%nat.
Proof.
  intros. unfold Ascii.compare, nat_of_ascii.
  rewrite Nnat.N2Nat.inj_compare. apply Nat.compare_lt_iff.
Qed.

Lemma ascii_compare_refl : forall c : ascii, Ascii.compare c c = Eq.
Proof. intros. unfold Ascii.compare. apply N.compare_refl. Qed.

Lemma string_compare_refl : forall s : string, String.compare s s = Eq.
Proof.
  induction s as [|c s IH]; simpl; auto. now rewrite ascii_compare_refl.
Qed.

Lemma string_compare_Lt : forall x y : string,
  String.compare x y = Lt <-> lex_lt x y.
Proof.
  intros x y. split.
  - revert y. induction x as [|c x IH]; intros [|d y]; simpl; try discriminate.
    + intros _. constructor.
    + destruct (Ascii.compare c d) eqn:E; try discriminate.
      * apply Ascii.compare_eq_iff in E. subst d. intros H. apply lex_lt_tail. auto.
      * intros _. apply lex_lt_head. now apply ascii_compare_Lt.
  - induction 1 as [c s | c1 c2 s1 s2 H | c s1 s2 H IH]; simpl; auto.
    + apply ascii_compare_Lt in H. now rewrite H.
    + now rewrite ascii_compare_refl.
Qed.

Lemma string_compare_Gt : forall x y : string,
  String.compare x y = Gt <-> lex_lt y x.
Proof.
  intros x y. rewrite <- string_compare_Lt, (String.compare_antisym y x).
  destruct (String.compare x y); simpl; split; congruence.
Qed.

Lemma string_ltb_lex : forall x y : string, String.ltb x y = true <-> lex_lt x y.
Proof.
  intros. rewrite <- string_compare_Lt. unfold String.ltb.
  destruct (String.compare x y); split; congruence.
Qed.

Lemma string_leb_lex : forall x y : string,
  String.leb x y = true <-> lex_lt x y \/ x = y.
Proof.
  clear float_of_str.
  intros. unfold String.leb. destruct (String.compare x y) eqn:E.
  - apply String.compare_eq_iff in E. tauto.
  - apply string_compare_Lt in E. tauto.
  - split; [discriminate|]. intros [H | H].
    + apply string_compare_Lt in H. congruence.
    + subst. rewrite string_compare_refl in E. discriminate.
Qed.

(** The comparison of two floats read in the other direction. *)
Lemma SFcompare_antisym : forall x y : spec_float,
  SFcompare y x = option_map CompOpp (SFcompare x y).
Proof.
  intros [sx| sx | | sx mx ex] [sy | sy | | sy my ey]; simpl; try reflexivity;
    try (destruct sx; reflexivity); try (destruct sy; reflexivity);
    try (destruct sx, sy; reflexivity).
  destruct sx, sy; simpl; try reflexivity.
  - rewrite (Z.compare_antisym ex ey).
    destruct (Z.compare ex ey); simpl; try reflexivity.
    now rewrite (Pos.compare_cont_antisym mx my Eq).
  - rewrite (Z.compare_antisym ex ey).
    destruct (Z.compare ex ey); simpl; try reflexivity.
    now rewrite (Pos.compare_cont_antisym mx my Eq).
Qed.

(** The fields outside [numeric_fields] hold strings in every variant. *)
Lemma _extract_field_value_string : forall (event : EcommerceEvent) (name : string)
  (v : FieldValue),
  ~ In name numeric_fields ->
  _extract_field_value event name = Some v -> exists s, v = VStr s.
Proof.
  intros event name v Hnot. unfold _extract_field_value.
  assert (Hp : name <> "price") by (intros ->; apply Hnot; simpl; tauto).
  assert (Hs : name <> "stock_level") by (intros ->; apply Hnot; simpl; tauto).
  assert (Hr : name <> "rating") by (intros ->; apply Hnot; simpl; tauto).
  assert (Hq : name <> "quantity") by (intros ->; apply Hnot; simpl; tauto).
  assert (Hv : name <> "view_duration") by (intros ->; apply Hnot; simpl; tauto).
  apply String.eqb_neq in Hp, Hs, Hr, Hq, Hv.
  destruct (event_payload event); rewrite ?Hp, ?Hs, ?Hr, ?Hq, ?Hv;
    repeat match goal with
           | |- context [String.eqb name ?k] => destruct (String.eqb name k)
           end;
    intros [= <-]; eauto.
Qed.

(** The fields in [numeric_fields] hold a float or an int in every variant. *)
Lemma _extract_field_value_numeric : forall (event : EcommerceEvent) (name : string)
  (v : FieldValue),
  In name numeric_fields ->
  _extract_field_value event name = Some v ->
  (exists x, v = VFloat x) \/ (exists n, v = VInt n).
Proof.
  intros event name v Hin. unfold _extract_field_value.
  simpl in Hin. destruct Hin as [<-|[<-|[<-|[<-|[<-|[]]]]]];
    destruct (event_payload event); simpl; intros [= <-]; eauto.
Qed.

(** A name outside the listed ones fails every test of the chain. *)
Ltac other_name name Hnot :=
  repeat match goal with
         | |- context [String.eqb name ?k] =>
             let E := fresh "E" in
             destruct (String.eqb name k) eqn:E;
             [ apply String.eqb_eq in E; exfalso; apply Hnot; rewrite E; simpl;
               repeat (first [left; reflexivity | right])
             | ]
         end;
  reflexivity.

(** C4. [_evaluate_condition] on every event and every condition.
    - Each variant defines exactly the fields of its message: a purchase
      [user_id], [product_id], [category], [price], [quantity] and
      [warehouse_id]; a product view [user_id], [product_id], [category],
      [view_duration] and [source]; an inventory update [product_id],
      [category], [stock_level], [warehouse_id] and [operation]; a user
      rating [user_id], [product_id], [category], [rating] and
      [review_text]. Every other name is not defined for the variant.
    - A condition on a field the variant does not define is [False].
    - For the names [price], [stock_level], [rating], [quantity] and
      [view_duration] both sides go through [float]: the field is a float,
      or an int that is converted to the nearest float ([binary_normalize]
      rounds the integer to binary64); a condition value
      that [float] refuses gives [False]; otherwise the operator is the
      IEEE 754 comparison of the two floats (a NaN is unordered: only [!=]
      holds).
    - For every other name the field holds a string, and the operator
      compares the two strings: [==] and [!=] by equality, the ordering
      operators lexicographically by character code. *)
Theorem evaluate_condition_spec : forall (event : EcommerceEvent) (c : FilterCondition),
  (forall p, event_payload event = PURCHASE p ->
     _extract_field_value event "user_id" = Some (VStr (purchase_user_id p))
     /\ _extract_field_value event "product_id" = Some (VStr (purchase_product_id p))
     /\ _extract_field_value event "category" = Some (VStr (purchase_category p))
     /\ _extract_field_value event "price" = Some (VFloat (purchase_price p))
     /\ _extract_field_value event "quantity" = Some (VInt (purchase_quantity p))
     /\ _extract_field_value event "warehouse_id" = Some (VStr (purchase_warehouse_id p))
     /\ (forall name,
           ~ In name ["user_id"; "product_id"; "category"; "price"; "quantity";
                      "warehouse_id"] ->
           _extract_field_value event name = None))
  /\ (forall p, event_payload event = PRODUCT_VIEW p ->
        _extract_field_value event "user_id" = Some (VStr (view_user_id p))
        /\ _extract_field_value event "product_id" = Some (VStr (view_product_id p))
        /\ _extract_field_value event "category" = Some (VStr (view_category p))
        /\ _extract_field_value event "view_duration" = Some (VInt (view_view_duration p))
        /\ _extract_field_value event "source" = Some (VStr (view_source p))
        /\ (forall name,
              ~ In name ["user_id"; "product_id"; "category"; "view_duration"; "source"] ->
              _extract_field_value event name = None))
  /\ (forall p, event_payload event = INVENTORY_UPDATE p ->
        _extract_field_value event "product_id" = Some (VStr (inventory_product_id p))
        /\ _extract_field_value event "category" = Some (VStr (inventory_category p))
        /\ _extract_field_value event "stock_level" = Some (VInt (inventory_stock_level p))
        /\ _extract_field_value event "warehouse_id"
           = Some (VStr (inventory_warehouse_id p))
        /\ _extract_field_value event "operation" = Some (VStr (inventory_operation p))
        /\ (forall name,
              ~ In name ["product_id"; "category"; "stock_level"; "warehouse_id";
                         "operation"] ->
              _extract_field_value event name = None))
  /\ (forall p, event_payload event = USER_RATING p ->
        _extract_field_value event "user_id" = Some (VStr (rating_user_id p))
        /\ _extract_field_value event "product_id" = Some (VStr (rating_product_id p))
        /\ _extract_field_value event "category" = Some (VStr (rating_category p))
        /\ _extract_field_value event "rating" = Some (VFloat (rating_rating p))
        /\ _extract_field_value event "review_text" = Some (VStr (rating_review_text p))
        /\ (forall name,
              ~ In name ["user_id"; "product_id"; "category"; "rating"; "review_text"] ->
              _extract_field_value event name = None))
  /\ (_extract_field_value event (field_name c) = None ->
      _evaluate_condition event c = false)
  /\ (In (field_name c) ["price"; "stock_level"; "rating"; "quantity"; "view_duration"] ->
      forall v, _extract_field_value event (field_name c) = Some v ->
      exists x : float,
        (v = VFloat x
         \/ exists n : Z,
              v = VInt n /\ x = SF2Prim (binary_normalize prec emax n 0 false))
        /\ _evaluate_condition event c
           = match float_of_str (value c) with
             | Some y => compare_floats (operator c) x y
             | None => false
             end)
  /\ (~ In (field_name c) ["price"; "stock_level"; "rating"; "quantity"; "view_duration"] ->
      forall v, _extract_field_value event (field_name c) = Some v ->
      exists s, v = VStr s
        /\ _evaluate_condition event c = compare_strings (operator c) s (value c))
  /\ (forall x y : float,
        (compare_floats EQUAL x y = true
         <-> SFcompare (Prim2SF x) (Prim2SF y) = Some Eq)
        /\ (compare_floats NOT_EQUAL x y = true
            <-> SFcompare (Prim2SF x) (Prim2SF y) <> Some Eq)
        /\ (compare_floats LESS_THAN x y = true
            <-> SFcompare (Prim2SF x) (Prim2SF y) = Some Lt)
        /\ (compare_floats GREATER_THAN x y = true
            <-> SFcompare (Prim2SF x) (Prim2SF y) = Some Gt)
        /\ (compare_floats LESS_EQUAL x y = true
            <-> SFcompare (Prim2SF x) (Prim2SF y) = Some Lt
                \/ SFcompare (Prim2SF x) (Prim2SF y) = Some Eq)
        /\ (compare_floats GREATER_EQUAL x y = true
            <-> SFcompare (Prim2SF x) (Prim2SF y) = Some Gt
                \/ SFcompare (Prim2SF x) (Prim2SF y) = Some Eq))
  /\ (forall x y : string,
        (compare_strings EQUAL x y = true <-> x = y)
        /\ (compare_strings NOT_EQUAL x y = true <-> x <> y)
        /\ (compare_strings LESS_THAN x y = true <-> lex_lt x y)
        /\ (compare_strings GREATER_THAN x y = true <-> lex_lt y x)
        /\ (compare_strings LESS_EQUAL x y = true <-> lex_lt x y \/ x = y)
        /\ (compare_strings GREATER_EQUAL x y = true <-> lex_lt y x \/ x = y)).
Proof.
  intros event c. repeat apply conj.
  1-4: intros p Hp; unfold _extract_field_value; rewrite Hp;
    repeat apply conj; try reflexivity; intros name Hnot; other_name name Hnot.
  - intros H. unfold _evaluate_condition. now rewrite H.
  - intros Hin v Hv.
    assert (E : existsb (String.eqb (field_name c)) numeric_fields = true).
    { apply existsb_exists. exists (field_name c). split; [exact Hin|].
      apply String.eqb_refl. }
    unfold _evaluate_condition. rewrite Hv, E.
    destruct (_extract_field_value_numeric event (field_name c) v Hin Hv)
      as [[x ->]|[n ->]].
    + exists x. split; [now left|]. simpl.
      destruct (float_of_str (value c)); reflexivity.
    + exists (float_of_int n). split; [right; now exists n|]. simpl.
      destruct (float_of_str (value c)); reflexivity.
  - intros Hnot v Hv.
    destruct (_extract_field_value_string event (field_name c) v Hnot Hv) as [s ->].
    exists s. split; [reflexivity|].
    unfold _evaluate_condition. rewrite Hv.
    assert (E : existsb (String.eqb (field_name c)) numeric_fields = false).
    { destruct (existsb _ numeric_fields) eqn:E; [|reflexivity].
      apply existsb_exists in E. destruct E as [k [Hk Ek]].
      apply String.eqb_eq in Ek. subst k. contradiction. }
    now rewrite E.
  - intros x y. simpl. rewrite eqb_spec, !ltb_spec, !leb_spec.
    unfold SFeqb, SFltb, SFleb.
    rewrite (SFcompare_antisym (Prim2SF x) (Prim2SF y)).
    destruct (SFcompare (Prim2SF x) (Prim2SF y)) as [[]|]; simpl;
      repeat apply conj;
      solve [ congruence | auto | intros [H|H]; congruence ].
  - intros x y. split; [apply String.eqb_eq|].
    split.
    { simpl. rewrite negb_true_iff. apply String.eqb_neq. }
    split; [apply string_ltb_lex|].
    split; [apply string_ltb_lex|].
    split; [apply string_leb_lex|].
    simpl. rewrite string_leb_lex. clear. intuition.
Qed.

(* ================================================================== *)
(** ** Float comparisons *)

Lemma Prim2SF_nan : forall x : float,
  PrimFloat.is_nan x = true -> Prim2SF x = S754_nan.
Proof. intros x H. unfold Prim2SF. now rewrite H. Qed.

Lemma Prim2SF_not_nan : forall x : float,
  PrimFloat.is_nan x = false -> Prim2SF x <> S754_nan.
Proof.
  intros x H. unfold Prim2SF. rewrite H.
  destruct (PrimFloat.is_zero x); [discriminate|].
  destruct (PrimFloat.is_infinity x); [discriminate|].
  destruct (Z.frexp x) as [r e].
  destruct (shr_fexp prec emax _ _ _) as [shr e'].
  destruct (shr_m shr); discriminate.
Qed.

Lemma SFcompare_None : forall x y : spec_float,
  SFcompare x y = None -> x = S754_nan \/ y = S754_nan.
Proof.
  intros [sx| sx | | sx mx ex] [sy | sy | | sy my ey]; simpl; auto; discriminate.
Qed.

(** Without a NaN, [y <= x] is the negation of [x < y]. *)
Lemma leb_negb_ltb : forall x y : float,
  PrimFloat.is_nan x = false -> PrimFloat.is_nan y = false ->
  PrimFloat.leb y x = negb (PrimFloat.ltb x y).
Proof.
  clear str_of_float float_of_str.
  intros x y Hx Hy. rewrite leb_spec, ltb_spec.
  apply Prim2SF_not_nan in Hx, Hy.
  unfold SFleb, SFltb. rewrite (SFcompare_antisym (Prim2SF x) (Prim2SF y)).
  destruct (SFcompare (Prim2SF x) (Prim2SF y)) as [[| |]|] eqn:E; try reflexivity.
  apply SFcompare_None in E. tauto.
Qed.

Lemma abs_nan : forall x : float,
  PrimFloat.is_nan (PrimFloat.abs x) = PrimFloat.is_nan x.
Proof.
  intros x. destruct (PrimFloat.is_nan x) eqn:E.
  - apply Prim2SF_nan in E.
    assert (H : Prim2SF (PrimFloat.abs x) = S754_nan) by (now rewrite abs_spec, E).
    destruct (PrimFloat.is_nan (PrimFloat.abs x)) eqn:E'; [reflexivity|].
    apply Prim2SF_not_nan in E'. contradiction.
  - apply Prim2SF_not_nan in E.
    destruct (PrimFloat.is_nan (PrimFloat.abs x)) eqn:E'; [|reflexivity].
    apply Prim2SF_nan in E'. rewrite abs_spec in E'.
    destruct (Prim2SF x); simpl in E'; congruence.
Qed.

Lemma ltb_nan_l : forall x y : float,
  PrimFloat.is_nan x = true -> PrimFloat.ltb x y = false.
Proof. intros x y H. rewrite ltb_spec, (Prim2SF_nan x H). reflexivity. Qed.

Lemma leb_nan_r : forall x y : float,
  PrimFloat.is_nan y = true -> PrimFloat.leb x y = false.
Proof.
  intros x y H. rewrite leb_spec, (Prim2SF_nan y H).
  unfold SFleb. destruct (Prim2SF x); reflexivity.
Qed.

(** The amended C8. For a windowed condition whose value converts to the
    float [v] and an aggregate [a]: EQUAL holds exactly when
    [abs(a - v) < 0.01] and NOT_EQUAL exactly when [abs(a - v) >= 0.01];
    the two are complements whenever [a - v] is not a NaN, and both are
    false when it is; the ordering operators compare [a] with [v]
    directly. *)
Theorem evaluate_windowed_condition_spec : forall (a v : float) (c : FilterCondition),
  float_of_str (value c) = Some v ->
  let d := PrimFloat.abs (PrimFloat.sub a v) in
  (operator c = EQUAL -> _evaluate_windowed_condition a c = PrimFloat.ltb d tolerance)
  /\ (operator c = NOT_EQUAL ->
      _evaluate_windowed_condition a c = PrimFloat.leb tolerance d)
  /\ (PrimFloat.is_nan (PrimFloat.sub a v) = false ->
      PrimFloat.leb tolerance d = negb (PrimFloat.ltb d tolerance))
  /\ (PrimFloat.is_nan (PrimFloat.sub a v) = true ->
      PrimFloat.ltb d tolerance = false /\ PrimFloat.leb tolerance d = false)
  /\ (operator c = GREATER_THAN -> _evaluate_windowed_condition a c = PrimFloat.ltb v a)
  /\ (operator c = GREATER_EQUAL -> _evaluate_windowed_condition a c = PrimFloat.leb v a)
  /\ (operator c = LESS_THAN -> _evaluate_windowed_condition a c = PrimFloat.ltb a v)
  /\ (operator c = LESS_EQUAL -> _evaluate_windowed_condition a c = PrimFloat.leb a v).
Proof.
  intros a v c Hv d. unfold _evaluate_windowed_condition. rewrite Hv.
  repeat split; try (intros ->; reflexivity).
  - intros H. apply leb_negb_ltb; [|reflexivity].
    unfold d. now rewrite abs_nan.
  - apply ltb_nan_l. unfold d. now rewrite abs_nan.
  - apply leb_nan_r. unfold d. now rewrite abs_nan.
Qed.

(* ================================================================== *)
(** ** Registering and removing subscriptions *)

Lemma dict_set_set : forall (V : Type) (k : string) (v v' : V) (d : dict V),
  dict_set k v (dict_set k v' d) = dict_set k v d.
Proof.
  induction d as [|[k0 v0] d IH]; simpl.
  - now rewrite String.eqb_refl.
  - destruct (String.eqb k k0) eqn:E; simpl.
    + now rewrite String.eqb_refl.
    + now rewrite E, IH.
Qed.

Lemma dict_set_same_value : forall (V : Type) (k : string) (v : V) (d : dict V),
  dict_get k d = Some v -> dict_set k v d = d.
Proof.
  induction d as [|[k0 v0] d IH]; simpl; [discriminate|].
  destruct (String.eqb k k0) eqn:E.
  - apply String.eqb_eq in E. intros [= ->]. now subst.
  - intros H. now rewrite IH.
Qed.

Lemma with_window_managers_same : forall self : SubscriptionMatcher,
  with_window_managers self (window_managers self) = self.
Proof. now intros []. Qed.

Lemma setup_condition_run : forall (S : Subscription) (c : FilterCondition)
  (inner : dict WindowManager) (self : SubscriptionMatcher),
  0 <= window_size (window_config S) \/ is_windowed c = false ->
  dict_get (subscription_id S) (window_managers self) = Some inner ->
  setup_condition S c self
  = (Ok tt,
     with_window_managers self
       (dict_set (subscription_id S) (managers_for (window_config S) [c] inner)
          (window_managers self))).
Proof.
  intros S c inner self Hok Hget. unfold setup_condition, managers_for. simpl.
  destruct (is_windowed c) eqn:Ew.
  - assert (Hsize : 0 <= window_size (window_config S)) by (destruct Hok; congruence).
    unfold WindowManager_init.
    destruct (Z.ltb_spec (window_size (window_config S)) 0); [lia|].
    unfold bind, lift, ret, store_window_manager, bind, get, lookup.
    rewrite Hget. reflexivity.
  - unfold ret. rewrite dict_set_same_value by assumption.
    now rewrite with_window_managers_same.
Qed.

Lemma setup_loop_run : forall (S : Subscription) (conds : list FilterCondition)
  (inner : dict WindowManager) (self : SubscriptionMatcher),
  0 <= window_size (window_config S)
  \/ forallb (fun c => negb (is_windowed c)) conds = true ->
  dict_get (subscription_id S) (window_managers self) = Some inner ->
  iter (setup_condition S) conds self
  = (Ok tt,
     with_window_managers self
       (dict_set (subscription_id S) (managers_for (window_config S) conds inner)
          (window_managers self))).
Proof.
  intros S conds. induction conds as [|c conds IH]; intros inner self Hok Hget.
  - simpl. unfold ret. rewrite dict_set_same_value by assumption.
    now rewrite with_window_managers_same.
  - cbn [iter]. unfold bind.
    rewrite (setup_condition_run S c inner self); [| | assumption].
    + erewrite IH.
      * unfold with_window_managers. simpl. rewrite dict_set_set. reflexivity.
      * destruct Hok as [H|H]; [now left|]. right. simpl in H.
        now apply andb_true_iff in H.
      * unfold with_window_managers. simpl. apply dict_get_set_same.
    + destruct Hok as [H|H]; [now left|]. right. simpl in H.
      apply andb_true_iff in H. destruct H as [H _]. now apply negb_true_iff in H.
Qed.

Lemma _setup_window_managers_run : forall (S : Subscription) (self : SubscriptionMatcher),
  0 <= window_size (window_config S)
  \/ forallb (fun c => negb (is_windowed c)) (conditions S) = true ->
  _setup_window_managers S self
  = (Ok tt,
     {| simple_subscriptions := simple_subscriptions self;
        complex_subscriptions := complex_subscriptions self;
        window_managers :=
          dict_set (subscription_id S)
            (managers_for (window_config S) (conditions S) []) (window_managers self);
        subscription_contexts :=
          dict_set (subscription_id S) tt (subscription_contexts self) |}).
Proof.
  intros S self Hok. unfold _setup_window_managers.
  unfold bind at 1. unfold get at 1. unfold bind at 1. unfold set_window_managers at 1.
  unfold bind at 1. unfold get at 1. unfold bind at 1. unfold set_contexts at 1.
  simpl.
  rewrite (setup_loop_run S (conditions S) []).
  - unfold with_window_managers. simpl. now rewrite dict_set_set.
  - assumption.
  - simpl. apply dict_get_set_same.
Qed.

Lemma add_subscription_run : forall (S : Subscription) (self : SubscriptionMatcher),
  registrable S ->
  add_subscription S self
  = (Ok tt,
     match sub_type S with
     | SIMPLE =>
         {| simple_subscriptions :=
              dict_set (subscription_id S) S (simple_subscriptions self);
            complex_subscriptions := complex_subscriptions self;
            window_managers := window_managers self;
            subscription_contexts := subscription_contexts self |}
     | COMPLEX =>
         {| simple_subscriptions := simple_subscriptions self;
            complex_subscriptions :=
              dict_set (subscription_id S) S (complex_subscriptions self);
            window_managers :=
              dict_set (subscription_id S)
                (managers_for (window_config S) (conditions S) []) (window_managers self);
            subscription_contexts :=
              dict_set (subscription_id S) tt (subscription_contexts self) |}
     end).
Proof.
  intros S self Hreg. unfold add_subscription.
  destruct (sub_type S) eqn:Et.
  - reflexivity.
  - unfold bind at 1. unfold get at 1. unfold bind at 1. unfold set_complex at 1.
    rewrite _setup_window_managers_run; [reflexivity|].
    destruct Hreg as [H|H]; [congruence | exact H].
Qed.

Lemma remove_subscription_absent : forall (sid : string) (self : SubscriptionMatcher),
  dict_get sid (simple_subscriptions self) = None ->
  dict_get sid (complex_subscriptions self) = None ->
  remove_subscription sid self = (Ok tt, self).
Proof.
  intros sid self Hs Hc. unfold remove_subscription, bind, get.
  apply dict_mem_false in Hs, Hc. now rewrite Hs, Hc.
Qed.

(** The amended C5. [add_subscription] validates nothing: a SIMPLE
    subscription, and a COMPLEX one whose window size is not negative or
    that has no windowed condition, is stored under its id in the map for
    its kind, whatever its conditions, window size and aggregation type
    (an empty conditions list, a COMPLEX subscription without a windowed
    condition, a window size of 0 and an unknown aggregation type
    included); for COMPLEX a fresh manager is stored per windowed field
    name; the broker answers "success". *)
Theorem add_subscription_accepts : forall (S : Subscription) (self : SubscriptionMatcher),
  registrable S ->
  add_subscription S self
  = (Ok tt,
     match sub_type S with
     | SIMPLE =>
         {| simple_subscriptions :=
              dict_set (subscription_id S) S (simple_subscriptions self);
            complex_subscriptions := complex_subscriptions self;
            window_managers := window_managers self;
            subscription_contexts := subscription_contexts self |}
     | COMPLEX =>
         {| simple_subscriptions := simple_subscriptions self;
            complex_subscriptions :=
              dict_set (subscription_id S) S (complex_subscriptions self);
            window_managers :=
              dict_set (subscription_id S)
                (managers_for (window_config S) (conditions S) []) (window_managers self);
            subscription_contexts :=
              dict_set (subscription_id S) tt (subscription_contexts self) |}
     end)
  /\ forall (address : string) (broker : EcommerceBroker),
       matcher broker = self ->
       response_status (fst (_handle_subscriber_request (subscribe S address) broker))
       = "success".
Proof.
  intros S self Hreg. split.
  - now apply add_subscription_run.
  - intros address broker <-. simpl.
    now rewrite (add_subscription_run S (matcher broker) Hreg).
Qed.

Lemma remove_subscription_run : forall (sid : string) (self : SubscriptionMatcher),
  remove_subscription sid self
  = (Ok tt,
     if dict_mem sid (simple_subscriptions self) then
       {| simple_subscriptions := dict_del sid (simple_subscriptions self);
          complex_subscriptions := complex_subscriptions self;
          window_managers := window_managers self;
          subscription_contexts := subscription_contexts self |}
     else if dict_mem sid (complex_subscriptions self) then
       {| simple_subscriptions := simple_subscriptions self;
          complex_subscriptions := dict_del sid (complex_subscriptions self);
          window_managers :=
            if dict_mem sid (window_managers self)
            then dict_del sid (window_managers self) else window_managers self;
          subscription_contexts :=
            if dict_mem sid (subscription_contexts self)
            then dict_del sid (subscription_contexts self)
            else subscription_contexts self |}
     else self).
Proof.
  intros sid self. unfold remove_subscription, bind, get.
  destruct (dict_mem sid (simple_subscriptions self)); [reflexivity|].
  destruct (dict_mem sid (complex_subscriptions self)); [|reflexivity].
  unfold set_complex. cbn beta iota delta [window_managers subscription_contexts].
  destruct (dict_mem sid (window_managers self));
    unfold set_window_managers, ret;
    cbn beta iota delta [window_managers subscription_contexts];
    destruct (dict_mem sid (subscription_contexts self)); reflexivity.
Qed.

(** C7. For a subscription that can be registered and whose id is in
    neither map of the matcher (in any state the operations of the matcher
    lead to: a consistent one), [add_subscription] followed by
    [remove_subscription] of its id returns the matcher to the state it
    had, window managers and contexts included; and [remove_subscription]
    of an id that is in neither map changes nothing. *)
Theorem add_then_remove_restores :
  (forall (S : Subscription) (self : SubscriptionMatcher),
     registrable S -> consistent self ->
     dict_get (subscription_id S) (simple_subscriptions self) = None ->
     dict_get (subscription_id S) (complex_subscriptions self) = None ->
     exists self1,
       add_subscription S self = (Ok tt, self1)
       /\ remove_subscription (subscription_id S) self1 = (Ok tt, self))
  /\ (forall (sid : string) (self : SubscriptionMatcher),
        dict_get sid (simple_subscriptions self) = None ->
        dict_get sid (complex_subscriptions self) = None ->
        remove_subscription sid self = (Ok tt, self)).
Proof.
  split; [|exact remove_subscription_absent].
  intros S self Hreg Hcons Hs Hc.
  destruct (proj2 (proj2 Hcons) (subscription_id S) Hc) as [Hw Hx].
  eexists. split; [now apply add_subscription_run|].
  rewrite remove_subscription_run. f_equal.
  destruct (sub_type S);
    cbn beta iota delta [simple_subscriptions complex_subscriptions window_managers
                         subscription_contexts].
  - unfold dict_mem. rewrite dict_get_set_same.
    rewrite dict_del_set_fresh by assumption. now destruct self.
  - unfold dict_mem. rewrite Hs, !dict_get_set_same.
    rewrite !dict_del_set_fresh by assumption. now destruct self.
Qed.

(* ================================================================== *)
(** ** Consistency is kept by the control operations *)

Lemma NoDup_snoc : forall (A : Type) (l : list A) (x : A),
  NoDup l -> ~ In x l -> NoDup (l ++ [x]).
Proof.
  intros A l x H. induction H as [|a l Ha H IH]; simpl; intros Hx.
  - constructor; [tauto | constructor].
  - constructor.
    + rewrite in_app_iff. simpl. intros [?|[?|[]]]; [contradiction | subst; tauto].
    + apply IH. tauto.
Qed.

Lemma NoDup_keys_set : forall (V : Type) (k : string) (v : V) (d : dict V),
  NoDup (dict_keys d) -> NoDup (dict_keys (dict_set k v d)).
Proof.
  intros V k v d H. destruct (dict_get k d) as [v0|] eqn:E.
  - now rewrite (dict_keys_set_present _ _ _ _ _ E).
  - rewrite (dict_keys_set_fresh _ _ _ _ E). apply NoDup_snoc; [assumption|].
    now apply dict_get_None_keys.
Qed.

Lemma NoDup_keys_del : forall (V : Type) (k : string) (d : dict V),
  NoDup (dict_keys d) -> NoDup (dict_keys (dict_del k d)).
Proof.
  induction d as [|[k1 v1] d IH]; simpl; intros Hnd; [constructor|].
  inversion Hnd as [|? ? Hnotin Hnd']; subst.
  destruct (String.eqb k k1); [assumption|]. simpl. constructor; [|now apply IH].
  intros Hin. apply Hnotin. clear - Hin.
  induction d as [|[k2 v2] d IH]; simpl in *; [tauto|].
  destruct (String.eqb k k2); simpl in *; tauto.
Qed.

Lemma dict_get_del : forall (V : Type) (k k0 : string) (d : dict V),
  NoDup (dict_keys d) ->
  dict_get k (dict_del k0 d) = if String.eqb k k0 then None else dict_get k d.
Proof.
  induction d as [|[k1 v1] d IH]; simpl; intros Hnd.
  - now destruct (String.eqb k k0).
  - inversion Hnd as [|? ? Hnotin Hnd']; subst.
    destruct (String.eqb_spec k0 k1) as [->|Hne].
    + destruct (String.eqb_spec k k1) as [->|Hne']; [|reflexivity].
      now apply dict_get_None_keys.
    + simpl. rewrite (IH Hnd').
      destruct (String.eqb_spec k k1) as [->|Hne']; [|reflexivity].
      destruct (String.eqb_spec k1 k0); [congruence | reflexivity].
Qed.

Lemma dict_get_del_other : forall (V : Type) (k k0 : string) (d : dict V),
  k <> k0 -> dict_get k (dict_del k0 d) = dict_get k d.
Proof.
  intros V k k0 d Hne. induction d as [|[k1 v1] d IH]; simpl; [reflexivity|].
  destruct (String.eqb_spec k0 k1) as [->|Hne1].
  - apply String.eqb_neq in Hne. now rewrite Hne.
  - simpl. now rewrite IH.
Qed.

Lemma consistent_init : consistent SubscriptionMatcher_init.
Proof. repeat split; constructor. Qed.

(** The loop of [_setup_window_managers], whatever it returns, only
    rewrites the entry of the subscription's id. *)
Lemma setup_loop_entry : forall (S : Subscription) (conds : list FilterCondition)
  (self self' : SubscriptionMatcher) (r : result unit) (inner : dict WindowManager),
  dict_get (subscription_id S) (window_managers self) = Some inner ->
  iter (setup_condition S) conds self = (r, self') ->
  simple_subscriptions self' = simple_subscriptions self
  /\ complex_subscriptions self' = complex_subscriptions self
  /\ subscription_contexts self' = subscription_contexts self
  /\ exists inner', window_managers self'
                    = dict_set (subscription_id S) inner' (window_managers self).
Proof.
  intros S conds. induction conds as [|c conds IH]; intros self self' r inner Hget.
  - intros [= _ <-]. repeat split. exists inner.
    now rewrite dict_set_same_value.
  - cbn [iter]. unfold bind.
    destruct (setup_condition S c self) as [[u|e] s1] eqn:E1.
    + assert (H1 : simple_subscriptions s1 = simple_subscriptions self
                   /\ complex_subscriptions s1 = complex_subscriptions self
                   /\ subscription_contexts s1 = subscription_contexts self
                   /\ exists inner1, window_managers s1
                        = dict_set (subscription_id S) inner1 (window_managers self)).
      { revert E1. unfold setup_condition.
        destruct (is_windowed c).
        - unfold bind, lift. destruct (WindowManager_init _ _) as [m|e]; [|discriminate].
          unfold ret, store_window_manager, bind, get, lookup. rewrite Hget.
          unfold ret, set_window_managers. intros [= _ <-]. simpl. repeat split. eauto.
        - intros [= _ <-]. repeat split. exists inner.
          now rewrite dict_set_same_value. }
      destruct H1 as [Hs [Hc [Hx [inner1 Hw]]]].
      intros E2. destruct (IH s1 self' r inner1) as [Hs' [Hc' [Hx' [inner' Hw']]]].
      * rewrite Hw. apply dict_get_set_same.
      * exact E2.
      * repeat split; try congruence. exists inner'.
        now rewrite Hw', Hw, dict_set_set.
    + intros [= _ <-]. revert E1. unfold setup_condition.
      destruct (is_windowed c); [|discriminate].
      unfold bind, lift. destruct (WindowManager_init _ _) as [m|e'].
      * unfold ret, store_window_manager, bind, get, lookup. rewrite Hget.
        discriminate.
      * unfold raise. intros [= _ <-]. repeat split. exists inner.
        now rewrite dict_set_same_value.
Qed.

(** [add_subscription] keeps consistency for every subscription, also
    when it raises. *)
Lemma consistent_add_subscription : forall (S : Subscription)
  (self self' : SubscriptionMatcher) (r : result unit),
  consistent self -> add_subscription S self = (r, self') -> consistent self'.
Proof.
  intros S self self' r [Hw [Hx Habs]]. unfold add_subscription.
  destruct (sub_type S).
  - intros [= _ <-]. exact (conj Hw (conj Hx Habs)).
  - unfold bind at 1. unfold get at 1. unfold bind at 1. unfold set_complex at 1.
    unfold _setup_window_managers.
    unfold bind at 1. unfold get at 1. unfold bind at 1. unfold set_window_managers at 1.
    unfold bind at 1. unfold get at 1. unfold bind at 1. unfold set_contexts at 1.
    cbn beta iota delta [window_managers subscription_contexts].
    intros E. apply (setup_loop_entry S _ _ _ _ []) in E;
      [|simpl; apply dict_get_set_same].
    simpl in E. destruct E as [_ [Hc' [Hx' [inner' Hw']]]].
    rewrite dict_set_set in Hw'.
    split; [rewrite Hw'; now apply NoDup_keys_set|].
    split; [rewrite Hx'; now apply NoDup_keys_set|].
    intros sid. rewrite Hc', Hw', Hx', !dict_get_set.
    destruct (String.eqb sid (subscription_id S)); [discriminate | apply Habs].
Qed.

Lemma consistent_remove_subscription : forall (sid : string)
  (self self' : SubscriptionMatcher) (r : result unit),
  consistent self -> remove_subscription sid self = (r, self') -> consistent self'.
Proof.
  intros sid self self' r [Hw [Hx Habs]]. rewrite remove_subscription_run.
  intros [= _ <-].
  destruct (dict_mem sid (simple_subscriptions self));
    [exact (conj Hw (conj Hx Habs))|].
  destruct (dict_mem sid (complex_subscriptions self));
    [|exact (conj Hw (conj Hx Habs))].
  split; [|split]; simpl.
  - destruct (dict_mem sid (window_managers self)); [now apply NoDup_keys_del | assumption].
  - destruct (dict_mem sid (subscription_contexts self));
      [now apply NoDup_keys_del | assumption].
  - intros k. destruct (String.eqb_spec k sid) as [->|Hne].
    + intros _. split.
      * destruct (dict_mem sid (window_managers self)) eqn:Em.
        -- rewrite dict_get_del by assumption. now rewrite String.eqb_refl.
        -- now apply dict_mem_false.
      * destruct (dict_mem sid (subscription_contexts self)) eqn:Em.
        -- rewrite dict_get_del by assumption. now rewrite String.eqb_refl.
        -- now apply dict_mem_false.
    + rewrite dict_get_del_other by assumption. intros Hnone.
      destruct (Habs k Hnone) as [Hwm Hctx]. split.
      * destruct (dict_mem sid (window_managers self)); [|assumption].
        now rewrite dict_get_del_other.
      * destruct (dict_mem sid (subscription_contexts self)); [|assumption].
        now rewrite dict_get_del_other.
Qed.

Lemma consistent_registered_from : forall (subscriptions : list Subscription)
  (self : SubscriptionMatcher),
  consistent self ->
  consistent (fold_left (fun self S => snd (add_subscription S self)) subscriptions self).
Proof.
  induction subscriptions as [|S l IH]; intros self H; [assumption|].
  simpl. apply IH.
  destruct (add_subscription S self) as [r self'] eqn:E.
  now apply (consistent_add_subscription S self self' r).
Qed.

Lemma consistent_registered : forall subscriptions : list Subscription,
  consistent (registered subscriptions).
Proof. intros. apply consistent_registered_from, consistent_init. Qed.

(* ================================================================== *)
(** ** The structure of one [match_event] call *)

Lemma for_each_Ok_blocks : forall (A B : Type) (f : A -> M (list B)) (l : list A)
  (self self' : SubscriptionMatcher) (out : list B),
  for_each f l self = (Ok out, self') ->
  exists blocks,
    out = List.concat blocks
    /\ Forall2 (fun a xs => exists s1 s2, f a s1 = (Ok xs, s2)) l blocks.
Proof.
  intros A B f l. induction l as [|a l IH]; intros self self' out H.
  - simpl in H. injection H as <- <-. exists []. split; [reflexivity | constructor].
  - cbn [for_each] in H. unfold bind in H.
    destruct (f a self) as [[xs|e] s1] eqn:E1; [|discriminate].
    destruct (for_each f l s1) as [[ys|e] s2] eqn:E2; [|discriminate].
    unfold ret in H. injection H as <- <-.
    destruct (IH _ _ _ E2) as [blocks [-> HF]].
    exists (xs :: blocks). split; [reflexivity|].
    constructor; [eauto | assumption].
Qed.

Lemma match_event_run : forall (now : Z) (event : EcommerceEvent)
  (self : SubscriptionMatcher),
  match_event now event self
  = (let (r, self') :=
       for_each (_match_complex_subscription now event)
                (dict_values (complex_subscriptions self)) self in
     (match r with
      | Ok complex_notifications =>
          Ok (match_simple_subscriptions now event
                (dict_values (simple_subscriptions self))
              ++ complex_notifications)
      | Raise e => Raise e
      end, self')).
Proof.
  intros. unfold match_event, bind, get, ret.
  destruct (for_each _ _ self) as [[cs|e] s]; reflexivity.
Qed.

Lemma match_simple_subscriptions_filter : forall (now : Z) (event : EcommerceEvent)
  (subscriptions : list Subscription),
  match_simple_subscriptions now event subscriptions
  = map (_create_simple_notification now event)
        (filter (_match_simple_subscription event) subscriptions).
Proof.
  intros now event subscriptions. unfold match_simple_subscriptions.
  induction subscriptions as [|S l IH]; simpl; [reflexivity|].
  destruct (_match_simple_subscription event S); simpl; now rewrite IH.
Qed.

(** One windowed condition yields at most one notification, built from
    that condition and an aggregate that satisfies it. *)
Lemma process_windowed_condition_Ok : forall (now : Z) (event : EcommerceEvent)
  (S : Subscription) (c : FilterCondition) (s1 s2 : SubscriptionMatcher)
  (xs : list Notification),
  process_windowed_condition now event S c s1 = (Ok xs, s2) ->
  xs = []
  \/ (is_windowed c = true
      /\ exists a, _evaluate_windowed_condition a c = true
                   /\ xs = [_create_complex_notification now S c a]).
Proof.
  intros now event S c s1 s2 xs. unfold process_windowed_condition.
  destruct (is_windowed c); [|intros [= <- _]; now left].
  destruct (_extract_numeric_value event (field_name c)); [|intros [= <- _]; now left].
  unfold bind.
  destruct (window_add_value _ _ _ s1) as [[[[|] [a|]]|e] s]; unfold ret;
    try (intros [= <- _]; now left); try discriminate.
  destruct (_evaluate_windowed_condition a c) eqn:E; intros [= <- _]; [|now left].
  right. split; [reflexivity|]. exists a. now split.
Qed.

Lemma windowed_conditions_Ok : forall (now : Z) (event : EcommerceEvent)
  (S : Subscription) (conds : list FilterCondition) (s1 s2 : SubscriptionMatcher)
  (xs : list Notification),
  for_each (process_windowed_condition now event S) conds s1 = (Ok xs, s2) ->
  exists picks : list (FilterCondition * float),
    xs = map (fun p => _create_complex_notification now S (fst p) (snd p)) picks
    /\ subsequence (map fst picks) (filter is_windowed conds)
    /\ Forall (fun p => _evaluate_windowed_condition (snd p) (fst p) = true) picks.
Proof.
  intros now event S conds. induction conds as [|c conds IH]; intros s1 s2 xs H.
  - simpl in H. injection H as <- <-. exists []. repeat split; constructor.
  - cbn [for_each] in H. unfold bind in H.
    destruct (process_windowed_condition now event S c s1) as [[ys|e] s] eqn:E1;
      [|discriminate].
    destruct (for_each _ conds s) as [[zs|e] s'] eqn:E2; [|discriminate].
    unfold ret in H. injection H as <- <-.
    destruct (IH _ _ _ E2) as [picks [-> [Hsub Hall]]].
    destruct (process_windowed_condition_Ok _ _ _ _ _ _ _ E1)
      as [-> | [Ew [a [Ha ->]]]].
    + exists picks. repeat split; [|assumption]. simpl.
      destruct (is_windowed c); [now constructor | assumption].
    + exists ((c, a) :: picks). repeat split.
      * simpl. rewrite Ew. now constructor.
      * now constructor.
Qed.

(** What one complex subscription contributes: nothing when its sampling
    gate is closed; otherwise notifications of its windowed conditions, in
    declaration order. *)
Lemma _match_complex_subscription_Ok : forall (now : Z) (event : EcommerceEvent)
  (S : Subscription) (s1 s2 : SubscriptionMatcher) (xs : list Notification),
  _match_complex_subscription now event S s1 = (Ok xs, s2) ->
  exists picks : list (FilterCondition * float),
    xs = map (fun p => _create_complex_notification now S (fst p) (snd p)) picks
    /\ subsequence (map fst picks) (filter is_windowed (conditions S))
    /\ Forall (fun p => _evaluate_windowed_condition (snd p) (fst p) = true) picks
    /\ (picks <> [] -> non_windowed_match event S = true).
Proof.
  intros now event S s1 s2 xs. unfold _match_complex_subscription.
  destruct (non_windowed_match event S) eqn:G; simpl.
  - intros H. destruct (windowed_conditions_Ok _ _ _ _ _ _ _ H) as [picks [? [? ?]]].
    exists picks. now repeat split.
  - intros [= <- _]. exists []. repeat split; try constructor.
    + induction (filter is_windowed (conditions S)); now constructor.
    + congruence.
Qed.

Lemma subsequence_In : forall (A : Type) (l1 l2 : list A) (x : A),
  subsequence l1 l2 -> In x l1 -> In x l2.
Proof.
  intros A l1 l2 x H. induction H; simpl; intros Hin; auto.
  destruct Hin; auto.
Qed.

Lemma Forall2_In_r : forall (A B : Type) (R : A -> B -> Prop) (l1 : list A)
  (l2 : list B) (y : B),
  Forall2 R l1 l2 -> In y l2 -> exists x, In x l1 /\ R x y.
Proof.
  intros A B R l1 l2 y H. induction H as [|a b l1 l2 Hab H IH]; simpl; [tauto|].
  intros [<- | Hin].
  - exists a. auto.
  - destruct (IH Hin) as [x [? ?]]. exists x. auto.
Qed.

Lemma non_windowed_match_conditions : forall (event : EcommerceEvent) (S : Subscription),
  non_windowed_match event S = true ->
  forall c, In c (conditions S) -> is_windowed c = false ->
  _evaluate_condition event c = true.
Proof.
  intros event S H c Hin Hw. unfold non_windowed_match in H.
  rewrite forallb_forall in H. specialize (H c Hin). now rewrite Hw in H.
Qed.

(** C1. Every notification [match_event] returns was produced for a
    registered subscription [S] (it carries the id and the subscriber of
    [S]): a simple one, all of whose conditions hold on the event, or a
    complex one, for one of its windowed conditions; in both cases every
    non-windowed condition of [S] evaluates to true on the event. *)
Theorem match_event_sound : forall (now : Z) (event : EcommerceEvent)
  (self self' : SubscriptionMatcher) (out : list Notification) (n : Notification),
  match_event now event self = (Ok out, self') ->
  In n out ->
  exists S,
    ((In S (dict_values (simple_subscriptions self))
      /\ n = _create_simple_notification now event S)
     \/ (In S (dict_values (complex_subscriptions self))
         /\ exists c a, In c (conditions S) /\ is_windowed c = true
                        /\ n = _create_complex_notification now S c a))
    /\ (forall c, In c (conditions S) -> is_windowed c = false ->
        _evaluate_condition event c = true).
Proof.
  intros now event self self' out n H Hin.
  rewrite match_event_run in H.
  destruct (for_each _ _ self) as [[cs|e] s] eqn:E; [|discriminate].
  injection H as <- <-. apply in_app_or in Hin. destruct Hin as [Hin | Hin].
  - rewrite match_simple_subscriptions_filter in Hin.
    apply in_map_iff in Hin. destruct Hin as [S [<- HS]].
    apply filter_In in HS. destruct HS as [HS Hm].
    exists S. split; [left; now split|].
    intros c Hc _. unfold _match_simple_subscription in Hm.
    rewrite forallb_forall in Hm. now apply Hm.
  - destruct (for_each_Ok_blocks _ _ _ _ _ _ _ E) as [blocks [-> HF]].
    apply in_concat in Hin. destruct Hin as [block [Hb Hn]].
    destruct (Forall2_In_r _ _ _ _ _ _ HF Hb) as [S [HS [s1 [s2 HSrun]]]].
    destruct (_match_complex_subscription_Ok _ _ _ _ _ _ HSrun)
      as [picks [-> [Hsub [_ Hgate]]]].
    apply in_map_iff in Hn. destruct Hn as [[c a] [<- Hp]].
    exists S. split.
    + right. split; [assumption|]. exists c, a. simpl.
      assert (Hc : In c (filter is_windowed (conditions S))).
      { apply (subsequence_In _ _ _ _ Hsub).
        change c with (fst (c, a)). now apply in_map. }
      apply filter_In in Hc. tauto.
    + apply non_windowed_match_conditions. apply Hgate.
      intros ->. contradiction.
Qed.


(* ================================================================== *)
(** ** Window updates inside the matcher *)

Lemma window_add_value_run : forall (sid name : string) (v : float)
  (self : SubscriptionMatcher),
  window_add_value sid name v self
  = match dict_get sid (window_managers self) with
    | None => (Raise (KeyError sid), self)
    | Some inner =>
        match dict_get name inner with
        | None => (Raise (KeyError name), self)
        | Some manager =>
            (fst (add_value v manager),
             with_window_managers self
               (dict_set sid (dict_set name (snd (add_value v manager)) inner)
                  (window_managers self)))
        end
    end.
Proof.
  intros. unfold window_add_value, bind, get, lookup.
  destruct (dict_get sid (window_managers self)) as [inner|]; [|reflexivity].
  unfold ret. destruct (dict_get name inner) as [manager|]; [|reflexivity].
  destruct (add_value v manager) as [[r|e] manager']; reflexivity.
Qed.

Lemma manager_at_update : forall (self : SubscriptionMatcher) (sid name : string)
  (w : WindowManager) (inner : dict WindowManager) (sid' name' : string),
  dict_get sid (window_managers self) = Some inner ->
  manager_at
    (with_window_managers self
       (dict_set sid (dict_set name w inner) (window_managers self))) sid' name'
  = if String.eqb sid' sid && String.eqb name' name then Some w
    else manager_at self sid' name'.
Proof.
  intros self sid name w inner sid' name' Hget.
  unfold manager_at, with_window_managers. simpl.
  rewrite dict_get_set. destruct (String.eqb_spec sid' sid) as [->|Hne]; simpl.
  - rewrite dict_get_set, Hget. reflexivity.
  - reflexivity.
Qed.

Lemma add_value_keeps_ready : forall (v : float) (w : WindowManager),
  manager_ready w ->
  exists r w', add_value v w = (Ok r, w')
               /\ manager_ready w'
               /\ wm_window_size w' = wm_window_size w.
Proof.
  intros v w Hready.
  destruct (add_value_ready v w Hready) as [[Hlt ->] | [Hfull [a [_ ->]]]].
  - eexists. eexists. split; [reflexivity|]. split; [|reflexivity].
    destruct Hready as [Hcap Hlen]. split; simpl; [assumption|].
    rewrite length_app. simpl. lia.
  - eexists. eexists. split; [reflexivity|]. split; [|reflexivity].
    destruct Hready as [Hcap Hlen]. split; simpl; [assumption | lia].
Qed.

Lemma same_registry_refl : forall s : SubscriptionMatcher, same_registry s s.
Proof. intros. now repeat split. Qed.

Lemma same_registry_trans : forall s1 s2 s3 : SubscriptionMatcher,
  same_registry s1 s2 -> same_registry s2 s3 -> same_registry s1 s3.
Proof. intros s1 s2 s3 [? [? [? ?]]] [? [? [? ?]]]. repeat split; congruence. Qed.

Lemma window_add_value_same_registry : forall (sid name : string) (v : float)
  (self self' : SubscriptionMatcher) (r : result (bool * option float)),
  window_add_value sid name v self = (r, self') -> same_registry self self'.
Proof.
  intros sid name v self self' r. rewrite window_add_value_run.
  destruct (dict_get sid (window_managers self)) as [inner|] eqn:Hget;
    [|intros [= _ <-]; apply same_registry_refl].
  destruct (dict_get name inner) as [manager|];
    [|intros [= _ <-]; apply same_registry_refl].
  intros [= _ <-]. repeat split. unfold with_window_managers. simpl.
  now rewrite (dict_keys_set_present _ _ _ _ _ Hget).
Qed.

Lemma valid_window_update : forall (self : SubscriptionMatcher) (sid name : string)
  (inner : dict WindowManager) (w0 w : WindowManager),
  valid self ->
  dict_get sid (window_managers self) = Some inner ->
  dict_get name inner = Some w0 ->
  manager_ready w ->
  valid (with_window_managers self
           (dict_set sid (dict_set name w inner) (window_managers self))).
Proof.
  intros self sid name inner w0 w Hvalid Hget Hname Hready.
  destruct Hvalid as [H1 [H2 [H3 [H4 [H5 [H6 H7]]]]]].
  split; [exact H1|]. split; [exact H2|]. split; [|split; [|split; [|split]]].
  - intros S c HS Hc Hw. rewrite (manager_at_update _ _ _ _ _ _ _ Hget).
    destruct (_ && _); [eauto|]. now apply H3.
  - intros sid' name' x. rewrite (manager_at_update _ _ _ _ _ _ _ Hget).
    destruct (_ && _); [intros [= <-]; assumption|]. apply H4.
  - unfold with_window_managers. simpl.
    now rewrite (dict_keys_set_present _ _ _ _ _ Hget).
  - exact H6.
  - intros sid' Hnone. unfold with_window_managers. simpl.
    destruct (H7 sid' Hnone) as [Hw Hx]. split; [|exact Hx].
    rewrite dict_get_set. destruct (String.eqb_spec sid' sid); [congruence | exact Hw].
Qed.

Lemma window_add_value_valid : forall (sid name : string) (v : float)
  (self : SubscriptionMatcher) (w : WindowManager),
  valid self ->
  manager_at self sid name = Some w ->
  exists r self',
    window_add_value sid name v self = (Ok r, self') /\ valid self'.
Proof.
  intros sid name v self w Hvalid Hat.
  rewrite window_add_value_run. unfold manager_at in Hat.
  destruct (dict_get sid (window_managers self)) as [inner|] eqn:Hget; [|discriminate].
  rewrite Hat.
  assert (Hready : manager_ready w).
  { destruct Hvalid as [_ [_ [_ [H4 _]]]]. apply (H4 sid name).
    unfold manager_at. now rewrite Hget. }
  destruct (add_value_keeps_ready v w Hready) as [r [w' [-> [Hready' _]]]].
  simpl. eexists. eexists. split; [reflexivity|].
  now apply (valid_window_update self sid name inner w w').
Qed.

(* ================================================================== *)
(** ** Valid matchers: [match_event] returns and keeps validity *)

Lemma for_each_total : forall (A B : Type) (P : SubscriptionMatcher -> Prop)
  (f : A -> M (list B)) (l : list A),
  (forall a s, In a l -> P s -> exists xs s', f a s = (Ok xs, s') /\ P s') ->
  forall s, P s -> exists out s', for_each f l s = (Ok out, s') /\ P s'.
Proof.
  intros A B P f l. induction l as [|a l IH]; intros Hstep s Hs.
  - exists [], s. now split.
  - destruct (Hstep a s (or_introl eq_refl) Hs) as [xs [s1 [E1 H1]]].
    destruct (IH (fun a' s' Hin => Hstep a' s' (or_intror Hin)) s1 H1)
      as [ys [s2 [E2 H2]]].
    exists (xs ++ ys), s2. split; [|assumption].
    cbn [for_each]. unfold bind. rewrite E1, E2. reflexivity.
Qed.

Lemma process_windowed_condition_same_registry : forall (now : Z)
  (event : EcommerceEvent) (S : Subscription) (c : FilterCondition)
  (self self' : SubscriptionMatcher) (r : result (list Notification)),
  process_windowed_condition now event S c self = (r, self') ->
  same_registry self self'.
Proof.
  intros now event S c self self' r. unfold process_windowed_condition.
  destruct (is_windowed c); [|intros [= _ <-]; apply same_registry_refl].
  destruct (_extract_numeric_value event (field_name c));
    [|intros [= _ <-]; apply same_registry_refl].
  unfold bind.
  destruct (window_add_value _ _ _ self) as [[[[|] [a|]]|e] s] eqn:E;
    apply window_add_value_same_registry in E; unfold ret;
    try (intros [= _ <-]; exact E).
  destruct (_evaluate_windowed_condition a c); intros [= _ <-]; exact E.
Qed.

Lemma for_each_same_registry : forall (A B : Type) (f : A -> M (list B)) (l : list A),
  (forall a s s' r, f a s = (r, s') -> same_registry s s') ->
  forall s s' r, for_each f l s = (r, s') -> same_registry s s'.
Proof.
  intros A B f l Hf. induction l as [|a l IH]; intros s s' r.
  - intros [= _ <-]. apply same_registry_refl.
  - cbn [for_each]. unfold bind.
    destruct (f a s) as [[xs|e] s1] eqn:E1.
    + destruct (for_each f l s1) as [[ys|e] s2] eqn:E2.
      * intros [= _ <-]. eapply same_registry_trans; eauto.
      * intros [= _ <-]. eapply same_registry_trans; eauto.
    + intros [= _ <-]. eauto.
Qed.

Lemma _match_complex_subscription_same_registry : forall (now : Z)
  (event : EcommerceEvent) (S : Subscription)
  (self self' : SubscriptionMatcher) (r : result (list Notification)),
  _match_complex_subscription now event S self = (r, self') ->
  same_registry self self'.
Proof.
  intros now event S self self' r. unfold _match_complex_subscription.
  destruct (negb _); [intros [= _ <-]; apply same_registry_refl|].
  apply for_each_same_registry. intros a s s' r'.
  apply process_windowed_condition_same_registry.
Qed.

Lemma match_event_same_registry : forall (now : Z) (event : EcommerceEvent)
  (self self' : SubscriptionMatcher) (r : result (list Notification)),
  match_event now event self = (r, self') -> same_registry self self'.
Proof.
  intros now event self self' r. rewrite match_event_run.
  destruct (for_each _ _ self) as [r' s] eqn:E. intros [= _ <-].
  revert E. apply for_each_same_registry. intros a s0 s' r0.
  apply _match_complex_subscription_same_registry.
Qed.

Lemma process_windowed_condition_valid : forall (now : Z) (event : EcommerceEvent)
  (S : Subscription) (c : FilterCondition) (self : SubscriptionMatcher),
  valid self ->
  In S (dict_values (complex_subscriptions self)) ->
  In c (conditions S) ->
  exists xs self',
    process_windowed_condition now event S c self = (Ok xs, self') /\ valid self'.
Proof.
  intros now event S c self Hvalid HS Hc. unfold process_windowed_condition.
  destruct (is_windowed c) eqn:Ew; [|exists [], self; now split].
  destruct (_extract_numeric_value event (field_name c)) as [v|];
    [|exists [], self; now split].
  assert (Hm : exists w, manager_at self (subscription_id S) (field_name c) = Some w).
  { destruct Hvalid as [_ [_ [H3 _]]]. now apply H3. }
  destruct Hm as [w Hw].
  destruct (window_add_value_valid (subscription_id S) (field_name c) v self w Hvalid Hw)
    as [r [self' [E Hvalid']]].
  unfold bind. rewrite E. destruct r as [[|] [a|]]; unfold ret; eauto.
  destruct (_evaluate_windowed_condition a c); eauto.
Qed.

Lemma _match_complex_subscription_valid : forall (now : Z) (event : EcommerceEvent)
  (S : Subscription) (self : SubscriptionMatcher),
  valid self ->
  In S (dict_values (complex_subscriptions self)) ->
  exists xs self',
    _match_complex_subscription now event S self = (Ok xs, self') /\ valid self'.
Proof.
  intros now event S self Hvalid HS. unfold _match_complex_subscription.
  destruct (negb _); [exists [], self; now split|].
  destruct (for_each_total _ _
              (fun s => valid s /\ same_registry self s)
              (process_windowed_condition now event S) (conditions S))
    with (s := self) as [out [s' [E [Hv _]]]].
  - intros c s Hc [Hv Hr]. pose proof Hr as [_ [Hcx _]].
    destruct (process_windowed_condition_valid now event S c s Hv) as [xs [s' [E Hv']]];
      [now rewrite Hcx | assumption |].
    exists xs, s'. split; [assumption|]. split; [assumption|].
    eapply same_registry_trans; [exact Hr|].
    eapply process_windowed_condition_same_registry. exact E.
  - split; [assumption | apply same_registry_refl].
  - eauto.
Qed.

(** On a valid matcher [match_event] returns a list and leaves a valid
    matcher with the same subscriptions. *)
Lemma match_event_valid : forall (now : Z) (event : EcommerceEvent)
  (self : SubscriptionMatcher),
  valid self ->
  exists out self',
    match_event now event self = (Ok out, self')
    /\ valid self' /\ same_registry self self'.
Proof.
  intros now event self Hvalid.
  destruct (for_each_total _ _
              (fun s => valid s /\ same_registry self s)
              (_match_complex_subscription now event)
              (dict_values (complex_subscriptions self)))
    with (s := self) as [out [s' [E [Hv Hr]]]].
  - intros S s HS [Hv Hr]. pose proof Hr as [_ [Hcx _]].
    destruct (_match_complex_subscription_valid now event S s Hv) as [xs [s' [E Hv']]];
      [now rewrite Hcx |].
    exists xs, s'. split; [assumption|]. split; [assumption|].
    eapply same_registry_trans; [exact Hr|].
    eapply _match_complex_subscription_same_registry. exact E.
  - split; [assumption | apply same_registry_refl].
  - rewrite match_event_run, E. eauto.
Qed.

(* ================================================================== *)
(** ** Validity is kept by the control operations *)

Lemma In_dict_set : forall (V : Type) (k k0 : string) (v v0 : V) (d : dict V),
  NoDup (dict_keys d) ->
  In (k, v) (dict_set k0 v0 d) ->
  (k = k0 /\ v = v0) \/ (k <> k0 /\ In (k, v) d).
Proof.
  induction d as [|[k1 v1] d IH]; simpl; intros Hnd Hin.
  - destruct Hin as [[= <- <-]|[]]. now left.
  - inversion Hnd as [|? ? Hnotin Hnd']; subst.
    destruct (String.eqb_spec k0 k1) as [->|Hne]; simpl in Hin.
    + destruct Hin as [[= <- <-]|Hin]; [now left|].
      right. split; [|now right]. intros ->. apply Hnotin.
      change (In (fst (k1, v)) (map fst d)). now apply in_map.
    + destruct Hin as [[= <- <-]|Hin].
      * right. split; [congruence | now left].
      * destruct (IH Hnd' Hin) as [?|[? ?]]; [now left|]. right. split; auto.
Qed.

Lemma In_dict_values : forall (V : Type) (v : V) (d : dict V),
  In v (dict_values d) <-> exists k, In (k, v) d.
Proof.
  intros V v d. unfold dict_values. rewrite in_map_iff. split.
  - intros [[k v'] [<- H]]. now exists k.
  - intros [k H]. now exists (k, v).
Qed.

Lemma registry_ok_set : forall (S : Subscription) (d : dict Subscription),
  registry_ok d -> registry_ok (dict_set (subscription_id S) S d).
Proof.
  intros S d [Hnd Hid]. split; [now apply NoDup_keys_set|].
  intros k S' Hin.
  destruct (In_dict_set _ _ _ _ _ _ Hnd Hin) as [[-> ->] | [_ Hin']]; auto.
Qed.

Lemma In_dict_del : forall (V : Type) (k k0 : string) (v : V) (d : dict V),
  NoDup (dict_keys d) -> In (k, v) (dict_del k0 d) -> k <> k0 /\ In (k, v) d.
Proof.
  clear float_of_str.
  induction d as [|[k1 v1] d IH]; simpl; intros Hnd Hin; [tauto|].
  inversion Hnd as [|? ? Hnotin Hnd']; subst.
  destruct (String.eqb_spec k0 k1) as [->|Hne].
  - split; [|now right]. intros ->. apply Hnotin.
    change (In (fst (k1, v)) (map fst d)). now apply in_map.
  - destruct Hin as [[= <- <-]|Hin].
    + split; [congruence | now left].
    + destruct (IH Hnd' Hin). split; auto.
Qed.

Lemma registry_ok_del : forall (sid : string) (d : dict Subscription),
  registry_ok d -> registry_ok (dict_del sid d).
Proof.
  intros sid d [Hnd Hid]. split; [now apply NoDup_keys_del|].
  intros k S Hin. apply Hid. now apply (In_dict_del _ _ _ _ _ Hnd Hin).
Qed.

Lemma managers_for_fresh : forall (cfg : WindowConfig) (conds : list FilterCondition)
  (inner : dict WindowManager) (name : string) (w : WindowManager),
  dict_get name (managers_for cfg conds inner) = Some w ->
  w = fresh_manager cfg \/ dict_get name inner = Some w.
Proof.
  intros cfg conds. unfold managers_for.
  induction conds as [|c conds IH]; simpl; intros inner name w H; [now right|].
  destruct (IH _ _ _ H) as [?|H']; [now left|].
  destruct (is_windowed c); [|now right].
  rewrite dict_get_set in H'. destruct (String.eqb name (field_name c)); [|now right].
  left. congruence.
Qed.

Lemma managers_for_keeps : forall (cfg : WindowConfig) (conds : list FilterCondition)
  (inner : dict WindowManager) (name : string),
  dict_get name inner = Some (fresh_manager cfg) ->
  dict_get name (managers_for cfg conds inner) = Some (fresh_manager cfg).
Proof.
  intros cfg conds. unfold managers_for.
  induction conds as [|c conds IH]; simpl; intros inner name H; [assumption|].
  apply IH. destruct (is_windowed c); [|assumption].
  rewrite dict_get_set. now destruct (String.eqb name (field_name c)).
Qed.

Lemma managers_for_has : forall (cfg : WindowConfig) (conds : list FilterCondition)
  (inner : dict WindowManager) (c : FilterCondition),
  In c conds -> is_windowed c = true ->
  dict_get (field_name c) (managers_for cfg conds inner) = Some (fresh_manager cfg).
Proof.
  intros cfg conds. induction conds as [|c0 conds IH]; simpl; intros inner c Hin Hw;
    [tauto|].
  destruct Hin as [->|Hin].
  - change (managers_for cfg (c :: conds) inner)
      with (managers_for cfg conds
              (if is_windowed c then dict_set (field_name c) (fresh_manager cfg) inner
               else inner)).
    rewrite Hw. apply managers_for_keeps. apply dict_get_set_same.
  - change (managers_for cfg (c0 :: conds) inner)
      with (managers_for cfg conds
              (if is_windowed c0 then dict_set (field_name c0) (fresh_manager cfg) inner
               else inner)).
    now apply IH.
Qed.

Lemma valid_init : valid SubscriptionMatcher_init.
Proof.
  clear float_of_str.
  unfold valid, registry_ok, manager_at. simpl.
  repeat split; try constructor; try tauto; try discriminate.
Qed.

Lemma valid_add_subscription : forall (S : Subscription) (self : SubscriptionMatcher),
  valid self ->
  sub_type S = SIMPLE \/ 1 <= window_size (window_config S) ->
  exists self', add_subscription S self = (Ok tt, self') /\ valid self'.
Proof.
  intros S self Hvalid Hok.
  assert (Hreg : registrable S).
  { destruct Hok; [now left | right; left; lia]. }
  rewrite (add_subscription_run S self Hreg). eexists. split; [reflexivity|].
  destruct Hvalid as [H1 [H2 [H3 [H4 [H5 [H6 H7]]]]]].
  destruct (sub_type S) eqn:Et.
  - split; [now apply registry_ok_set|].
    exact (conj H2 (conj H3 (conj H4 (conj H5 (conj H6 H7))))).
  - assert (Hsize : 1 <= window_size (window_config S)) by (destruct Hok; congruence).
    split; [exact H1|]. split; [now apply registry_ok_set|].
    split; [|split; [|split; [|split]]]; simpl.
    + intros S' c HS' Hc Hw. apply In_dict_values in HS'. destruct HS' as [k Hk].
      destruct (In_dict_set _ _ _ _ _ _ (proj1 H2) Hk) as [[-> ->] | [Hne Hin]].
      * unfold manager_at. simpl. rewrite dict_get_set_same.
        exists (fresh_manager (window_config S)). now apply managers_for_has.
      * assert (Hid : subscription_id S' = k) by (now apply (proj2 H2)).
        unfold manager_at. simpl. rewrite Hid, dict_get_set_other by assumption.
        rewrite <- Hid. apply H3; [|assumption|assumption].
        apply In_dict_values. exists k. assumption.
    + intros sid name w. unfold manager_at. simpl. rewrite dict_get_set.
      destruct (String.eqb sid (subscription_id S)).
      * intros Hw. destruct (managers_for_fresh _ _ _ _ _ Hw) as [-> | Hw'].
        -- split; simpl; lia.
        -- discriminate.
      * apply (H4 sid name w).
    + now apply NoDup_keys_set.
    + now apply NoDup_keys_set.
    + intros sid. rewrite !dict_get_set.
      destruct (String.eqb sid (subscription_id S)); [discriminate|]. apply H7.
Qed.

Lemma valid_remove_subscription : forall (sid : string) (self : SubscriptionMatcher),
  valid self ->
  exists self', remove_subscription sid self = (Ok tt, self') /\ valid self'.
Proof.
  intros sid self Hvalid. rewrite remove_subscription_run.
  eexists. split; [reflexivity|].
  destruct (dict_mem sid (simple_subscriptions self)).
  { destruct Hvalid as [H1 H]. split; [now apply registry_ok_del | exact H]. }
  destruct (dict_mem sid (complex_subscriptions self)); [|assumption].
  destruct Hvalid as [H1 [H2 [H3 [H4 [H5 [H6 H7]]]]]].
  assert (Hw : forall k, k <> sid ->
            dict_get k (if dict_mem sid (window_managers self)
                        then dict_del sid (window_managers self)
                        else window_managers self)
            = dict_get k (window_managers self)).
  { intros k Hk. destruct (dict_mem sid (window_managers self)); [|reflexivity].
    rewrite dict_get_del by assumption.
    apply String.eqb_neq in Hk. now rewrite Hk. }
  split; [exact H1|]. split; [now apply registry_ok_del|].
  split; [|split; [|split; [|split]]]; simpl.
  - intros S c HS Hc Hwd. apply In_dict_values in HS. destruct HS as [k Hk].
    destruct (In_dict_del _ _ _ _ _ (proj1 H2) Hk) as [Hne Hin].
    assert (Hid : subscription_id S = k) by (now apply (proj2 H2)).
    unfold manager_at. simpl. rewrite Hid, (Hw k Hne), <- Hid.
    apply H3; [|assumption|assumption]. apply In_dict_values. now exists k.
  - intros k name w. unfold manager_at. simpl.
    destruct (String.eqb_spec k sid) as [->|Hne].
    + destruct (dict_mem sid (window_managers self)) eqn:Em.
      * rewrite dict_get_del by assumption. rewrite String.eqb_refl. discriminate.
      * apply dict_mem_false in Em. rewrite Em. discriminate.
    + rewrite (Hw k Hne). apply (H4 k name w).
  - destruct (dict_mem sid (window_managers self)); [now apply NoDup_keys_del | assumption].
  - destruct (dict_mem sid (subscription_contexts self));
      [now apply NoDup_keys_del | assumption].
  - intros k. rewrite dict_get_del by apply (proj1 H2).
    destruct (String.eqb_spec k sid) as [->|Hne].
    + intros _. split.
      * destruct (dict_mem sid (window_managers self)) eqn:Em.
        -- rewrite dict_get_del by assumption. now rewrite String.eqb_refl.
        -- now apply dict_mem_false.
      * destruct (dict_mem sid (subscription_contexts self)) eqn:Em.
        -- rewrite dict_get_del by assumption. now rewrite String.eqb_refl.
        -- now apply dict_mem_false.
    + intros Hnone. destruct (H7 k Hnone) as [Hwm Hctx]. split.
      * now rewrite (Hw k Hne).
      * destruct (dict_mem sid (subscription_contexts self)); [|assumption].
        rewrite dict_get_del by assumption.
        apply String.eqb_neq in Hne. now rewrite Hne.
Qed.

Lemma same_registry_consistent : forall s s' : SubscriptionMatcher,
  same_registry s s' -> consistent s -> consistent s'.
Proof.
  intros s s' [_ [Hc [Hx Hk]]] [Hw [Hctx Habs]]. split; [|split].
  - now rewrite Hk.
  - now rewrite Hx.
  - intros sid. rewrite Hc, Hx. intros Hnone.
    destruct (Habs sid Hnone) as [Hwm Hcx]. split; [|assumption].
    apply dict_get_None_keys. rewrite Hk. now apply dict_get_None_keys.
Qed.

(** [match_event] keeps consistency, also when it raises. *)
Lemma consistent_match_event : forall (now : Z) (event : EcommerceEvent)
  (self self' : SubscriptionMatcher) (r : result (list Notification)),
  consistent self -> match_event now event self = (r, self') -> consistent self'.
Proof.
  intros now event self self' r H E.
  apply (same_registry_consistent self self'); [|assumption].
  eapply match_event_same_registry. exact E.
Qed.

Lemma valid_consistent : forall self : SubscriptionMatcher, valid self -> consistent self.
Proof. intros self H. apply H. Qed.

(* ================================================================== *)
(** ** Simple subscriptions without conditions *)

Lemma registry_ok_tail : forall (k : string) (S : Subscription) (d : dict Subscription),
  registry_ok ((k, S) :: d) ->
  subscription_id S = k /\ dict_get k d = None /\ registry_ok d.
Proof.
  intros k S d [Hnd Hid]. inversion Hnd as [|? ? Hnotin Hnd']; subst.
  split; [apply Hid; now left|]. split.
  - now apply dict_get_None_keys.
  - split; [assumption|]. intros k' S' Hin. apply Hid. now right.
Qed.

Lemma simple_notifications_absent : forall (now : Z) (event : EcommerceEvent)
  (sid : string) (d : dict Subscription),
  registry_ok d -> dict_get sid d = None ->
  filter (is_simple_for sid) (match_simple_subscriptions now event (dict_values d)) = [].
Proof.
  intros now event sid d. induction d as [|[k S] d IH]; intros Hok Hget; [reflexivity|].
  destruct (registry_ok_tail _ _ _ Hok) as [Hid [_ Hok']].
  simpl in Hget. destruct (String.eqb_spec sid k) as [->|Hne]; [discriminate|].
  unfold match_simple_subscriptions in *. simpl.
  rewrite filter_app, (IH Hok' Hget), app_nil_r.
  destruct (_match_simple_subscription event S); [|reflexivity].
  simpl. unfold is_simple_for. simpl. rewrite Hid.
  apply not_eq_sym in Hne. apply String.eqb_neq in Hne. now rewrite Hne.
Qed.

Lemma simple_notifications_present : forall (now : Z) (event : EcommerceEvent)
  (S : Subscription) (d : dict Subscription),
  registry_ok d -> dict_get (subscription_id S) d = Some S ->
  _match_simple_subscription event S = true ->
  filter (is_simple_for (subscription_id S))
         (match_simple_subscriptions now event (dict_values d))
  = [_create_simple_notification now event S].
Proof.
  intros now event S d. induction d as [|[k S0] d IH]; intros Hok Hget Hm; [discriminate|].
  destruct (registry_ok_tail _ _ _ Hok) as [Hid [Hnone Hok']].
  simpl in Hget. unfold match_simple_subscriptions in *. simpl. rewrite filter_app.
  destruct (String.eqb_spec (subscription_id S) k) as [E|Hne].
  - injection Hget as ->. rewrite Hm. simpl.
    unfold is_simple_for at 1. simpl. rewrite String.eqb_refl. simpl.
    rewrite <- E in Hnone.
    pose proof (simple_notifications_absent now event _ d Hok' Hnone) as Habs.
    unfold match_simple_subscriptions in Habs. now rewrite Habs.
  - rewrite (IH Hok' Hget Hm).
    destruct (_match_simple_subscription event S0); [|reflexivity].
    simpl. unfold is_simple_for. simpl. rewrite Hid.
    apply not_eq_sym in Hne. apply String.eqb_neq in Hne. now rewrite Hne.
Qed.

Lemma complex_notifications_not_simple : forall (now : Z) (event : EcommerceEvent)
  (sid : string) (l : list Subscription) (s s' : SubscriptionMatcher)
  (cs : list Notification),
  for_each (_match_complex_subscription now event) l s = (Ok cs, s') ->
  filter (is_simple_for sid) cs = [].
Proof.
  intros now event sid l s s' cs H.
  destruct (for_each_Ok_blocks _ _ _ _ _ _ _ H) as [blocks [-> HF]].
  clear H. induction HF as [|S block l blocks [s1 [s2 Hrun]] HF IH]; [reflexivity|].
  simpl. rewrite filter_app, IH, app_nil_r.
  destruct (_match_complex_subscription_Ok _ _ _ _ _ _ Hrun) as [picks [-> _]].
  clear. induction picks as [|p picks IH]; [reflexivity|].
  simpl. unfold is_simple_for at 1. simpl. now rewrite andb_false_r.
Qed.

(** The amended C10. A simple subscription with an empty conditions list
    is registered by [add_subscription] without error, in every state; and
    while it is registered, every list [match_event] returns, for every
    event, holds exactly one simple notification for it, the one built
    from that event. [match_event] does return a list on a valid matcher
    (every registered complex subscription has a window size of at least
    one). When the call raises instead, it returns no list, and
    [_handle_event] publishes nothing for that event: the subscription is
    not notified of it. *)
Theorem empty_simple_subscription_matches_everything : forall (S : Subscription),
  sub_type S = SIMPLE -> conditions S = [] ->
  (forall self : SubscriptionMatcher,
     exists self1,
       add_subscription S self = (Ok tt, self1)
       /\ dict_get (subscription_id S) (simple_subscriptions self1) = Some S)
  /\ (forall (now : Z) (event : EcommerceEvent) (self : SubscriptionMatcher),
        registry_ok (simple_subscriptions self) ->
        dict_get (subscription_id S) (simple_subscriptions self) = Some S ->
        (forall out self',
           match_event now event self = (Ok out, self') ->
           filter (is_simple_for (subscription_id S)) out
           = [_create_simple_notification now event S])
        /\ (valid self ->
            exists out self', match_event now event self = (Ok out, self')))
  /\ (forall (now : Z) (event : EcommerceEvent) (broker : EcommerceBroker)
             (e : exn) (m : SubscriptionMatcher),
        match_event now event (matcher broker) = (Raise e, m) ->
        published (_handle_event now event broker) = published broker
        /\ notifications_sent (_handle_event now event broker)
           = notifications_sent broker).
Proof.
  intros S Ht Hc. split; [|split].
  - intros self. eexists. split.
    + apply add_subscription_run. now left.
    + rewrite Ht. simpl. apply dict_get_set_same.
  - intros now event self Hok Hget. split.
    + intros out self' E. rewrite match_event_run in E.
      destruct (for_each _ _ self) as [[cs|e] s] eqn:Ec; [|discriminate].
      injection E as <- <-. rewrite filter_app.
      rewrite (complex_notifications_not_simple _ _ _ _ _ _ _ Ec), app_nil_r.
      apply simple_notifications_present; [assumption | assumption |].
      unfold _match_simple_subscription. now rewrite Hc.
    + intros Hvalid.
      destruct (match_event_valid now event self Hvalid) as [out [self' [E _]]].
      eauto.
  - intros now event broker e m E. unfold _handle_event. rewrite E.
    split; reflexivity.
Qed.

(* ================================================================== *)
(** ** Counting the samples a window receives *)

Lemma count_for_app : forall (sid name : string) (xs ys : list Notification),
  count_for sid name (xs ++ ys) = (count_for sid name xs + count_for sid name ys)%nat.
Proof. intros. unfold count_for. now rewrite filter_app, length_app. Qed.

Lemma feeds_ret_nil : forall (sid name : string) (N : Z),
  feeds sid name N (ret []) O.
Proof.
  intros sid name N self r self' Ht [= <- <-]. split; [assumption|]. simpl. lia.
Qed.

Lemma feeds_more : forall (sid name : string) (N : Z) (m : M (list Notification))
  (a b : nat),
  (a <= b)%nat -> feeds sid name N m a -> feeds sid name N m b.
Proof.
  intros sid name N m a b Hab H self r self' Ht E.
  destruct (H self r self' Ht E) as [Ht' Hle]. split; [assumption | lia].
Qed.

Lemma feeds_for_each : forall (A : Type) (sid name : string) (N : Z)
  (f : A -> M (list Notification)) (g : A -> nat) (l : list A),
  1 <= N ->
  (forall a, In a l -> feeds sid name N (f a) (g a)) ->
  feeds sid name N (for_each f l) (total g l).
Proof.
  intros A sid name N f g l HN. induction l as [|a l IH]; intros Hf.
  - apply feeds_ret_nil.
  - intros self r self' Ht. cbn [for_each]. unfold bind.
    destruct (f a self) as [[xs|e] s1] eqn:E1.
    + destruct (Hf a (or_introl eq_refl) self _ _ Ht E1) as [Ht1 H1].
      destruct (for_each f l s1) as [[ys|e] s2] eqn:E2.
      * destruct (IH (fun a' Hin => Hf a' (or_intror Hin)) s1 _ _ Ht1 E2) as [Ht2 H2].
        unfold ret. intros [= <- <-]. split; [assumption|].
        simpl in *. rewrite count_for_app. lia.
      * destruct (IH (fun a' Hin => Hf a' (or_intror Hin)) s1 _ _ Ht1 E2) as [Ht2 H2].
        intros [= <- <-]. split; [assumption|]. simpl in *.
        assert (0 <= N * Z.of_nat (count_for sid name xs)) by nia. lia.
    + destruct (Hf a (or_introl eq_refl) self _ _ Ht E1) as [Ht1 H1].
      intros [= <- <-]. split; [assumption|]. simpl in *. lia.
Qed.

(** One sample fed to the tracked manager. *)
Lemma window_add_value_tracked : forall (sid name : string) (N : Z) (v : float)
  (self self' : SubscriptionMatcher) (r : result (bool * option float)),
  1 <= N ->
  tracked sid name N self ->
  window_add_value sid name v self = (r, self') ->
  tracked sid name N self'
  /\ exists fired agg,
       r = Ok (fired, agg)
       /\ N * (if fired then 1 else 0) + Z.of_nat (buffered sid name self')
          = Z.of_nat (buffered sid name self) + 1.
Proof.
  intros sid name N v self self' r HN [w [Hat [Hsize Hlen]]].
  rewrite window_add_value_run. unfold buffered. rewrite Hat.
  unfold manager_at in Hat.
  destruct (dict_get sid (window_managers self)) as [inner|] eqn:Hget; [|discriminate].
  rewrite Hat. intros [= <- <-].
  rewrite (manager_at_update _ _ _ _ _ _ _ Hget), !String.eqb_refl. simpl.
  assert (Hready : manager_ready w) by (split; lia).
  destruct (add_value_ready v w Hready) as [[Hlt ->] | [Hfull [a [_ ->]]]]; simpl.
  - split.
    + eexists. rewrite (manager_at_update _ _ _ _ _ _ _ Hget), !String.eqb_refl.
      simpl. split; [reflexivity|]. simpl. rewrite length_app. simpl. split; lia.
    + exists false, None. split; [reflexivity|]. rewrite length_app. simpl. lia.
  - split.
    + eexists. rewrite (manager_at_update _ _ _ _ _ _ _ Hget), !String.eqb_refl.
      simpl. split; [reflexivity|]. simpl. split; lia.
    + exists true, (Some a). split; [reflexivity|]. simpl. lia.
Qed.

(** A sample fed to another manager leaves the tracked one alone. *)
Lemma window_add_value_untracked : forall (sid name sid' name' : string) (N : Z)
  (v : float) (self self' : SubscriptionMatcher) (r : result (bool * option float)),
  String.eqb sid sid' && String.eqb name name' = false ->
  tracked sid name N self ->
  window_add_value sid' name' v self = (r, self') ->
  tracked sid name N self' /\ buffered sid name self' = buffered sid name self.
Proof.
  intros sid name sid' name' N v self self' r Hne Ht.
  rewrite window_add_value_run.
  destruct (dict_get sid' (window_managers self)) as [inner|] eqn:Hget;
    [|intros [= _ <-]; now split].
  destruct (dict_get name' inner) as [manager|]; [|intros [= _ <-]; now split].
  intros [= _ <-]. unfold tracked, buffered.
  rewrite (manager_at_update _ _ _ _ _ _ _ Hget), Hne. now split.
Qed.

Lemma count_for_created : forall (sid name : string) (now : Z) (S : Subscription)
  (c : FilterCondition) (a : float),
  count_for sid name [_create_complex_notification now S c a]
  = if String.eqb (subscription_id S) sid && String.eqb (field_name c) name
    then 1%nat else O.
Proof.
  intros. unfold count_for. simpl. unfold is_complex_for. simpl.
  now destruct (_ && _).
Qed.

Lemma process_windowed_condition_feeds : forall (now : Z) (event : EcommerceEvent)
  (S : Subscription) (c : FilterCondition) (name : string) (N : Z),
  1 <= N ->
  feeds (subscription_id S) name N (process_windowed_condition now event S c)
        (sample_of name event c).
Proof.
  intros now event S c name N HN self r self' Ht.
  unfold process_windowed_condition, sample_of.
  destruct (is_windowed c); [|intros [= <- <-]; split; [assumption | simpl; lia]].
  destruct (_extract_numeric_value event (field_name c)) as [v|];
    [|intros [= <- <-]; split; [assumption | simpl; rewrite andb_false_r; simpl; lia]].
  unfold bind. simpl.
  destruct (window_add_value _ _ _ self) as [r0 s] eqn:E.
  destruct (String.eqb_spec (field_name c) name) as [Hname | Hname]; simpl.
  - rewrite Hname in E.
    destruct (window_add_value_tracked _ _ _ _ _ _ _ HN Ht E)
      as [Ht' [fired [agg [-> Heq]]]].
    destruct fired, agg as [a|]; unfold ret;
      try (intros [= <- <-]; split; [assumption | simpl; lia]).
    destruct (_evaluate_windowed_condition a c); intros [= <- <-];
      (split; [assumption|]); simpl emitted.
    + rewrite count_for_created, String.eqb_refl, Hname, String.eqb_refl. simpl. lia.
    + simpl. lia.
  - assert (Hne : String.eqb (subscription_id S) (subscription_id S)
                  && String.eqb name (field_name c) = false).
    { rewrite String.eqb_refl. simpl. apply String.eqb_neq. congruence. }
    destruct (window_add_value_untracked _ _ _ _ _ _ _ _ _ Hne Ht E) as [Ht' Hb].
    rewrite <- Hb.
    assert (Hc : forall a, count_for (subscription_id S) name
                             [_create_complex_notification now S c a] = O).
    { intros a. rewrite count_for_created. apply String.eqb_neq in Hname.
      rewrite Hname. now rewrite andb_false_r. }
    destruct r0 as [[[|] [a|]]|e]; unfold ret;
      try (intros [= <- <-]; split; [assumption | simpl; lia]).
    destruct (_evaluate_windowed_condition a c); intros [= <- <-];
      (split; [assumption|]); simpl emitted; [rewrite Hc|]; simpl; lia.
Qed.

Lemma process_windowed_condition_feeds_other : forall (now : Z) (event : EcommerceEvent)
  (S : Subscription) (c : FilterCondition) (sid name : string) (N : Z),
  subscription_id S <> sid ->
  feeds sid name N (process_windowed_condition now event S c) O.
Proof.
  intros now event S c sid name N Hsid self r self' Ht.
  unfold process_windowed_condition.
  destruct (is_windowed c); [|intros [= <- <-]; split; [assumption | simpl; lia]].
  destruct (_extract_numeric_value event (field_name c)) as [v|];
    [|intros [= <- <-]; split; [assumption | simpl; lia]].
  unfold bind.
  destruct (window_add_value _ _ _ self) as [r0 s] eqn:E.
  assert (Hne : String.eqb sid (subscription_id S)
                && String.eqb name (field_name c) = false).
  { apply not_eq_sym in Hsid. apply String.eqb_neq in Hsid. now rewrite Hsid. }
  destruct (window_add_value_untracked _ _ _ _ _ _ _ _ _ Hne Ht E) as [Ht' Hb].
  rewrite <- Hb.
  assert (Hc : forall a, count_for sid name [_create_complex_notification now S c a] = O).
  { intros a. rewrite count_for_created. apply String.eqb_neq in Hsid. now rewrite Hsid. }
  destruct r0 as [[[|] [a|]]|e]; unfold ret;
    try (intros [= <- <-]; split; [assumption | simpl; lia]).
  destruct (_evaluate_windowed_condition a c); intros [= <- <-];
    (split; [assumption|]); simpl emitted; [rewrite Hc|]; simpl; lia.
Qed.

Lemma total_zero : forall (A : Type) (l : list A), total (fun _ => O) l = O.
Proof. induction l; simpl; auto. Qed.

Lemma total_sample_of : forall (name : string) (event : EcommerceEvent)
  (conds : list FilterCondition),
  total (sample_of name event) conds
  = if match _extract_numeric_value event name with Some _ => true | None => false end
    then List.length
           (filter (fun c => is_windowed c && String.eqb (field_name c) name) conds)
    else O.
Proof.
  intros name event conds. induction conds as [|c conds IH]; simpl.
  - now destruct (_extract_numeric_value event name).
  - rewrite IH. unfold sample_of.
    destruct (is_windowed c); simpl;
      [|now destruct (_extract_numeric_value event name)].
    destruct (String.eqb_spec (field_name c) name) as [->|Hne]; simpl;
      now destruct (_extract_numeric_value event name).
Qed.

Lemma _match_complex_subscription_feeds : forall (now : Z) (event : EcommerceEvent)
  (S : Subscription) (name : string) (N : Z),
  1 <= N ->
  feeds (subscription_id S) name N (_match_complex_subscription now event S)
        (samples_of S name event).
Proof.
  intros now event S name N HN. unfold _match_complex_subscription, samples_of, sampled.
  destruct (non_windowed_match event S); simpl.
  - pose proof (feeds_for_each _ (subscription_id S) name N
                  (process_windowed_condition now event S)
                  (sample_of name event) (conditions S) HN) as H.
    rewrite total_sample_of in H. unfold windowed_on. apply H.
    intros c _. now apply process_windowed_condition_feeds.
  - apply feeds_ret_nil.
Qed.

Lemma _match_complex_subscription_feeds_other : forall (now : Z)
  (event : EcommerceEvent) (S : Subscription) (sid name : string) (N : Z),
  1 <= N ->
  subscription_id S <> sid ->
  feeds sid name N (_match_complex_subscription now event S) O.
Proof.
  intros now event S sid name N HN Hsid. unfold _match_complex_subscription.
  destruct (negb _); [apply feeds_ret_nil|].
  pose proof (feeds_for_each _ sid name N (process_windowed_condition now event S)
                (fun _ => O) (conditions S) HN) as H.
  rewrite total_zero in H. apply H.
  intros c _. now apply process_windowed_condition_feeds_other.
Qed.

(** Among subscriptions with pairwise different ids, only [S] feeds the
    manager of [S]. *)
Lemma total_single : forall (S : Subscription) (g : Subscription -> nat)
  (l : list Subscription),
  NoDup (map subscription_id l) -> In S l ->
  total (fun S' => if String.eqb (subscription_id S') (subscription_id S)
                   then g S' else O) l
  = g S.
Proof.
  intros S g l. induction l as [|S0 l IH]; simpl; intros Hnd Hin; [tauto|].
  inversion Hnd as [|? ? Hnotin Hnd']; subst.
  assert (Hrest : ~ In (subscription_id S0) (map subscription_id l) ->
            subscription_id S0 = subscription_id S ->
            total (fun S' => if String.eqb (subscription_id S') (subscription_id S)
                             then g S' else O) l = O).
  { intros Hno Heq. clear - Hno Heq. induction l as [|S1 l IH]; simpl; [reflexivity|].
    simpl in Hno. destruct (String.eqb_spec (subscription_id S1) (subscription_id S)).
    - exfalso. apply Hno. left. congruence.
    - apply IH. tauto. }
  destruct Hin as [->|Hin].
  - rewrite String.eqb_refl, Hrest; auto.
  - destruct (String.eqb_spec (subscription_id S0) (subscription_id S)) as [E|E].
    + exfalso. apply Hnotin. rewrite E. now apply in_map.
    + now apply IH.
Qed.

Lemma registry_ok_ids : forall d : dict Subscription,
  registry_ok d -> map subscription_id (dict_values d) = dict_keys d.
Proof.
  induction d as [|[k S] d IH]; intros Hok; [reflexivity|].
  destruct (registry_ok_tail _ _ _ Hok) as [Hid [_ Hok']].
  simpl. now rewrite Hid, <- IH.
Qed.

Lemma count_for_simple : forall (sid name : string) (now : Z) (event : EcommerceEvent)
  (l : list Subscription),
  count_for sid name (match_simple_subscriptions now event l) = O.
Proof.
  intros. rewrite match_simple_subscriptions_filter. unfold count_for.
  induction (filter (_match_simple_subscription event) l) as [|S l' IH]; [reflexivity|].
  simpl. unfold is_complex_for at 1. simpl. now rewrite andb_false_r.
Qed.

Lemma match_event_feeds : forall (now : Z) (event : EcommerceEvent) (S : Subscription)
  (name : string) (N : Z) (self self' : SubscriptionMatcher)
  (r : result (list Notification)),
  1 <= N ->
  registry_ok (complex_subscriptions self) ->
  In S (dict_values (complex_subscriptions self)) ->
  tracked (subscription_id S) name N self ->
  match_event now event self = (r, self') ->
  tracked (subscription_id S) name N self'
  /\ N * Z.of_nat (count_for (subscription_id S) name (emitted r))
     + Z.of_nat (buffered (subscription_id S) name self')
     <= Z.of_nat (buffered (subscription_id S) name self)
        + Z.of_nat (samples_of S name event).
Proof.
  intros now event S name N self self' r HN Hok HS Ht.
  rewrite match_event_run.
  destruct (for_each _ _ self) as [r0 s] eqn:E. intros [= <- <-].
  pose proof (feeds_for_each _ (subscription_id S) name N
                (_match_complex_subscription now event)
                (fun S' => if String.eqb (subscription_id S') (subscription_id S)
                           then samples_of S' name event else O)
                (dict_values (complex_subscriptions self)) HN) as H.
  rewrite (total_single S (fun S' => samples_of S' name event)) in H;
    [| rewrite registry_ok_ids by assumption; apply Hok | assumption].
  assert (Hall : forall S',
            In S' (dict_values (complex_subscriptions self)) ->
            feeds (subscription_id S) name N (_match_complex_subscription now event S')
                  (if String.eqb (subscription_id S') (subscription_id S)
                   then samples_of S' name event else O)).
  { intros S' _.
    destruct (String.eqb_spec (subscription_id S') (subscription_id S)) as [Heq|Hne].
    - rewrite <- Heq. now apply _match_complex_subscription_feeds.
    - now apply _match_complex_subscription_feeds_other. }
  destruct (H Hall self r0 s Ht E) as [Ht' Hle].
  split; [assumption|].
  destruct r0 as [cs|e]; simpl in *; [|assumption].
  now rewrite count_for_app, count_for_simple.
Qed.

Lemma match_events_feeds : forall (S : Subscription) (name : string) (N : Z)
  (events : list (Z * EcommerceEvent)) (self : SubscriptionMatcher),
  1 <= N ->
  registry_ok (complex_subscriptions self) ->
  In S (dict_values (complex_subscriptions self)) ->
  tracked (subscription_id S) name N self ->
  N * Z.of_nat (count_for (subscription_id S) name (fst (match_events events self)))
  + Z.of_nat (buffered (subscription_id S) name (snd (match_events events self)))
  <= Z.of_nat (buffered (subscription_id S) name self)
     + Z.of_nat (List.length (windowed_on name S))
       * Z.of_nat (List.length (filter (fun p => sampled S name (snd p)) events)).
Proof.
  intros S name N events. induction events as [|[now event] events IH];
    intros self HN Hok HS Ht.
  - simpl. lia.
  - cbn [match_events].
    destruct (match_event now event self) as [r s1] eqn:E.
    destruct (match_event_feeds _ _ _ _ _ _ _ _ HN Hok HS Ht E) as [Ht1 H1].
    destruct (match_event_same_registry _ _ _ _ _ E) as [_ [Hcx _]].
    assert (Hok1 : registry_ok (complex_subscriptions s1)) by (now rewrite Hcx).
    assert (HS1 : In S (dict_values (complex_subscriptions s1))) by (now rewrite Hcx).
    specialize (IH s1 HN Hok1 HS1 Ht1).
    destruct (match_events events s1) as [out s2]. simpl fst in *. simpl snd in *.
    rewrite count_for_app. unfold samples_of in H1. simpl filter.
    destruct (sampled S name event); simpl List.length; nia.
Qed.

(** The amended C2. A registered complex subscription [S] and the manager
    it holds under the field name [name], of capacity [N >= 1]: over any
    sequence of [match_event] calls, [N] times the number of complex
    notifications for [name] is at most the number of samples fed to that
    manager, and every event that passes the non-windowed gate of [S] and
    yields a number for the base field feeds one sample per windowed
    condition of [S] named [name]. With one such condition and an empty
    buffer: at most one notification per [N] sampled events. *)
Theorem window_notifications_bounded : forall (events : list (Z * EcommerceEvent))
  (self : SubscriptionMatcher) (S : Subscription) (name : string) (w : WindowManager),
  registry_ok (complex_subscriptions self) ->
  In S (dict_values (complex_subscriptions self)) ->
  manager_at self (subscription_id S) name = Some w ->
  manager_ready w ->
  wm_window_size w
  * Z.of_nat (count_for (subscription_id S) name (fst (match_events events self)))
  <= Z.of_nat (List.length (window w))
     + Z.of_nat (List.length (windowed_on name S))
       * Z.of_nat (List.length (filter (fun p => sampled S name (snd p)) events)).
Proof.
  intros events self S name w Hok HS Hat [Hcap Hlen].
  assert (Ht : tracked (subscription_id S) name (wm_window_size w) self).
  { exists w. now repeat split. }
  pose proof (match_events_feeds S name (wm_window_size w) events self Hcap Hok HS Ht)
    as H.
  unfold buffered at 2 in H. rewrite Hat in H. lia.
Qed.

(* ================================================================== *)
(** ** A raise inside [match_event] *)

Lemma for_each_raise : forall (A B : Type) (f : A -> M (list B)) (before after : list A)
  (a : A) (s s1 s2 : SubscriptionMatcher) (outs : list B) (e : exn),
  for_each f before s = (Ok outs, s1) ->
  f a s1 = (Raise e, s2) ->
  for_each f (before ++ a :: after) s = (Raise e, s2).
Proof.
  intros A B f before. induction before as [|b before IH];
    intros after a s s1 s2 outs e H1 H2.
  - simpl in H1. injection H1 as <- <-. simpl. unfold bind. now rewrite H2.
  - simpl in *. unfold bind in *.
    destruct (f b s) as [[xs|e'] s'] eqn:E; [|discriminate].
    destruct (for_each f before s') as [[ys|e'] s''] eqn:E'; [|discriminate].
    unfold ret in H1. injection H1 as <- <-.
    now rewrite (IH after a s' s'' s2 ys e E' H2).
Qed.

Lemma fold_send_published : forall (ns : list Notification) (self : EcommerceBroker),
  published (fold_left _send_notification ns self)
  = published self ++ map (fun n => (n_subscriber_id n, n)) ns
  /\ notifications_sent (fold_left _send_notification ns self)
     = notifications_sent self + Z.of_nat (List.length ns)
  /\ matcher (fold_left _send_notification ns self) = matcher self.
Proof.
  induction ns as [|n ns IH]; intros self; simpl.
  - rewrite app_nil_r. repeat split. lia.
  - destruct (IH (_send_notification self n)) as [-> [-> ->]]. simpl.
    rewrite <- app_assoc. repeat split. lia.
Qed.

(** The amended C6. [match_event] has no handler of its own: when the
    matching of one complex subscription raises, the call raises, and
    [_handle_event] publishes nothing for that event, whatever the
    subscriptions before it matched; the error does not escape the
    handler, the matcher keeps the window updates made before the raise;
    when no subscription raises, every returned notification is
    published, in order. *)
Theorem handle_event_failure : forall (now : Z) (event : EcommerceEvent)
  (self : EcommerceBroker),
  (forall (before after : list Subscription) (S : Subscription)
          (outs : list Notification) (m1 m2 : SubscriptionMatcher) (e : exn),
     dict_values (complex_subscriptions (matcher self)) = before ++ S :: after ->
     for_each (_match_complex_subscription now event) before (matcher self)
     = (Ok outs, m1) ->
     _match_complex_subscription now event S m1 = (Raise e, m2) ->
     match_event now event (matcher self) = (Raise e, m2)
     /\ published (_handle_event now event self) = published self
     /\ notifications_sent (_handle_event now event self) = notifications_sent self
     /\ matcher (_handle_event now event self) = m2)
  /\ (forall (out : list Notification) (m : SubscriptionMatcher),
        match_event now event (matcher self) = (Ok out, m) ->
        published (_handle_event now event self)
        = published self ++ map (fun n => (n_subscriber_id n, n)) out
        /\ matcher (_handle_event now event self) = m).
Proof.
  intros now event self. split.
  - intros before after S outs m1 m2 e Hvals Hbefore HS.
    assert (E : match_event now event (matcher self) = (Raise e, m2)).
    { rewrite match_event_run, Hvals.
      now rewrite (for_each_raise _ _ _ _ _ _ _ _ _ _ _ Hbefore HS). }
    split; [exact E|]. unfold _handle_event. rewrite E. now repeat split.
  - intros out m E. unfold _handle_event. rewrite E.
    destruct (fold_send_published out (set_matcher self m)) as [-> [_ ->]].
    now split.
Qed.

Lemma valid_registered_from : forall (subscriptions : list Subscription)
  (self : SubscriptionMatcher),
  valid self ->
  Forall (fun S => sub_type S = SIMPLE \/ 1 <= window_size (window_config S))
         subscriptions ->
  valid (fold_left (fun self S => snd (add_subscription S self)) subscriptions self).
Proof.
  induction subscriptions as [|S l IH]; intros self Hvalid Hall; [assumption|].
  inversion Hall as [|? ? HS Hl]; subst. simpl. apply IH; [|assumption].
  destruct (valid_add_subscription S self Hvalid HS) as [self' [E Hv]].
  now rewrite E.
Qed.

(** Registering subscriptions whose window size is at least one gives a
    valid matcher. *)
Lemma valid_registered : forall subscriptions : list Subscription,
  Forall (fun S => sub_type S = SIMPLE \/ 1 <= window_size (window_config S))
         subscriptions ->
  valid (registered subscriptions).
Proof.
  intros. apply valid_registered_from; [apply valid_init | assumption].
Qed.

(* ================================================================== *)
(** ** Tumbling windows *)

Lemma add_values_app : forall (xs ys : list float) (self : WindowManager),
  add_values (xs ++ ys) self
  = (fst (add_values xs self) ++ fst (add_values ys (snd (add_values xs self))),
     snd (add_values ys (snd (add_values xs self)))).
Proof.
  induction xs as [|x xs IH]; intros ys self; simpl.
  - now destruct (add_values ys self).
  - destruct (add_value x self) as [r self1]. rewrite IH.
    destruct (add_values xs self1) as [rs self2]. reflexivity.
Qed.

(** Values that do not fill the buffer are buffered, in order. *)
Lemma add_values_below : forall (values : list float) (self : WindowManager),
  1 <= wm_window_size self ->
  Z.of_nat (List.length (window self)) + Z.of_nat (List.length values)
  < wm_window_size self ->
  add_values values self
  = (repeat (Ok (false, None)) (List.length values),
     set_window self (window self ++ values)).
Proof.
  induction values as [|v values IH]; intros self Hcap Hlen; simpl in *.
  - rewrite app_nil_r. now destruct self.
  - destruct (add_value_ready v self) as [[_ ->] | [Hfull _]]; [split; lia | | lia].
    rewrite IH; simpl; [|assumption | rewrite length_app; simpl; lia].
    unfold set_window. simpl. now rewrite <- app_assoc.
Qed.

(** One block of capacity-many values, fed to an empty buffer: only the
    last call fires, with the aggregate of the block, and the buffer is
    empty again. *)
Lemma add_values_block : forall (block : list float) (self : WindowManager),
  1 <= wm_window_size self ->
  window self = [] ->
  Z.of_nat (List.length block) = wm_window_size self ->
  exists a,
    _calculate_aggregation (set_window self block) = Ok a
    /\ add_values block self
       = (repeat (Ok (false, None)) (Z.to_nat (wm_window_size self - 1))
            ++ [Ok (true, Some a)],
          set_window (set_is_full self true) []).
Proof.
  intros block self Hcap Hempty Hlen.
  destruct (exists_last (l := block)) as [init [v ->]].
  { intros ->. simpl in Hlen. lia. }
  rewrite length_app in Hlen. simpl in Hlen.
  rewrite add_values_app.
  rewrite (add_values_below init self) by (rewrite ?Hempty; simpl; lia).
  simpl. rewrite Hempty. simpl.
  destruct (add_value_ready v (set_window self init)) as [[Hlt _] | [_ [a [Ha ->]]]].
  - split; simpl; lia.
  - simpl in Hlt. lia.
  - exists a. split; [exact Ha|]. simpl.
    replace (Z.to_nat (wm_window_size self - 1)) with (List.length init) by lia.
    reflexivity.
Qed.

(** X1. Windows tumble. A manager of capacity [N >= 1] with an empty
    buffer that is fed whole blocks of [N] values followed by fewer than
    [N] further values fires exactly once per block, on the block's last
    value and with the aggregate of exactly that block; every other call
    returns [(False, None)]. No value is counted in two windows, the
    values after the last whole block stay buffered in order, and
    [is_full] is set as soon as one block was completed. *)
Theorem add_values_tumbling : forall (blocks : list (list float)) (rest : list float)
  (self : WindowManager),
  1 <= wm_window_size self ->
  window self = [] ->
  Forall (fun block => Z.of_nat (List.length block) = wm_window_size self) blocks ->
  Z.of_nat (List.length rest) < wm_window_size self ->
  exists aggregates : list float,
    Forall2 (fun block a => _calculate_aggregation (set_window self block) = Ok a)
            blocks aggregates
    /\ add_values (List.concat blocks ++ rest) self
       = (flat_map (fun a => repeat (Ok (false, None))
                                    (Z.to_nat (wm_window_size self - 1))
                             ++ [Ok (true, Some a)])
                   aggregates
          ++ repeat (Ok (false, None)) (List.length rest),
          {| wm_window_size := wm_window_size self;
             wm_aggregation_type := wm_aggregation_type self;
             window := rest;
             is_full := is_full self || negb (Nat.eqb (List.length blocks) 0) |}).
Proof.
  clear str_of_float float_of_str.
  induction blocks as [|block blocks IH]; intros rest self Hcap Hempty Hall Hrest.
  - exists []. split; [constructor|]. simpl.
    rewrite (add_values_below rest self) by (rewrite ?Hempty; simpl; lia).
    rewrite Hempty, orb_false_r. reflexivity.
  - inversion Hall as [|? ? Hblock Hblocks]; subst.
    destruct (add_values_block block self Hcap Hempty Hblock) as [a [Ha Hrun]].
    destruct (IH rest (set_window (set_is_full self true) []))
      as [aggregates [HF Hnext]]; try assumption; try reflexivity.
    exists (a :: aggregates). split.
    + constructor; [exact Ha|].
      eapply Forall2_impl; [|exact HF]. intros b x Hb. exact Hb.
    + simpl. rewrite <- app_assoc, add_values_app, Hrun. simpl.
      rewrite Hnext. simpl. rewrite orb_true_r, <- !app_assoc. reflexivity.
Qed.

(** X2. A window size of zero. [WindowManager(0, kind)] is built without
    error, and its buffer can hold nothing: every [add_value] call finds
    the empty buffer at capacity and aggregates no data. For "sum" the
    call returns [(True, 0)]; for "max" and "min" it raises [ValueError];
    for "avg" and every other aggregation type it raises
    [StatisticsError]. In each case the manager is left with an empty
    buffer and [is_full] set, so the next call behaves the same. *)
Theorem add_value_window_size_zero : forall (v : float) (kind : string) (full : bool),
  let manager := fun b =>
    {| wm_window_size := 0; wm_aggregation_type := kind; window := []; is_full := b |} in
  WindowManager_init 0 kind = Ok (manager false)
  /\ snd (add_value v (manager full)) = manager true
  /\ (kind = "sum" -> fst (add_value v (manager full)) = Ok (true, Some 0%float))
  /\ (kind = "max" \/ kind = "min" ->
      exists msg, fst (add_value v (manager full)) = Raise (ValueError msg))
  /\ (~ In kind ["sum"; "max"; "min"] ->
      exists msg, fst (add_value v (manager full)) = Raise (StatisticsError msg)).
Proof.
  clear str_of_float float_of_str.
  intros v kind full manager. split; [reflexivity|].
  unfold add_value, _calculate_aggregation. simpl.
  destruct (String.eqb_spec kind "avg") as [->|Havg]; simpl.
  { split; [reflexivity|]. split; [discriminate|]. split.
    - intros [H|H]; discriminate.
    - intros _. eexists. reflexivity. }
  destruct (String.eqb_spec kind "max") as [->|Hmax]; simpl.
  { split; [reflexivity|]. split; [discriminate|]. split.
    - intros _. eexists. reflexivity.
    - intros H. exfalso. apply H. simpl. auto. }
  destruct (String.eqb_spec kind "min") as [->|Hmin]; simpl.
  { split; [reflexivity|]. split; [discriminate|]. split.
    - intros _. eexists. reflexivity.
    - intros H. exfalso. apply H. simpl. auto. }
  destruct (String.eqb_spec kind "sum") as [->|Hsum]; simpl.
  { split; [reflexivity|]. split; [reflexivity|]. split.
    - intros [H|H]; discriminate.
    - intros H. exfalso. apply H. simpl. auto. }
  split; [reflexivity|]. split; [congruence|]. split.
  - intros [H|H]; congruence.
  - intros _. eexists. reflexivity.
Qed.

(* ================================================================== *)
(** ** What [match_event] leaves alone *)

(** A relation between the matcher before and after that every iteration
    keeps is kept by the loop, whether it completes or raises. *)
Lemma for_each_preserves : forall (A B : Type)
  (R : SubscriptionMatcher -> SubscriptionMatcher -> Prop)
  (f : A -> M (list B)) (l : list A),
  (forall s, R s s) ->
  (forall s1 s2 s3, R s1 s2 -> R s2 s3 -> R s1 s3) ->
  (forall a s s' r, In a l -> f a s = (r, s') -> R s s') ->
  forall s s' r, for_each f l s = (r, s') -> R s s'.
Proof.
  intros A B R f l Hrefl Htrans. induction l as [|a l IH]; intros Hf s s' r.
  - intros [= _ <-]. apply Hrefl.
  - cbn [for_each]. unfold bind.
    destruct (f a s) as [[xs|e] s1] eqn:E1.
    + destruct (for_each f l s1) as [[ys|e] s2] eqn:E2; intros [= _ <-];
        (eapply Htrans;
         [eapply Hf; [now left | exact E1]
         | eapply IH; [intros; eapply Hf; [right|]; eassumption | exact E2]]).
    + intros [= _ <-]. eapply Hf; [now left | exact E1].
Qed.

Lemma for_each_idle : forall (A B : Type) (f : A -> M (list B)) (l : list A)
  (s : SubscriptionMatcher),
  (forall a, In a l -> f a s = (Ok [], s)) -> for_each f l s = (Ok [], s).
Proof.
  intros A B f l s. induction l as [|a l IH]; intros H; [reflexivity|].
  cbn [for_each]. unfold bind. rewrite (H a (or_introl eq_refl)).
  rewrite IH; [reflexivity|]. intros b Hb. apply H. now right.
Qed.

Lemma add_value_configuration : forall (v : float) (w : WindowManager),
  wm_window_size (snd (add_value v w)) = wm_window_size w
  /\ wm_aggregation_type (snd (add_value v w)) = wm_aggregation_type w.
Proof.
  intros v w. unfold add_value.
  destruct (_ =? _); [destruct (_calculate_aggregation _)|]; now split.
Qed.

Lemma same_configuration_refl : forall s : SubscriptionMatcher, same_configuration s s.
Proof. intros s sid name. destruct (manager_at s sid name); auto. Qed.

Lemma same_configuration_trans : forall s1 s2 s3 : SubscriptionMatcher,
  same_configuration s1 s2 -> same_configuration s2 s3 -> same_configuration s1 s3.
Proof.
  intros s1 s2 s3 H12 H23 sid name. specialize (H12 sid name). specialize (H23 sid name).
  destruct (manager_at s1 sid name), (manager_at s2 sid name), (manager_at s3 sid name);
    try contradiction; auto.
  destruct H12, H23. split; congruence.
Qed.

Lemma window_add_value_same_configuration : forall (sid name : string) (v : float)
  (self self' : SubscriptionMatcher) (r : result (bool * option float)),
  window_add_value sid name v self = (r, self') -> same_configuration self self'.
Proof.
  intros sid name v self self' r. rewrite window_add_value_run.
  destruct (dict_get sid (window_managers self)) as [inner|] eqn:Hget;
    [|intros [= _ <-]; apply same_configuration_refl].
  destruct (dict_get name inner) as [manager|] eqn:Hname;
    [|intros [= _ <-]; apply same_configuration_refl].
  intros [= _ <-] sid' name'. rewrite (manager_at_update _ _ _ _ _ _ _ Hget).
  destruct (String.eqb_spec sid' sid) as [->|Hs]; simpl.
  - destruct (String.eqb_spec name' name) as [->|Hn].
    + unfold manager_at. rewrite Hget, Hname. apply add_value_configuration.
    + destruct (manager_at self sid name'); auto.
  - destruct (manager_at self sid' name'); auto.
Qed.

Lemma process_windowed_condition_same_configuration : forall (now : Z)
  (event : EcommerceEvent) (S : Subscription) (c : FilterCondition)
  (self self' : SubscriptionMatcher) (r : result (list Notification)),
  process_windowed_condition now event S c self = (r, self') ->
  same_configuration self self'.
Proof.
  intros now event S c self self' r. unfold process_windowed_condition.
  destruct (is_windowed c); [|intros [= _ <-]; apply same_configuration_refl].
  destruct (_extract_numeric_value event (field_name c));
    [|intros [= _ <-]; apply same_configuration_refl].
  unfold bind.
  destruct (window_add_value _ _ _ self) as [[[[|] [a|]]|e] s] eqn:E;
    apply window_add_value_same_configuration in E; unfold ret;
    try (intros [= _ <-]; exact E).
  destruct (_evaluate_windowed_condition a c); intros [= _ <-]; exact E.
Qed.

Lemma match_event_same_configuration : forall (now : Z) (event : EcommerceEvent)
  (self self' : SubscriptionMatcher) (r : result (list Notification)),
  match_event now event self = (r, self') -> same_configuration self self'.
Proof.
  intros now event self self' r. rewrite match_event_run.
  destruct (for_each _ _ self) as [r' s] eqn:E. intros [= _ <-].
  revert E. apply for_each_preserves;
    [apply same_configuration_refl | apply same_configuration_trans|].
  intros S s0 s' r0 _. unfold _match_complex_subscription.
  destruct (negb _); [intros [= _ <-]; apply same_configuration_refl|].
  apply for_each_preserves;
    [apply same_configuration_refl | apply same_configuration_trans|].
  intros c s1 s2 r1 _. apply process_windowed_condition_same_configuration.
Qed.

(** X3. [match_event] never changes what is registered, whether it
    returns or raises: the simple and the complex subscriptions and the
    contexts are those it found, the statistics are unchanged, no window
    manager is created or dropped, and every manager keeps its capacity
    and its aggregation type. Only the buffers and the [is_full] flags of
    the managers can differ. *)
Theorem match_event_keeps_configuration : forall (now : Z) (event : EcommerceEvent)
  (self : SubscriptionMatcher),
  let self' := snd (match_event now event self) in
  simple_subscriptions self' = simple_subscriptions self
  /\ complex_subscriptions self' = complex_subscriptions self
  /\ subscription_contexts self' = subscription_contexts self
  /\ dict_keys (window_managers self') = dict_keys (window_managers self)
  /\ get_statistics self' = get_statistics self
  /\ forall sid name,
       match manager_at self sid name, manager_at self' sid name with
       | Some w, Some w' =>
           wm_window_size w' = wm_window_size w
           /\ wm_aggregation_type w' = wm_aggregation_type w
       | None, None => True
       | _, _ => False
       end.
Proof.
  intros now event self.
  destruct (match_event now event self) as [r self'] eqn:E. simpl.
  destruct (match_event_same_registry _ _ _ _ _ E) as [Hs [Hc [Hx Hk]]].
  repeat split; try assumption.
  - unfold get_statistics. now rewrite Hs, Hc.
  - exact (match_event_same_configuration _ _ _ _ _ E).
Qed.

Lemma process_windowed_condition_idle : forall (now : Z) (event : EcommerceEvent)
  (S : Subscription) (c : FilterCondition) (self : SubscriptionMatcher),
  is_windowed c = false \/ _extract_numeric_value event (field_name c) = None ->
  process_windowed_condition now event S c self = (Ok [], self).
Proof.
  intros now event S c self H. unfold process_windowed_condition.
  destruct (is_windowed c); [|reflexivity].
  destruct H as [H|H]; [discriminate|]. now rewrite H.
Qed.

(** X4. An event that no windowed condition samples (for every complex
    subscription the non-windowed gate is closed, or the event has no
    number for the base field of the condition) leaves the matcher exactly
    as it was: [match_event] returns the notifications of the matching
    simple subscriptions only, and it does not raise, not even for a
    subscription whose managers are missing or have capacity zero. *)
Theorem match_event_without_samples : forall (now : Z) (event : EcommerceEvent)
  (self : SubscriptionMatcher),
  (forall S c, In S (dict_values (complex_subscriptions self)) ->
               In c (conditions S) -> is_windowed c = true ->
               sampled S (field_name c) event = false) ->
  match_event now event self
  = (Ok (map (_create_simple_notification now event)
             (filter (_match_simple_subscription event)
                     (dict_values (simple_subscriptions self)))),
     self).
Proof.
  intros now event self H. rewrite match_event_run.
  rewrite for_each_idle.
  - now rewrite app_nil_r, match_simple_subscriptions_filter.
  - intros S HS. unfold _match_complex_subscription.
    destruct (non_windowed_match event S) eqn:G; [|reflexivity]. simpl.
    apply for_each_idle. intros c Hc. apply process_windowed_condition_idle.
    destruct (is_windowed c) eqn:Ew; [right | now left].
    specialize (H S c HS Hc Ew). unfold sampled in H. rewrite G in H. simpl in H.
    now destruct (_extract_numeric_value event (field_name c)).
Qed.

Lemma window_add_value_other : forall (sid name sid' name' : string) (v : float)
  (self self' : SubscriptionMatcher) (r : result (bool * option float)),
  window_add_value sid' name' v self = (r, self') ->
  sid' <> sid \/ name' <> name ->
  manager_at self' sid name = manager_at self sid name.
Proof.
  intros sid name sid' name' v self self' r. rewrite window_add_value_run.
  destruct (dict_get sid' (window_managers self)) as [inner|] eqn:Hget;
    [|now intros [= _ <-]].
  destruct (dict_get name' inner) as [manager|]; [|now intros [= _ <-]].
  intros [= _ <-] Hne. rewrite (manager_at_update _ _ _ _ _ _ _ Hget).
  destruct (String.eqb_spec sid sid'); destruct (String.eqb_spec name name');
    simpl; try reflexivity.
  subst. destruct Hne; congruence.
Qed.

Lemma process_windowed_condition_other : forall (sid name : string) (now : Z)
  (event : EcommerceEvent) (S : Subscription) (c : FilterCondition)
  (self self' : SubscriptionMatcher) (r : result (list Notification)),
  process_windowed_condition now event S c self = (r, self') ->
  subscription_id S <> sid \/ field_name c <> name
  \/ is_windowed c = false \/ _extract_numeric_value event (field_name c) = None ->
  manager_at self' sid name = manager_at self sid name.
Proof.
  intros sid name now event S c self self' r Hrun H.
  assert (Hidle : is_windowed c = false
                  \/ _extract_numeric_value event (field_name c) = None
                  \/ subscription_id S <> sid \/ field_name c <> name)
    by (clear - H; intuition).
  clear H. destruct Hidle as [H | [H | H]].
  - rewrite process_windowed_condition_idle in Hrun by now left.
    now injection Hrun as _ <-.
  - rewrite process_windowed_condition_idle in Hrun by now right.
    now injection Hrun as _ <-.
  - revert Hrun. unfold process_windowed_condition.
    destruct (is_windowed c); [|now intros [= _ <-]].
    destruct (_extract_numeric_value event (field_name c)); [|now intros [= _ <-]].
    unfold bind.
    destruct (window_add_value _ _ _ self) as [[[[|] [a|]]|e] s] eqn:E;
      apply (window_add_value_other sid name) in E; try assumption; unfold ret;
      try (intros [= _ <-]; exact E).
    destruct (_evaluate_windowed_condition a c); intros [= _ <-]; exact E.
Qed.

(** X5. One [match_event] call touches only the windows it samples: the
    manager stored for a subscription id and a field name is exactly the
    one found before the call (same buffer, same flag), unless a complex
    subscription with that id has a windowed condition on that field name
    and the event passes its non-windowed gate and has a number for the
    base field. This holds whether the call returns or raises. *)
Theorem match_event_touches_only_sampled : forall (now : Z) (event : EcommerceEvent)
  (self : SubscriptionMatcher) (sid name : string),
  (forall S, In S (dict_values (complex_subscriptions self)) ->
             subscription_id S = sid ->
             sampled S name event = false \/ windowed_on name S = []) ->
  manager_at (snd (match_event now event self)) sid name = manager_at self sid name.
Proof.
  intros now event self sid name H. rewrite match_event_run.
  destruct (for_each _ _ self) as [r s] eqn:E. simpl.
  revert E.
  apply (for_each_preserves _ _
           (fun s1 s2 => manager_at s2 sid name = manager_at s1 sid name));
    [reflexivity | intros; congruence |].
  intros S s0 s' r0 HS. unfold _match_complex_subscription.
  destruct (non_windowed_match event S) eqn:G; simpl; [|now intros [= _ <-]].
  apply (for_each_preserves _ _
           (fun s1 s2 => manager_at s2 sid name = manager_at s1 sid name));
    [reflexivity | intros; congruence |].
  intros c s1 s2 r1 Hc Hrun.
  apply (process_windowed_condition_other sid name _ _ _ _ _ _ _ Hrun).
  destruct (String.eqb_spec (subscription_id S) sid) as [Hid|Hid]; [|now left].
  destruct (String.eqb_spec (field_name c) name) as [Hn|Hn]; [|right; now left].
  destruct (is_windowed c) eqn:Ew; [|right; right; now left].
  right. right. right.
  destruct (H S HS Hid) as [Hs | Hw].
  - unfold sampled in Hs. rewrite G in Hs. simpl in Hs. rewrite Hn.
    now destruct (_extract_numeric_value event name).
  - exfalso. assert (Hin : In c (windowed_on name S)).
    { unfold windowed_on. apply filter_In. split; [assumption|].
      rewrite Ew, Hn, String.eqb_refl. reflexivity. }
    rewrite Hw in Hin. contradiction.
Qed.

(* ================================================================== *)
(** ** Where a complex notification comes from *)

Lemma for_each_In : forall (A B : Type) (f : A -> M (list B)) (l : list A)
  (s s' : SubscriptionMatcher) (out : list B) (x : B),
  for_each f l s = (Ok out, s') -> In x out ->
  exists a s1 s2 xs, In a l /\ f a s1 = (Ok xs, s2) /\ In x xs.
Proof.
  intros A B f l s s' out x E Hin.
  destruct (for_each_Ok_blocks _ _ _ _ _ _ _ E) as [blocks [-> HF]].
  apply in_concat in Hin. destruct Hin as [block [Hb Hx]].
  destruct (Forall2_In_r _ _ _ _ _ _ HF Hb) as [a [Ha [s1 [s2 Hrun]]]].
  exists a, s1, s2, block. auto.
Qed.

Lemma process_windowed_condition_fired : forall (now : Z) (event : EcommerceEvent)
  (S : Subscription) (c : FilterCondition) (s1 s2 : SubscriptionMatcher)
  (xs : list Notification) (n : Notification),
  process_windowed_condition now event S c s1 = (Ok xs, s2) -> In n xs ->
  is_windowed c = true
  /\ (exists v, _extract_numeric_value event (field_name c) = Some v)
  /\ exists a, _evaluate_windowed_condition a c = true
               /\ n = _create_complex_notification now S c a.
Proof.
  intros now event S c s1 s2 xs n. unfold process_windowed_condition.
  destruct (is_windowed c); [|intros [= <- _] []].
  destruct (_extract_numeric_value event (field_name c)) as [v|];
    [|intros [= <- _] []].
  unfold bind.
  destruct (window_add_value _ _ _ s1) as [[[[|] [a|]]|e] s]; unfold ret;
    try (intros [= <- _] []); try discriminate.
  destruct (_evaluate_windowed_condition a c) eqn:E; intros [= <- _] Hin;
    [|contradiction].
  destruct Hin as [<-|[]]. split; [reflexivity|]. split; [eauto|]. exists a. now split.
Qed.

(** Every notification of one [match_event] call is the simple
    notification of a matching simple subscription, or the notification
    of a windowed condition of a complex subscription whose gate the event
    passes and for which the event has a number. *)
Lemma match_event_origin : forall (now : Z) (event : EcommerceEvent)
  (self self' : SubscriptionMatcher) (out : list Notification) (n : Notification),
  match_event now event self = (Ok out, self') -> In n out ->
  (exists S, In S (dict_values (simple_subscriptions self))
             /\ n = _create_simple_notification now event S)
  \/ (exists S c a v,
        In S (dict_values (complex_subscriptions self))
        /\ In c (conditions S) /\ is_windowed c = true
        /\ non_windowed_match event S = true
        /\ _extract_numeric_value event (field_name c) = Some v
        /\ _evaluate_windowed_condition a c = true
        /\ n = _create_complex_notification now S c a).
Proof.
  intros now event self self' out n H Hin.
  rewrite match_event_run in H.
  destruct (for_each _ _ self) as [[cs|e] s] eqn:E; [|discriminate].
  injection H as <- <-. apply in_app_or in Hin. destruct Hin as [Hin | Hin].
  - left. rewrite match_simple_subscriptions_filter in Hin.
    apply in_map_iff in Hin. destruct Hin as [S [<- HS]].
    apply filter_In in HS. exists S. tauto.
  - right. destruct (for_each_In _ _ _ _ _ _ _ _ E Hin) as [S [s1 [s2 [xs [HS [Hrun Hn]]]]]].
    unfold _match_complex_subscription in Hrun.
    destruct (non_windowed_match event S) eqn:G; simpl in Hrun;
      [|injection Hrun as <- _; contradiction].
    destruct (for_each_In _ _ _ _ _ _ _ _ Hrun Hn) as [c [s3 [s4 [ys [Hc [Hc_run Hy]]]]]].
    destruct (process_windowed_condition_fired _ _ _ _ _ _ _ _ Hc_run Hy)
      as [Ew [[v Hv] [a [Ha ->]]]].
    exists S, c, a, v. repeat split; assumption.
Qed.

Lemma match_events_In : forall (events : list (Z * EcommerceEvent))
  (self : SubscriptionMatcher) (n : Notification),
  In n (fst (match_events events self)) ->
  exists now event s1 s2 out,
    In (now, event) events /\ same_registry self s1
    /\ match_event now event s1 = (Ok out, s2) /\ In n out.
Proof.
  induction events as [|[now event] events IH]; intros self n; simpl; [contradiction|].
  destruct (match_event now event self) as [r s1] eqn:E.
  destruct (match_events events s1) as [out s2] eqn:E'. simpl.
  intros Hin. apply in_app_or in Hin. destruct Hin as [Hin|Hin].
  - destruct r as [l|e]; [|contradiction].
    exists now, event, self, s1, l. repeat split; auto.
  - specialize (IH s1 n). rewrite E' in IH.
    destruct (IH Hin) as [now' [event' [s3 [s4 [l [H1 [H2 [H3 H4]]]]]]]].
    exists now', event', s3, s4, l. split; [now right|]. split; [|now split].
    eapply same_registry_trans; [|exact H2].
    eapply match_event_same_registry. exact E.
Qed.

Lemma registry_ok_unique : forall (d : dict Subscription) (S S' : Subscription),
  registry_ok d ->
  In S (dict_values d) -> In S' (dict_values d) ->
  subscription_id S = subscription_id S' -> S = S'.
Proof.
  intros d S S' [Hnd Hid] HS HS' Heq.
  apply in_map_iff in HS, HS'.
  destruct HS as [[k x] [E Hin]]. destruct HS' as [[k' x'] [E' Hin']].
  simpl in E, E'. subst x x'.
  pose proof (Hid _ _ Hin) as Hk. pose proof (Hid _ _ Hin') as Hk'.
  assert (Hkk : k = k') by congruence. subst k'.
  apply (In_dict_get _ _ _ _ Hnd) in Hin. apply (In_dict_get _ _ _ _ Hnd) in Hin'.
  congruence.
Qed.

(** X6. A COMPLEX subscription without a windowed condition is accepted
    by [add_subscription] and is silent for ever: over any sequence of
    events no complex notification carries its id. A notification with
    that id can only be the simple notification of a SIMPLE subscription
    registered under the same id. *)
Theorem complex_without_windowed_condition_is_silent :
  forall (events : list (Z * EcommerceEvent)) (self : SubscriptionMatcher)
         (S : Subscription) (n : Notification),
  registry_ok (complex_subscriptions self) ->
  In S (dict_values (complex_subscriptions self)) ->
  forallb (fun c => negb (is_windowed c)) (conditions S) = true ->
  In n (fst (match_events events self)) ->
  n_subscription_id n = subscription_id S ->
  exists (event : EcommerceEvent) (A : Subscription),
    body n = SimpleNotification event
    /\ In A (dict_values (simple_subscriptions self))
    /\ subscription_id A = subscription_id S.
Proof.
  intros events self S n Hok HS Hnone Hin Hid.
  destruct (match_events_In _ _ _ Hin)
    as [now [event [s1 [s2 [out [_ [[Hsimple [Hcomplex _]] [Hrun Hn]]]]]]]].
  destruct (match_event_origin _ _ _ _ _ _ Hrun Hn)
    as [[A [HA ->]] | [S' [c [a [v [HS' [Hc [Ew [_ [_ [_ ->]]]]]]]]]]].
  - exists event, A. simpl in Hid. rewrite Hsimple in HA. now repeat split.
  - exfalso. simpl in Hid. rewrite Hcomplex in HS'.
    assert (S' = S) by (eapply registry_ok_unique; eassumption). subst S'.
    rewrite forallb_forall in Hnone. specialize (Hnone c Hc).
    rewrite Ew in Hnone. discriminate.
Qed.

(** X7. A complex notification is only emitted on a sampled event: when
    [match_event] returns a complex notification for subscription id
    [sid] and field name [name], a complex subscription with that id is
    registered, it has a windowed condition on [name], and the event
    itself passes its non-windowed gate and has a number for the base
    field of [name]; the reported aggregate satisfies that condition. *)
Theorem complex_notification_on_sampled_event : forall (now : Z)
  (event : EcommerceEvent) (self self' : SubscriptionMatcher)
  (out : list Notification) (n : Notification) (sid name : string),
  match_event now event self = (Ok out, self') ->
  In n out ->
  is_complex_for sid name n = true ->
  exists S c a,
    In S (dict_values (complex_subscriptions self))
    /\ subscription_id S = sid
    /\ In c (windowed_on name S)
    /\ sampled S name event = true
    /\ _evaluate_windowed_condition a c = true
    /\ n = _create_complex_notification now S c a.
Proof.
  intros now event self self' out n sid name Hrun Hin Hfor.
  destruct (match_event_origin _ _ _ _ _ _ Hrun Hin)
    as [[A [HA ->]] | [S [c [a [v [HS [Hc [Ew [G [Hv [Ha ->]]]]]]]]]]].
  - unfold is_complex_for in Hfor. simpl in Hfor.
    now rewrite andb_false_r in Hfor.
  - unfold is_complex_for in Hfor. simpl in Hfor.
    apply andb_true_iff in Hfor. destruct Hfor as [Hsid Hname].
    apply String.eqb_eq in Hsid, Hname.
    exists S, c, a. repeat split; try assumption.
    + unfold windowed_on. apply filter_In. split; [assumption|].
      now rewrite Ew, Hname, String.eqb_refl.
    + unfold sampled. now rewrite G, <- Hname, Hv.
Qed.

Lemma str_remove_keeps_su : forall (old rest : string),
  In old ["avg_"; "max_"; "min_"] ->
  exists rest', str_remove old (String "s" (String "u" rest))
                = String "s" (String "u" rest').
Proof.
  intros old rest [<- | [<- | [<- | []]]]; unfold str_remove; cbn; eauto.
Qed.

Lemma _extract_field_value_su : forall (event : EcommerceEvent) (rest : string),
  _extract_field_value event (String "s" (String "u" rest)) = None.
Proof.
  intros event rest. unfold _extract_field_value.
  destruct (event_payload event); reflexivity.
Qed.

(** X8. The prefix [sum_] is not one of the prefixes [_extract_numeric_value]
    removes (only [avg_], [max_] and [min_] are): a windowed condition on
    a field name that starts with [sum_] reads no number from any event,
    so its window receives no sample and [match_event] never emits a
    complex notification for it. *)
Theorem sum_prefix_is_never_sampled : forall (event : EcommerceEvent) (field : string),
  _extract_numeric_value event ("sum_" ++ field) = None
  /\ forall (now : Z) (self : SubscriptionMatcher) (n : Notification) (sid : string),
       In n (emitted (fst (match_event now event self))) ->
       is_complex_for sid ("sum_" ++ field) n = false.
Proof.
  intros event field.
  assert (Hnone : _extract_numeric_value event ("sum_" ++ field) = None).
  { unfold _extract_numeric_value, base_field. simpl.
    destruct (str_remove_keeps_su "avg_" (String "m" (String "_" field)))
      as [r1 ->]; [simpl; auto|].
    destruct (str_remove_keeps_su "max_" r1) as [r2 ->]; [simpl; auto|].
    destruct (str_remove_keeps_su "min_" r2) as [r3 ->]; [simpl; auto|].
    now rewrite _extract_field_value_su. }
  split; [exact Hnone|].
  remember ("sum_" ++ field)%string as name eqn:Hname. clear Hname.
  intros now self n sid Hin.
  destruct (match_event now event self) as [[out|e] self'] eqn:Hrun; [|contradiction].
  simpl in Hin.
  destruct (match_event_origin _ _ _ _ _ _ Hrun Hin)
    as [[A [HA ->]] | [S [c [a [v [HS [Hc [Ew [G [Hv [Ha ->]]]]]]]]]]];
    unfold is_complex_for; simpl.
  - apply andb_false_r.
  - destruct (String.eqb_spec (field_name c) name) as [E|E]; [|apply andb_false_r].
    rewrite E in Hv. congruence.
Qed.

(* ================================================================== *)
(** ** Registering an id again, and under both kinds *)

Lemma dict_get_del_same : forall (V : Type) (k : string) (d : dict V),
  NoDup (dict_keys d) -> dict_get k (dict_del k d) = None.
Proof. intros V k d H. now rewrite dict_get_del, String.eqb_refl. Qed.

Lemma length_dict_set : forall (V : Type) (k : string) (v : V) (d : dict V),
  List.length (dict_set k v d)
  = (List.length d + if dict_mem k d then 0 else 1)%nat.
Proof.
  intros V k v d. unfold dict_mem. induction d as [|[k' v'] d IH]; simpl; [reflexivity|].
  destruct (String.eqb k k'); simpl; [lia|]. rewrite IH. lia.
Qed.

Lemma length_dict_del : forall (V : Type) (k : string) (d : dict V),
  List.length (dict_del k d)
  = (List.length d - if dict_mem k d then 1 else 0)%nat.
Proof.
  intros V k d. unfold dict_mem. induction d as [|[k' v'] d IH]; simpl; [reflexivity|].
  destruct (String.eqb k k'); simpl; [lia|]. rewrite IH.
  destruct (dict_get k d) eqn:E; [|lia].
  destruct d; [discriminate | simpl; lia].
Qed.

Lemma dict_mem_length : forall (V : Type) (k : string) (d : dict V),
  dict_mem k d = true -> (1 <= List.length d)%nat.
Proof. intros V k [|p d]; [discriminate | simpl; lia]. Qed.

Lemma managers_for_other : forall (cfg : WindowConfig) (conds : list FilterCondition)
  (inner : dict WindowManager) (name : string),
  existsb (fun c => is_windowed c && String.eqb (field_name c) name) conds = false ->
  dict_get name (managers_for cfg conds inner) = dict_get name inner.
Proof.
  intros cfg conds. induction conds as [|c conds IH]; intros inner name H;
    [reflexivity|].
  simpl in H. apply orb_false_iff in H. destruct H as [Hc Hrest].
  change (managers_for cfg (c :: conds) inner)
    with (managers_for cfg conds
            (if is_windowed c then dict_set (field_name c) (fresh_manager cfg) inner
             else inner)).
  rewrite IH by assumption.
  destruct (is_windowed c); [|reflexivity]. simpl in Hc.
  rewrite dict_get_set. rewrite String.eqb_sym in Hc. now rewrite Hc.
Qed.

(** X9. Nothing keeps one id from being registered as a SIMPLE and as a
    COMPLEX subscription at once: [add_subscription] looks only at the map
    of the subscription's own kind. [remove_subscription] then removes one
    registration per call, the simple one first: after the first call the
    complex subscription is still registered with all its window managers,
    and only a second call removes it. *)
Theorem same_id_simple_and_complex : forall (A B : Subscription)
  (self : SubscriptionMatcher),
  sub_type A = SIMPLE -> sub_type B = COMPLEX ->
  subscription_id B = subscription_id A ->
  0 <= window_size (window_config B) ->
  NoDup (dict_keys (simple_subscriptions self)) ->
  NoDup (dict_keys (complex_subscriptions self)) ->
  NoDup (dict_keys (window_managers self)) ->
  let sid := subscription_id A in
  let both := snd (add_subscription B (snd (add_subscription A self))) in
  let once := snd (remove_subscription sid both) in
  let twice := snd (remove_subscription sid once) in
  dict_get sid (simple_subscriptions both) = Some A
  /\ dict_get sid (complex_subscriptions both) = Some B
  /\ dict_get sid (simple_subscriptions once) = None
  /\ complex_subscriptions once = complex_subscriptions both
  /\ window_managers once = window_managers both
  /\ dict_get sid (complex_subscriptions twice) = None
  /\ dict_get sid (window_managers twice) = None.
Proof.
  intros A B self HA HB Hid Hsize Hns Hnc Hnw sid both once twice.
  assert (Hboth : both
    = {| simple_subscriptions := dict_set sid A (simple_subscriptions self);
         complex_subscriptions := dict_set sid B (complex_subscriptions self);
         window_managers :=
           dict_set sid (managers_for (window_config B) (conditions B) [])
                    (window_managers self);
         subscription_contexts := dict_set sid tt (subscription_contexts self) |}).
  { unfold both. rewrite (add_subscription_run A) by now left.
    rewrite (add_subscription_run B) by (right; now left).
    rewrite HA, HB, Hid. reflexivity. }
  assert (Honce : once
    = {| simple_subscriptions := dict_del sid (dict_set sid A (simple_subscriptions self));
         complex_subscriptions := complex_subscriptions both;
         window_managers := window_managers both;
         subscription_contexts := subscription_contexts both |}).
  { unfold once. rewrite remove_subscription_run. rewrite Hboth. simpl.
    unfold dict_mem. now rewrite dict_get_set_same. }
  assert (Hgone : dict_get sid (simple_subscriptions once) = None).
  { rewrite Honce. simpl. apply dict_get_del_same. now apply NoDup_keys_set. }
  split; [rewrite Hboth; apply dict_get_set_same|].
  split; [rewrite Hboth; apply dict_get_set_same|].
  split; [exact Hgone|].
  split; [now rewrite Honce|]. split; [now rewrite Honce|].
  unfold twice. rewrite remove_subscription_run.
  apply dict_mem_false in Hgone. rewrite Hgone.
  assert (Hc : dict_mem sid (complex_subscriptions once) = true).
  { rewrite Honce, Hboth. simpl. unfold dict_mem. now rewrite dict_get_set_same. }
  assert (Hw : dict_mem sid (window_managers once) = true).
  { rewrite Honce, Hboth. simpl. unfold dict_mem. now rewrite dict_get_set_same. }
  rewrite Hc. simpl. rewrite Hw. split.
  - apply dict_get_del_same. rewrite Honce, Hboth. simpl. now apply NoDup_keys_set.
  - apply dict_get_del_same. rewrite Honce, Hboth. simpl. now apply NoDup_keys_set.
Qed.

(** X10. Registering a COMPLEX subscription again under an id that is
    already registered discards whatever its windows had buffered:
    afterwards the id has exactly one manager per field name with a
    windowed condition, each new and empty, and no other; the managers of
    every other id are untouched; and when the id was registered as
    COMPLEX before, it keeps its place in the iteration order and the
    statistics do not change. *)
Theorem add_subscription_again_resets_windows : forall (S : Subscription)
  (self : SubscriptionMatcher),
  sub_type S = COMPLEX ->
  0 <= window_size (window_config S) ->
  let self' := snd (add_subscription S self) in
  (forall name,
     manager_at self' (subscription_id S) name
     = if existsb (fun c => is_windowed c && String.eqb (field_name c) name)
                  (conditions S)
       then Some (fresh_manager (window_config S)) else None)
  /\ (forall sid name, sid <> subscription_id S ->
        manager_at self' sid name = manager_at self sid name)
  /\ (forall old, dict_get (subscription_id S) (complex_subscriptions self) = Some old ->
        dict_keys (complex_subscriptions self') = dict_keys (complex_subscriptions self)
        /\ get_statistics self' = get_statistics self).
Proof.
  intros S self HS Hsize self'.
  assert (Hrun : self'
    = {| simple_subscriptions := simple_subscriptions self;
         complex_subscriptions :=
           dict_set (subscription_id S) S (complex_subscriptions self);
         window_managers :=
           dict_set (subscription_id S)
             (managers_for (window_config S) (conditions S) []) (window_managers self);
         subscription_contexts :=
           dict_set (subscription_id S) tt (subscription_contexts self) |}).
  { unfold self'. rewrite (add_subscription_run S) by (right; now left).
    now rewrite HS. }
  split; [|split].
  - intros name. rewrite Hrun. unfold manager_at. simpl. rewrite dict_get_set_same.
    destruct (existsb _ (conditions S)) eqn:E.
    + apply existsb_exists in E. destruct E as [c [Hc Hw]].
      apply andb_true_iff in Hw. destruct Hw as [Hw Hn]. apply String.eqb_eq in Hn.
      subst name. now apply managers_for_has.
    + now rewrite managers_for_other.
  - intros sid name Hne. rewrite Hrun. unfold manager_at. simpl.
    now rewrite dict_get_set_other.
  - intros old Hold. rewrite Hrun. simpl. split.
    + now apply (dict_keys_set_present _ _ _ old).
    + unfold get_statistics. simpl. rewrite length_dict_set. unfold dict_mem.
      rewrite Hold. now rewrite Nat.add_0_r.
Qed.

(** X11. [get_statistics] counts the ids of the two maps. Registering a
    subscription raises the count of its kind by one when the id is new to
    the map of that kind and leaves it unchanged when the id is replaced;
    [remove_subscription] lowers by one the count of the map it deletes
    from (the simple map when the id is in both) and changes nothing for
    an unknown id; the total is always the sum of the two counts. *)
Theorem get_statistics_counts_ids : forall (self : SubscriptionMatcher),
  let stats := fun simple complex : Z =>
    [("simple_subscriptions", simple); ("complex_subscriptions", complex);
     ("total_subscriptions", simple + complex)] in
  let simple := Z.of_nat (List.length (dict_keys (simple_subscriptions self))) in
  let complex := Z.of_nat (List.length (dict_keys (complex_subscriptions self))) in
  get_statistics self = stats simple complex
  /\ (forall S, sub_type S = SIMPLE ->
        get_statistics (snd (add_subscription S self))
        = stats (simple + if dict_mem (subscription_id S) (simple_subscriptions self)
                          then 0 else 1) complex)
  /\ (forall S, sub_type S = COMPLEX -> 0 <= window_size (window_config S) ->
        get_statistics (snd (add_subscription S self))
        = stats simple
                (complex + if dict_mem (subscription_id S) (complex_subscriptions self)
                           then 0 else 1))
  /\ (forall sid,
        get_statistics (snd (remove_subscription sid self))
        = if dict_mem sid (simple_subscriptions self) then stats (simple - 1) complex
          else if dict_mem sid (complex_subscriptions self) then stats simple (complex - 1)
          else stats simple complex).
Proof.
  intros self stats simple complex. unfold simple, complex, dict_keys.
  rewrite !length_map. split; [reflexivity|]. split; [|split].
  - intros S HS. rewrite (add_subscription_run S) by now left. rewrite HS.
    unfold get_statistics, stats. simpl. rewrite length_dict_set.
    destruct (dict_mem _ _); repeat f_equal; lia.
  - intros S HS Hsize. rewrite (add_subscription_run S) by (right; now left).
    rewrite HS. unfold get_statistics, stats. simpl. rewrite length_dict_set.
    destruct (dict_mem _ _); repeat f_equal; lia.
  - intros sid. rewrite remove_subscription_run. simpl.
    destruct (dict_mem sid (simple_subscriptions self)) eqn:Es.
    + pose proof (dict_mem_length _ _ _ Es).
      unfold get_statistics, stats.
      cbn [simple_subscriptions complex_subscriptions].
      rewrite length_dict_del, Es. repeat f_equal; lia.
    + destruct (dict_mem sid (complex_subscriptions self)) eqn:Ec; [|reflexivity].
      pose proof (dict_mem_length _ _ _ Ec).
      unfold get_statistics, stats.
      cbn [simple_subscriptions complex_subscriptions].
      rewrite length_dict_del, Ec. repeat f_equal; lia.
Qed.

(* ================================================================== *)
(** ** A negative window size *)

Lemma setup_loop_raises : forall (S : Subscription) (conds : list FilterCondition)
  (self : SubscriptionMatcher),
  window_size (window_config S) < 0 ->
  existsb is_windowed conds = true ->
  iter (setup_condition S) conds self
  = (Raise (ValueError "maxlen must be non-negative"), self).
Proof.
  intros S conds self Hneg. induction conds as [|c conds IH]; intros H;
    [discriminate|].
  cbn [iter]. unfold bind, setup_condition. simpl in H.
  destruct (is_windowed c).
  - unfold lift, WindowManager_init.
    destruct (Z.ltb_spec (window_size (window_config S)) 0); [reflexivity | lia].
  - unfold ret. apply IH. exact H.
Qed.

Lemma unmanaged_conditions_raise : forall (now : Z) (event : EcommerceEvent)
  (S : Subscription) (conds : list FilterCondition) (self : SubscriptionMatcher),
  dict_get (subscription_id S) (window_managers self) = Some [] ->
  (exists c, In c conds /\ is_windowed c = true
             /\ _extract_numeric_value event (field_name c) <> None) ->
  exists c, In c conds /\ is_windowed c = true
            /\ for_each (process_windowed_condition now event S) conds self
               = (Raise (KeyError (field_name c)), self).
Proof.
  intros now event S conds self Hget. induction conds as [|c conds IH];
    intros [c0 [Hin [Hw Hv]]]; [contradiction|].
  cbn [for_each]. unfold bind.
  destruct (is_windowed c) eqn:Ew.
  - destruct (_extract_numeric_value event (field_name c)) as [v|] eqn:Ev.
    + exists c. split; [now left|]. split; [assumption|].
      unfold process_windowed_condition. rewrite Ew, Ev. unfold bind.
      rewrite window_add_value_run, Hget. reflexivity.
    + rewrite process_windowed_condition_idle by now right.
      destruct Hin as [->|Hin]; [congruence|].
      destruct IH as [c1 [H1 [H2 H3]]]; [eauto|].
      exists c1. split; [now right|]. split; [assumption|]. now rewrite H3.
  - rewrite process_windowed_condition_idle by now left.
    destruct Hin as [->|Hin]; [congruence|].
    destruct IH as [c1 [H1 [H2 H3]]]; [eauto|].
    exists c1. split; [now right|]. split; [assumption|]. now rewrite H3.
Qed.

(** X12. A COMPLEX subscription with a windowed condition and a negative
    window size makes [add_subscription] raise [ValueError], but only
    after the subscription was stored: it stays in the complex map, with
    an empty dictionary of window managers and a context. The broker
    answers the subscribe request with status "error" and does not record
    the subscriber's address. From then on the matching of this
    subscription raises [KeyError] on every event that passes its
    non-windowed gate and has a number for one of its windowed
    conditions. *)
Theorem add_subscription_negative_window_size : forall (S : Subscription)
  (self : SubscriptionMatcher),
  sub_type S = COMPLEX ->
  window_size (window_config S) < 0 ->
  existsb is_windowed (conditions S) = true ->
  let stored :=
    {| simple_subscriptions := simple_subscriptions self;
       complex_subscriptions :=
         dict_set (subscription_id S) S (complex_subscriptions self);
       window_managers := dict_set (subscription_id S) [] (window_managers self);
       subscription_contexts :=
         dict_set (subscription_id S) tt (subscription_contexts self) |} in
  add_subscription S self = (Raise (ValueError "maxlen must be non-negative"), stored)
  /\ (forall (address : string) (broker : EcommerceBroker),
        matcher broker = self ->
        _handle_subscriber_request (subscribe S address) broker
        = ({| response_status := "error";
              response_message := Some "maxlen must be non-negative";
              response_statistics := None |},
           set_matcher broker stored))
  /\ (forall (now : Z) (event : EcommerceEvent),
        non_windowed_match event S = true ->
        (exists c, In c (conditions S) /\ is_windowed c = true
                   /\ _extract_numeric_value event (field_name c) <> None) ->
        exists c, In c (conditions S) /\ is_windowed c = true
                  /\ _match_complex_subscription now event S stored
                     = (Raise (KeyError (field_name c)), stored)).
Proof.
  intros S self HS Hneg Hw stored.
  assert (Hadd : add_subscription S self
                 = (Raise (ValueError "maxlen must be non-negative"), stored)).
  { unfold add_subscription. rewrite HS.
    unfold bind at 1. unfold get at 1. unfold bind at 1. unfold set_complex at 1.
    unfold _setup_window_managers.
    unfold bind at 1. unfold get at 1. unfold bind at 1. unfold set_window_managers at 1.
    unfold bind at 1. unfold get at 1. unfold bind at 1. unfold set_contexts at 1.
    simpl. now rewrite setup_loop_raises. }
  split; [exact Hadd|]. split.
  - intros address broker <-. unfold _handle_subscriber_request. now rewrite Hadd.
  - intros now event Hgate Hsample. unfold _match_complex_subscription.
    rewrite Hgate. simpl. apply unmanaged_conditions_raise; [|assumption].
    simpl. apply dict_get_set_same.
Qed.

(* ================================================================== *)
(** ** Complementary operators of a non-windowed condition *)

Lemma string_leb_negb_ltb : forall x y : string,
  String.leb y x = negb (String.ltb x y).
Proof.
  intros x y. unfold String.leb, String.ltb.
  rewrite (String.compare_antisym x y). now destruct (String.compare y x).
Qed.

(** X13. Outside a window EQUAL and NOT_EQUAL are exact complements on
    every event that can be compared at all (the event has the field and,
    for a numeric field name, both sides convert with [float]), a NaN
    included, since [!=] is the negation of [==]; on an event that cannot
    be compared every operator is false, NOT_EQUAL too. On a string field
    GREATER_EQUAL is the complement of LESS_THAN and LESS_EQUAL the
    complement of GREATER_THAN. *)
Theorem evaluate_condition_complements : forall (event : EcommerceEvent)
  (c : FilterCondition),
  let holds := fun op => _evaluate_condition event (with_operator c op) in
  (comparable event c = false -> forall op, holds op = false)
  /\ (comparable event c = true -> holds NOT_EQUAL = negb (holds EQUAL))
  /\ (comparable event c = true ->
      existsb (String.eqb (field_name c)) numeric_fields = false ->
      holds GREATER_EQUAL = negb (holds LESS_THAN)
      /\ holds LESS_EQUAL = negb (holds GREATER_THAN)).
Proof.
  intros event c holds. unfold holds, comparable, _evaluate_condition, with_operator.
  cbn [field_name operator value].
  destruct (_extract_field_value event (field_name c)) as [fv|].
  - destruct (existsb (String.eqb (field_name c)) numeric_fields).
    + destruct (py_float fv) as [x|]; [destruct (float_of_str (value c)) as [y|]|];
        (split; [|split]); try discriminate; try reflexivity;
        intros; reflexivity.
    + split; [discriminate|]. split; [reflexivity|]. intros _ _.
      unfold compare_strings. split; apply string_leb_negb_ltb.
  - split; [reflexivity|]. split; discriminate.
Qed.

(* ================================================================== *)
(** ** The broker's listener and its control requests *)

Lemma fold_send_frame : forall (ns : list Notification) (self : EcommerceBroker),
  subscriber_addresses (fold_left _send_notification ns self) = subscriber_addresses self
  /\ events_processed (fold_left _send_notification ns self) = events_processed self.
Proof.
  induction ns as [|n ns IH]; intros self; simpl; [now split|].
  destruct (IH (_send_notification self n)) as [-> ->]. now split.
Qed.

(** One event through [_process_publisher_event], in terms of the
    [match_event] call it makes. *)
Lemma _process_publisher_event_run : forall (now : Z) (event : EcommerceEvent)
  (self : EcommerceBroker),
  let r := match_event now event (matcher self) in
  let after := _process_publisher_event now event self in
  matcher after = snd r
  /\ published after
     = published self ++ map (fun n => (n_subscriber_id n, n)) (emitted (fst r))
  /\ events_processed after = events_processed self + 1
  /\ notifications_sent after
     = notifications_sent self + Z.of_nat (List.length (emitted (fst r)))
  /\ subscriber_addresses after = subscriber_addresses self.
Proof.
  intros now event self. unfold _process_publisher_event, _handle_event. simpl.
  destruct (match_event now event (matcher self)) as [[out|e] m]; simpl.
  - destruct (fold_send_published out (set_matcher self m)) as [-> [-> ->]].
    destruct (fold_send_frame out (set_matcher self m)) as [-> ->].
    now repeat split.
  - rewrite app_nil_r. repeat split. lia.
Qed.

(** The listener runs [match_events] on the broker's matcher and
    publishes what it emits, each message under the subscriber id of its
    notification. *)
Lemma _publisher_listener_run : forall (events : list (Z * EcommerceEvent))
  (self : EcommerceBroker),
  let r := match_events events (matcher self) in
  let after := _publisher_listener events self in
  matcher after = snd r
  /\ published after = published self ++ map (fun n => (n_subscriber_id n, n)) (fst r)
  /\ events_processed after = events_processed self + Z.of_nat (List.length events)
  /\ notifications_sent after
     = notifications_sent self + Z.of_nat (List.length (fst r))
  /\ subscriber_addresses after = subscriber_addresses self.
Proof.
  induction events as [|[now event] events IH]; intros self.
  - simpl. rewrite app_nil_r. repeat split; lia.
  - cbn zeta. unfold _publisher_listener. cbn [fold_left fst snd].
    fold (_publisher_listener events (_process_publisher_event now event self)).
    destruct (IH (_process_publisher_event now event self)) as [H1 [H2 [H3 [H4 H5]]]].
    destruct (_process_publisher_event_run now event self) as [G1 [G2 [G3 [G4 G5]]]].
    rewrite H1, H2, H3, H4, H5, G1, G2, G3, G4, G5. clear.
    cbn [match_events].
    destruct (match_event now event (matcher self)) as [r s1]. cbn [fst snd].
    destruct (match_events events s1) as [out s2]. cbn [fst snd].
    rewrite map_app, length_app, <- app_assoc. cbn [List.length].
    repeat split; lia.
Qed.

(** X14. The broker's counters are faithful. After the listener handled
    a sequence of events, [events_processed] has grown by the number of
    events, those whose matching raised included; [notifications_sent]
    has grown by exactly the number of messages handed to the subscriber
    socket; the published sequence only grows, every message is published
    under the subscriber id its notification carries, and the subscriber
    addresses are untouched. *)
Theorem publisher_listener_counters : forall (events : list (Z * EcommerceEvent))
  (self : EcommerceBroker),
  let after := _publisher_listener events self in
  events_processed after = events_processed self + Z.of_nat (List.length events)
  /\ subscriber_addresses after = subscriber_addresses self
  /\ exists sent : list Notification,
       published after = published self ++ map (fun n => (n_subscriber_id n, n)) sent
       /\ notifications_sent after
          = notifications_sent self + Z.of_nat (List.length sent)
       /\ sent = fst (match_events events (matcher self)).
Proof.
  intros events self after.
  destruct (_publisher_listener_run events self) as [_ [H2 [H3 [H4 H5]]]].
  split; [exact H3|]. split; [exact H5|].
  exists (fst (match_events events (matcher self))). now repeat split.
Qed.

(** X15. Notifications are routed to the subscriber of the subscription
    that produced them: every message the listener publishes carries, as
    its topic and in its notification, the subscriber id of a subscription
    that was registered in the broker's matcher, together with the id of
    that subscription. The table of subscriber addresses plays no part. *)
Theorem published_to_registered_subscriber : forall (events : list (Z * EcommerceEvent))
  (self : EcommerceBroker) (topic : string) (n : Notification),
  In (topic, n) (published (_publisher_listener events self)) ->
  In (topic, n) (published self)
  \/ exists S,
       (In S (dict_values (simple_subscriptions (matcher self)))
        \/ In S (dict_values (complex_subscriptions (matcher self))))
       /\ topic = subscriber_id S
       /\ n_subscriber_id n = subscriber_id S
       /\ n_subscription_id n = subscription_id S.
Proof.
  intros events self topic n Hin.
  destruct (_publisher_listener_run events self) as [_ [H2 _]].
  rewrite H2 in Hin. apply in_app_or in Hin. destruct Hin as [Hin|Hin]; [now left|].
  right. apply in_map_iff in Hin. destruct Hin as [n' [[= <- <-] Hn]].
  destruct (match_events_In _ _ _ Hn)
    as [now [event [s1 [s2 [out [_ [[Hsimple [Hcomplex _]] [Hrun Hout]]]]]]]].
  destruct (match_event_origin _ _ _ _ _ _ Hrun Hout)
    as [[S [HS ->]] | [S [c [a [v [HS [_ [_ [_ [_ [_ ->]]]]]]]]]]].
  - exists S. rewrite Hsimple in HS. simpl. auto.
  - exists S. rewrite Hcomplex in HS. simpl. auto.
Qed.

Lemma set_matcher_same : forall self : EcommerceBroker,
  set_matcher self (matcher self) = self.
Proof. now destruct self. Qed.

(** X16. Requests that change nothing. A status request answers
    "success" with the three counts of the matcher followed by the two
    counters of the broker; a request of an unknown type answers "error"
    with the message "Unknown request type"; an unsubscribe request
    answers "success" whether or not the id is known. None of the three
    changes the broker when the id is unknown, and none of them ever
    publishes or counts anything. *)
Theorem requests_that_change_nothing : forall (self : EcommerceBroker),
  _handle_subscriber_request status self
  = ({| response_status := "success"; response_message := None;
        response_statistics :=
          Some [("simple_subscriptions",
                 Z.of_nat (List.length (simple_subscriptions (matcher self))));
                ("complex_subscriptions",
                 Z.of_nat (List.length (complex_subscriptions (matcher self))));
                ("total_subscriptions",
                 Z.of_nat (List.length (simple_subscriptions (matcher self)))
                 + Z.of_nat (List.length (complex_subscriptions (matcher self))));
                ("events_processed", events_processed self);
                ("notifications_sent", notifications_sent self)] |},
     self)
  /\ (forall type : string,
        _handle_subscriber_request (other_request type) self
        = ({| response_status := "error";
              response_message := Some "Unknown request type";
              response_statistics := None |},
           self))
  /\ (forall sid : string,
        fst (_handle_subscriber_request (unsubscribe sid) self)
        = {| response_status := "success";
             response_message := Some ("Subscription " ++ sid ++ " removed")%string;
             response_statistics := None |}
        /\ published (snd (_handle_subscriber_request (unsubscribe sid) self))
           = published self
        /\ subscriber_addresses (snd (_handle_subscriber_request (unsubscribe sid) self))
           = subscriber_addresses self
        /\ (dict_get sid (simple_subscriptions (matcher self)) = None ->
            dict_get sid (complex_subscriptions (matcher self)) = None ->
            snd (_handle_subscriber_request (unsubscribe sid) self) = self)).
Proof.
  intros self. split; [reflexivity|]. split; [reflexivity|].
  intros sid. unfold _handle_subscriber_request.
  rewrite remove_subscription_run. simpl. repeat split.
  intros Hs Hc. apply dict_mem_false in Hs, Hc. rewrite Hs, Hc.
  apply set_matcher_same.
Qed.

Lemma remove_after_add : forall (S : Subscription) (self : SubscriptionMatcher),
  registrable S -> consistent self ->
  dict_get (subscription_id S) (simple_subscriptions self) = None ->
  dict_get (subscription_id S) (complex_subscriptions self) = None ->
  remove_subscription (subscription_id S) (snd (add_subscription S self)) = (Ok tt, self).
Proof.
  intros S self Hreg Hcons Hs Hc.
  destruct (proj2 (proj2 Hcons) (subscription_id S) Hc) as [Hw Hx].
  rewrite add_subscription_run by assumption.
  rewrite remove_subscription_run. f_equal.
  destruct (sub_type S);
    cbn beta iota delta [snd simple_subscriptions complex_subscriptions window_managers
                         subscription_contexts].
  - unfold dict_mem. rewrite dict_get_set_same.
    rewrite dict_del_set_fresh by assumption. now destruct self.
  - unfold dict_mem. rewrite Hs, !dict_get_set_same.
    rewrite !dict_del_set_fresh by assumption. now destruct self.
Qed.

(** X17. The broker never forgets a subscriber address. A successful
    subscribe request records the address under the subscriber id of the
    subscription; no request and no event removes an entry. Subscribing
    and then unsubscribing a new id returns the matcher to the state it
    had and answers "success" twice, but the address stays recorded. *)
Theorem subscriber_addresses_are_never_removed : forall (self : EcommerceBroker),
  (forall (request : Request) (k : string),
     dict_mem k (subscriber_addresses self) = true ->
     dict_mem k (subscriber_addresses (snd (_handle_subscriber_request request self)))
     = true)
  /\ (forall (S : Subscription) (address : string),
        registrable S -> consistent (matcher self) ->
        dict_get (subscription_id S) (simple_subscriptions (matcher self)) = None ->
        dict_get (subscription_id S) (complex_subscriptions (matcher self)) = None ->
        let subscribed := _handle_subscriber_request (subscribe S address) self in
        let unsubscribed :=
          _handle_subscriber_request (unsubscribe (subscription_id S)) (snd subscribed) in
        response_status (fst subscribed) = "success"
        /\ response_status (fst unsubscribed) = "success"
        /\ matcher (snd unsubscribed) = matcher self
        /\ dict_get (subscriber_id S) (subscriber_addresses (snd unsubscribed))
           = Some address).
Proof.
  intros self. split.
  - intros request k Hk. destruct request as [S address|sid| |type]; simpl;
      try assumption.
    + destruct (add_subscription S (matcher self)) as [[[]|e] m]; simpl;
        [|assumption].
      unfold dict_mem. rewrite dict_get_set.
      destruct (String.eqb k (subscriber_id S)); [reflexivity | exact Hk].
    + now destruct (remove_subscription sid (matcher self)) as [[[]|e] m].
  - intros S address Hreg Hcons Hs Hc subscribed unsubscribed.
    pose proof (remove_after_add S (matcher self) Hreg Hcons Hs Hc) as Hback.
    unfold unsubscribed, subscribed. unfold _handle_subscriber_request.
    rewrite add_subscription_run in * by assumption.
    cbn [fst snd matcher] in *. rewrite Hback. cbn. repeat split.
    apply dict_get_set_same.
Qed.

(* ================================================================== *)
(** ** The subscriber's record of what it received *)

Lemma last_items_all : forall (A : Type) (k : nat) (l : list A),
  (List.length l <= k)%nat -> last_items k l = l.
Proof.
  intros A k l H. unfold last_items.
  replace (List.length l - k)%nat with O by lia. reflexivity.
Qed.

Lemma length_last_items : forall (A : Type) (k : nat) (l : list A),
  (List.length (last_items k l) <= k)%nat.
Proof. intros A k l. unfold last_items. rewrite length_skipn. lia. Qed.

Lemma last_items_trim : forall (A : Type) (k : nat) (a r : list A),
  last_items k (last_items k a ++ r) = last_items k (a ++ r).
Proof.
  intros A k a r. destruct (Nat.le_gt_cases (List.length a) k) as [Hle|Hgt].
  - now rewrite (last_items_all _ k a).
  - unfold last_items. rewrite !length_app, length_skipn.
    replace (List.length a - (List.length a - k) + List.length r - k)%nat
      with (List.length r) by lia.
    replace (List.length a + List.length r - k)%nat
      with (List.length r + (List.length a - k))%nat by lia.
    rewrite <- skipn_skipn. f_equal.
    rewrite skipn_app.
    replace (List.length a - k - List.length a)%nat with O by lia. reflexivity.
Qed.

Lemma deque_append_item_last : forall (A : Type) (k : nat) (d : list A) (x : A),
  (1 <= k)%nat -> (List.length d <= k)%nat ->
  deque_append_item (Z.of_nat k) d x = last_items k (d ++ [x]).
Proof.
  intros A k d x Hk Hd. unfold deque_append_item, last_items.
  rewrite length_app. simpl.
  destruct (Z.ltb_spec (Z.of_nat k) (Z.of_nat (List.length d + 1))) as [H|H].
  - replace (List.length d + 1 - k)%nat with 1%nat by lia.
    destruct (d ++ [x]); reflexivity.
  - replace (List.length d + 1 - k)%nat with O by lia. reflexivity.
Qed.

Lemma _process_notification_run : forall (current_time : Z) (n : Notification)
  (self : EcommerceSubscriber),
  (List.length (recent_notifications self) <= 50)%nat ->
  recent_notifications (_process_notification current_time n self)
  = last_items 50 (recent_notifications self ++ [n])
  /\ latencies (_process_notification current_time n self)
     = last_items 1000 (latencies self ++ [current_time - n_timestamp n]).
Proof.
  intros current_time n self Hrecent. unfold _process_notification.
  cbn [recent_notifications latencies]. split.
  - change 50 with (Z.of_nat 50).
    apply deque_append_item_last; [lia | assumption].
  - destruct (Z.ltb_spec 1000
                (Z.of_nat (List.length (latencies self ++ [current_time - n_timestamp n]))));
      [reflexivity|].
    symmetry. apply last_items_all. lia.
Qed.

(** X18. The subscriber remembers a bounded past. After a listener
    processed a sequence of notifications, [recent_notifications] holds
    the last 50 notifications received, in arrival order, and [latencies]
    the latencies of the last 1000; [notifications_received] has grown by
    the number of notifications, and each one was counted once, as simple
    or as complex. *)
Theorem notification_listener_keeps_last : forall (received : list (Z * Notification))
  (self : EcommerceSubscriber),
  (List.length (recent_notifications self) <= 50)%nat ->
  (List.length (latencies self) <= 1000)%nat ->
  let after := _notification_listener received self in
  recent_notifications after
  = last_items 50 (recent_notifications self ++ map snd received)
  /\ latencies after
     = last_items 1000
         (latencies self ++ map (fun p => fst p - n_timestamp (snd p)) received)
  /\ notifications_received after
     = notifications_received self + Z.of_nat (List.length received)
  /\ simple_notifications after
     = simple_notifications self
       + Z.of_nat (List.length (filter is_simple (map snd received)))
  /\ complex_notifications after
     = complex_notifications self
       + Z.of_nat (List.length (filter (fun n => negb (is_simple n)) (map snd received))).
Proof.
  clear str_of_float float_of_str.
  induction received as [|[t n] received IH]; intros self Hrecent Hlat.
  - cbn. rewrite !app_nil_r, !last_items_all by assumption.
    repeat split; lia.
  - cbn zeta. unfold _notification_listener. cbn [fold_left fst snd].
    fold (_notification_listener received (_process_notification t n self)).
    destruct (_process_notification_run t n self Hrecent) as [Hr Hl].
    destruct (IH (_process_notification t n self)) as [H1 [H2 [H3 [H4 H5]]]].
    { rewrite Hr. apply length_last_items. }
    { rewrite Hl. apply length_last_items. }
    rewrite H1, H2, H3, H4, H5, Hr, Hl, !last_items_trim, <- !app_assoc.
    cbn [map fst snd app filter List.length notifications_received
         simple_notifications complex_notifications _process_notification].
    repeat split; try lia.
    + unfold is_simple. destruct (body n); cbn [negb List.length]; lia.
    + unfold is_simple. destruct (body n); cbn [negb List.length]; lia.
Qed.

(* ================================================================== *)
(** ** The matcher feeds each window the samples of its subscription *)

Lemma fired_app : forall xs ys : list (result (bool * option float)),
  fired (xs ++ ys) = fired xs ++ fired ys.
Proof. intros. unfold fired. apply flat_map_app. Qed.

Lemma reported_app : forall (sid name : string) (xs ys : list Notification),
  reported sid name (xs ++ ys) = reported sid name xs ++ reported sid name ys.
Proof. intros. unfold reported. apply flat_map_app. Qed.

Lemma reported_none : forall (sid name : string) (ns : list Notification),
  (forall n, In n ns -> is_complex_for sid name n = false) ->
  reported sid name ns = [].
Proof.
  intros sid name ns. induction ns as [|n ns IH]; intros H; [reflexivity|].
  unfold reported in *. simpl. rewrite (H n (or_introl eq_refl)). simpl.
  apply IH. intros n' Hn'. apply H. now right.
Qed.

Lemma feeds_exactly_for_each : forall (A : Type) (sid name : string)
  (c : FilterCondition) (f : A -> M (list Notification)) (g : A -> list float)
  (l : list A),
  (forall a, In a l -> feeds_exactly sid name c (f a) (g a)) ->
  feeds_exactly sid name c (for_each f l) (flat_map g l).
Proof.
  intros A sid name c f g l. induction l as [|a l IH]; intros Hf self out self' w Hw.
  - simpl. intros [= <- <-]. now split.
  - cbn [for_each]. unfold bind.
    destruct (f a self) as [[xs|e] s1] eqn:E1; [|discriminate].
    destruct (for_each f l s1) as [[ys|e] s2] eqn:E2; [|discriminate].
    unfold ret. intros [= <- <-].
    destruct (Hf a (or_introl eq_refl) self xs s1 w Hw E1) as [Hw1 Hr1].
    destruct (IH (fun a' Ha' => Hf a' (or_intror Ha')) s1 ys s2 _ Hw1 E2) as [Hw2 Hr2].
    cbn [flat_map]. rewrite add_values_app. cbn [fst snd].
    split; [exact Hw2|].
    now rewrite reported_app, fired_app, filter_app, Hr1, Hr2.
Qed.

Lemma flat_map_none : forall (A B : Type) (p : A -> bool) (h : A -> list B) (l : list A),
  filter p l = [] -> flat_map (fun x => if p x then h x else []) l = [].
Proof.
  intros A B p h l. induction l as [|x l IH]; simpl; [reflexivity|].
  destruct (p x); [discriminate | exact IH].
Qed.

Lemma flat_map_only : forall (A B : Type) (p : A -> bool) (h : A -> list B)
  (l : list A) (c : A),
  filter p l = [c] -> flat_map (fun x => if p x then h x else []) l = h c.
Proof.
  intros A B p h l c. induction l as [|x l IH]; simpl; [discriminate|].
  destruct (p x) eqn:E.
  - intros [= -> Hrest]. rewrite flat_map_none by assumption. apply app_nil_r.
  - exact IH.
Qed.

Lemma flat_map_registered : forall (h : Subscription -> list float)
  (l : list Subscription) (S : Subscription),
  NoDup (map subscription_id l) -> In S l ->
  flat_map (fun S' => if String.eqb (subscription_id S') (subscription_id S)
                      then h S' else []) l
  = h S.
Proof.
  intros h l S. induction l as [|x l IH]; simpl; [contradiction|].
  intros Hnd Hin. inversion Hnd as [|? ? Hx Hl]; subst.
  destruct Hin as [->|Hin].
  - rewrite String.eqb_refl.
    rewrite (flat_map_none _ _ (fun S' => String.eqb (subscription_id S') (subscription_id S))).
    + apply app_nil_r.
    + clear IH Hnd Hl. induction l as [|y l IHl]; simpl; [reflexivity|].
      destruct (String.eqb_spec (subscription_id y) (subscription_id S)) as [E|E].
      * exfalso. apply Hx. simpl. left. exact E.
      * apply IHl. intros H. apply Hx. simpl. now right.
  - destruct (String.eqb_spec (subscription_id x) (subscription_id S)) as [E|E].
    + exfalso. apply Hx. rewrite E. now apply in_map.
    + simpl. now apply IH.
Qed.

(** One windowed condition of [S]: it feeds the manager under [name] the
    number of the event when its field name is [name], nothing otherwise. *)
Lemma process_windowed_condition_feeds_exactly : forall (now : Z)
  (event : EcommerceEvent) (S : Subscription) (c c' : FilterCondition) (name : string),
  (is_windowed c' && String.eqb (field_name c') name = true -> c' = c) ->
  feeds_exactly (subscription_id S) name c
    (process_windowed_condition now event S c')
    (if is_windowed c' && String.eqb (field_name c') name then
       match _extract_numeric_value event name with
       | Some v => [v]
       | None => []
       end
     else []).
Proof.
  intros now event S c c' name Hc self out self' w Hw Hrun.
  destruct (is_windowed c' && String.eqb (field_name c') name) eqn:E.
  - specialize (Hc eq_refl). subst c'.
    apply andb_true_iff in E. destruct E as [Ew En]. apply String.eqb_eq in En.
    revert Hrun. unfold process_windowed_condition. rewrite Ew, En.
    destruct (_extract_numeric_value event name) as [v|];
      [|intros [= <- <-]; now split].
    unfold bind. rewrite window_add_value_run.
    unfold manager_at in Hw.
    destruct (dict_get (subscription_id S) (window_managers self)) as [inner|] eqn:Hget;
      [|discriminate].
    rewrite Hw.
    assert (Hat : forall m,
              manager_at (with_window_managers self
                            (dict_set (subscription_id S) (dict_set name m inner)
                                      (window_managers self)))
                         (subscription_id S) name = Some m).
    { intros m. rewrite (manager_at_update _ _ _ _ _ _ _ Hget).
      now rewrite !String.eqb_refl. }
    cbn [add_values]. destruct (add_value v w) as [[r|e] w'] eqn:Ev; cbn [fst snd];
      [|discriminate].
    unfold fired. cbn [flat_map].
    destruct r as [[|] [a|]]; unfold ret; try (intros [= <- <-]; now split).
    rewrite app_nil_r. cbn [filter].
    destruct (_evaluate_windowed_condition a c) eqn:Ea; intros [= <- <-];
      (split; [apply Hat|]); [|reflexivity].
    unfold reported, is_complex_for. cbn. now rewrite En, !String.eqb_refl.
  - assert (Hsame : manager_at self' (subscription_id S) name = Some w).
    { rewrite <- Hw.
      apply (process_windowed_condition_other _ _ _ _ _ _ _ _ _ Hrun).
      destruct (is_windowed c'); [|now right; right; left].
      simpl in E. right. left. intros Hn. rewrite Hn, String.eqb_refl in E.
      discriminate. }
    split; [exact Hsame|]. cbn.
    apply reported_none. intros n Hn.
    destruct (process_windowed_condition_fired _ _ _ _ _ _ _ _ Hrun Hn)
      as [Ew [_ [a [_ ->]]]].
    unfold is_complex_for. cbn. rewrite Ew in E. simpl in E. rewrite E.
    apply andb_false_r.
Qed.

Lemma _match_complex_subscription_feeds_exactly : forall (now : Z)
  (event : EcommerceEvent) (S : Subscription) (c : FilterCondition) (name : string),
  windowed_on name S = [c] ->
  feeds_exactly (subscription_id S) name c
    (_match_complex_subscription now event S) (event_samples S name event).
Proof.
  intros now event S c name Hc. unfold _match_complex_subscription, event_samples.
  destruct (non_windowed_match event S); simpl.
  - rewrite <- (flat_map_only _ _
                  (fun c' => is_windowed c' && String.eqb (field_name c') name)
                  (fun _ => match _extract_numeric_value event name with
                            | Some v => [v]
                            | None => []
                            end)
                  (conditions S) c Hc).
    apply feeds_exactly_for_each. intros c' Hc'.
    apply process_windowed_condition_feeds_exactly. intros E.
    assert (Hin : In c' (windowed_on name S)) by (apply filter_In; now split).
    rewrite Hc in Hin. destruct Hin as [<-|[]]. reflexivity.
  - intros self out self' w Hw [= <- <-]. now split.
Qed.

Lemma _match_complex_subscription_feeds_nothing : forall (now : Z)
  (event : EcommerceEvent) (S' : Subscription) (c : FilterCondition)
  (sid name : string),
  subscription_id S' <> sid ->
  feeds_exactly sid name c (_match_complex_subscription now event S') [].
Proof.
  intros now event S' c sid name Hne self out self' w Hw Hrun. cbn. split.
  - rewrite <- Hw. revert Hrun. unfold _match_complex_subscription.
    destruct (negb _); [now intros [= _ <-]|].
    apply (for_each_preserves _ _
             (fun s1 s2 => manager_at s2 sid name = manager_at s1 sid name));
      [reflexivity | intros; congruence |].
    intros c' s1 s2 r _ Hc'.
    apply (process_windowed_condition_other _ _ _ _ _ _ _ _ _ Hc'). now left.
  - apply reported_none. intros n Hn.
    destruct (_match_complex_subscription_Ok _ _ _ _ _ _ Hrun) as [picks [-> _]].
    apply in_map_iff in Hn. destruct Hn as [[c' a] [<- _]].
    unfold is_complex_for. cbn.
    destruct (String.eqb_spec (subscription_id S') sid); [contradiction | reflexivity].
Qed.

Lemma match_event_feeds_exactly : forall (now : Z) (event : EcommerceEvent)
  (self self' : SubscriptionMatcher) (S : Subscription) (c : FilterCondition)
  (name : string) (w : WindowManager) (out : list Notification),
  registry_ok (complex_subscriptions self) ->
  In S (dict_values (complex_subscriptions self)) ->
  windowed_on name S = [c] ->
  manager_at self (subscription_id S) name = Some w ->
  match_event now event self = (Ok out, self') ->
  manager_at self' (subscription_id S) name
  = Some (snd (add_values (event_samples S name event) w))
  /\ reported (subscription_id S) name out
     = filter (fun a => _evaluate_windowed_condition a c)
              (fired (fst (add_values (event_samples S name event) w))).
Proof.
  intros now event self self' S c name w out Hok HS Hc Hw Hrun.
  rewrite match_event_run in Hrun.
  destruct (for_each _ _ self) as [[cs|e] s] eqn:E; [|discriminate].
  injection Hrun as <- <-.
  assert (Hfeeds : feeds_exactly (subscription_id S) name c
            (for_each (_match_complex_subscription now event)
                      (dict_values (complex_subscriptions self)))
            (flat_map (fun S' => if String.eqb (subscription_id S') (subscription_id S)
                                 then event_samples S' name event else [])
                      (dict_values (complex_subscriptions self)))).
  { apply feeds_exactly_for_each. intros S' HS'.
    destruct (String.eqb_spec (subscription_id S') (subscription_id S)) as [Hid|Hid].
    - assert (S' = S) by (eapply registry_ok_unique; eassumption). subst S'.
      now apply _match_complex_subscription_feeds_exactly.
    - now apply _match_complex_subscription_feeds_nothing. }
  rewrite flat_map_registered in Hfeeds;
    [|rewrite registry_ok_ids by assumption; apply Hok | assumption].
  destruct (Hfeeds self cs s w Hw E) as [H1 H2]. split; [exact H1|].
  rewrite reported_app, H2.
  rewrite reported_none; [reflexivity|].
  intros n Hn. rewrite match_simple_subscriptions_filter in Hn.
  apply in_map_iff in Hn. destruct Hn as [A [<- _]].
  unfold is_complex_for. cbn. apply andb_false_r.
Qed.

(** X19. On a valid matcher the window of a complex subscription [S]
    under a field name with one windowed condition [c] receives exactly
    the numbers of the events that pass the non-windowed gate of [S] and
    have a number for the base field, one per event and in arrival order:
    after any sequence of events its manager is the one those
    [add_value] calls leave, and the complex notifications for it report,
    in order, exactly the aggregates those calls fired that satisfy [c].
    Events for other subscriptions and other fields do not interfere. *)
Theorem window_receives_the_samples : forall (events : list (Z * EcommerceEvent))
  (self : SubscriptionMatcher) (S : Subscription) (c : FilterCondition)
  (name : string) (w : WindowManager),
  valid self ->
  In S (dict_values (complex_subscriptions self)) ->
  windowed_on name S = [c] ->
  manager_at self (subscription_id S) name = Some w ->
  let fed := add_values (samples S name events) w in
  manager_at (snd (match_events events self)) (subscription_id S) name = Some (snd fed)
  /\ reported (subscription_id S) name (fst (match_events events self))
     = filter (fun a => _evaluate_windowed_condition a c) (fired (fst fed)).
Proof.
  induction events as [|[now event] events IH]; intros self S c name w Hvalid HS Hc Hw.
  - cbn. now split.
  - cbn zeta. cbn [match_events samples flat_map snd].
    fold (samples S name events).
    destruct (match_event_valid now event self Hvalid)
      as [out [self1 [Hrun [Hvalid1 [_ [Hcomplex _]]]]]].
    rewrite Hrun.
    destruct (match_event_feeds_exactly now event self self1 S c name w out)
      as [Hw1 Hr1]; try assumption.
    { now destruct Hvalid as [_ [H _]]. }
    specialize (IH self1 S c name
                  (snd (add_values (event_samples S name event) w)) Hvalid1).
    rewrite Hcomplex in IH. specialize (IH HS Hc Hw1). cbn zeta in IH.
    destruct IH as [Hw2 Hr2].
    destruct (match_events events self1) as [outs self2]. cbn [fst snd emitted] in *.
    rewrite add_values_app. cbn [fst snd].
    split; [exact Hw2|].
    now rewrite reported_app, fired_app, filter_app, Hr1, Hr2.
Qed.

(* ================================================================== *)
(** ** Calls that cannot raise, and subscriptions that cannot match *)

Lemma run_call_valid : forall (c : Call) (self : SubscriptionMatcher),
  valid self -> sized c ->
  fst (run_call c self) = None /\ valid (snd (run_call c self)).
Proof.
  intros c self Hvalid Hc. destruct c as [S|sid|now event]; simpl.
  - destruct (valid_add_subscription S self Hvalid Hc) as [s [-> Hs]]. now split.
  - destruct (valid_remove_subscription sid self Hvalid) as [s [-> Hs]]. now split.
  - destruct (match_event_valid now event self Hvalid) as [out [s [-> [Hs _]]]].
    now split.
Qed.

(** X20. While every complex subscription that is registered has a
    window size of at least one, nothing raises: in any sequence of
    [add_subscription], [remove_subscription] and [match_event] calls on
    a valid matcher (a new one, for instance) every call returns, and the
    matcher stays valid. *)
Theorem sized_calls_never_raise : forall (calls : list Call) (self : SubscriptionMatcher),
  valid self ->
  Forall sized calls ->
  fst (run_calls calls self) = repeat None (List.length calls)
  /\ valid (snd (run_calls calls self)).
Proof.
  induction calls as [|c calls IH]; intros self Hvalid Hall; [now split|].
  inversion Hall as [|? ? Hc Hrest]; subst.
  destruct (run_call_valid c self Hvalid Hc) as [Hnone Hvalid1].
  cbn [run_calls]. destruct (run_call c self) as [e self1]. cbn [fst snd] in *.
  destruct (IH self1 Hvalid1 Hrest) as [Hes Hvalid2].
  destruct (run_calls calls self1) as [es self2]. cbn [fst snd] in *.
  split; [|exact Hvalid2]. now rewrite Hnone, Hes.
Qed.

Lemma different_events_disjoint : forall (n1 n2 : string) (event : EcommerceEvent),
  different_events n1 n2 = true ->
  _extract_field_value event n1 = None \/ _extract_field_value event n2 = None.
Proof.
  intros n1 n2 event. unfold different_events, only_in.
  cbn [existsb].
  repeat match goal with
         | |- context [String.eqb ?n ?s] =>
             destruct (String.eqb_spec n s); [subst n|]; cbn [orb]
         end;
    try discriminate; intros _;
    unfold _extract_field_value; destruct (event_payload event);
    cbn; auto.
Qed.

(** X21. Conditions on fields of different events can never hold
    together. The names [price] and [quantity] exist on purchases only,
    [view_duration] and [source] on product views only, [stock_level] and
    [operation] on inventory updates only, [rating] and [review_text] on
    user ratings only. A subscription with conditions on two names of
    different groups is accepted, but no event has both fields: as a
    SIMPLE subscription it matches no event, and as a COMPLEX one with
    the first as a non-windowed condition it samples no event for a
    windowed condition whose base field is the second. *)
Theorem conditions_on_different_events_never_match : forall (n1 n2 : string),
  different_events n1 n2 = true ->
  (forall event,
     _extract_field_value event n1 = None \/ _extract_field_value event n2 = None)
  /\ (forall S event c1 c2,
        In c1 (conditions S) -> In c2 (conditions S) ->
        field_name c1 = n1 -> field_name c2 = n2 ->
        _match_simple_subscription event S = false)
  /\ (forall S event c1 name,
        In c1 (conditions S) -> is_windowed c1 = false ->
        field_name c1 = n1 -> base_field name = n2 ->
        sampled S name event = false).
Proof.
  intros n1 n2 Hdiff.
  assert (Hnone : forall event c, _extract_field_value event (field_name c) = None ->
                                  _evaluate_condition event c = false).
  { intros event c H. unfold _evaluate_condition. now rewrite H. }
  split; [intros event; now apply different_events_disjoint|]. split.
  - intros S event c1 c2 H1 H2 E1 E2. unfold _match_simple_subscription.
    destruct (forallb (_evaluate_condition event) (conditions S)) eqn:E; [|reflexivity].
    rewrite forallb_forall in E.
    destruct (different_events_disjoint n1 n2 event Hdiff) as [H|H].
    + rewrite <- E1 in H. apply Hnone in H. rewrite (E c1 H1) in H. discriminate.
    + rewrite <- E2 in H. apply Hnone in H. rewrite (E c2 H2) in H. discriminate.
  - intros S event c1 name H1 Hw E1 E2. unfold sampled.
    destruct (non_windowed_match event S) eqn:G; [|reflexivity]. simpl.
    pose proof (non_windowed_match_conditions event S G c1 H1 Hw) as Hc1.
    destruct (different_events_disjoint n1 n2 event Hdiff) as [H|H].
    + rewrite <- E1 in H. apply Hnone in H. congruence.
    + unfold _extract_numeric_value. now rewrite E2, H.
Qed.

(** X22. The reset of the evaluation script clears the two subscription
    maps only. Afterwards the statistics are zero and [match_event]
    returns no notification for any event, without touching the matcher;
    but the window managers and contexts of the cleared complex
    subscriptions are still stored, so the matcher is in a state that no
    sequence of [add_subscription] and [remove_subscription] calls leads
    to, unless it had no window managers and no contexts. *)
Theorem reset_subscriptions_keeps_window_managers : forall (self : SubscriptionMatcher),
  let cleared := reset_subscriptions self in
  get_statistics cleared
  = [("simple_subscriptions", 0); ("complex_subscriptions", 0);
     ("total_subscriptions", 0)]
  /\ (forall now event, match_event now event cleared = (Ok [], cleared))
  /\ window_managers cleared = window_managers self
  /\ subscription_contexts cleared = subscription_contexts self
  /\ (consistent cleared ->
      window_managers self = [] /\ subscription_contexts self = []).
Proof.
  intros self cleared. split; [reflexivity|]. split; [reflexivity|].
  split; [reflexivity|]. split; [reflexivity|].
  intros [_ [_ H]]. simpl in H.
  split.
  - destruct (window_managers self) as [|[k v] d]; [reflexivity|].
    destruct (H k eq_refl) as [Hw _]. simpl in Hw. now rewrite String.eqb_refl in Hw.
  - destruct (subscription_contexts self) as [|[k v] d]; [reflexivity|].
    destruct (H k eq_refl) as [_ Hx]. simpl in Hx. now rewrite String.eqb_refl in Hx.
Qed.

(* ================================================================== *)
(** ** Generated subscriptions *)

Lemma random_choice_In : forall (chance : Chance) (A : Type) (default : A)
  (seq : list A) (g : entropy chance),
  in_range chance -> seq <> [] ->
  In (fst (random_choice chance default seq g)) seq.
Proof.
  intros chance A default seq g Hrange Hseq. unfold random_choice.
  specialize (Hrange (List.length seq) g).
  destruct (randbelow chance (List.length seq) g) as [i g']. simpl in *.
  apply nth_In. apply Hrange. destruct seq; [contradiction | simpl; lia].
Qed.

Lemma random_randint_range : forall (chance : Chance) (a b : Z) (g : entropy chance),
  in_range chance -> a <= b ->
  a <= fst (random_randint chance a b g) <= b.
Proof.
  intros chance a b g Hrange Hab. unfold random_randint.
  specialize (Hrange (Z.to_nat (b - a + 1)) g).
  destruct (randbelow chance (Z.to_nat (b - a + 1)) g) as [i g']. simpl in *.
  assert (i < Z.to_nat (b - a + 1))%nat by (apply Hrange; lia). lia.
Qed.

Lemma draw_each_all : forall (chance : Chance) (A : Type) (P : A -> Prop)
  (draw : G chance A),
  (forall g, P (fst (draw g))) ->
  forall (n : nat) (g : entropy chance),
    List.length (fst (draw_each chance n draw g)) = n
    /\ Forall P (fst (draw_each chance n draw g)).
Proof.
  intros chance A P draw Hdraw. induction n as [|n IH]; intros g; simpl.
  - split; [reflexivity | constructor].
  - unfold gbind. specialize (Hdraw g). destruct (draw g) as [a g1].
    specialize (IH g1). destruct (draw_each chance n draw g1) as [rest g2].
    simpl in *. destruct IH as [Hlen Hall]. split; [now rewrite Hlen | now constructor].
Qed.

Lemma users_not_empty : users <> [].
Proof.
  intros H. apply (f_equal (@List.length string)) in H.
  unfold users in H. rewrite length_map, length_seq in H. discriminate.
Qed.

Lemma products_of_not_empty : forall category : string,
  In category categories -> products_of category <> [].
Proof.
  intros category H. unfold categories in H. simpl in H.
  repeat (destruct H as [<-|H]; [discriminate|]). contradiction.
Qed.
Lemma _generate_equality_condition_shape : forall (chance : Chance) (g : entropy chance),
  in_range chance ->
  equality_condition (fst (_generate_equality_condition chance g)).
Proof.
  intros chance g Hrange. unfold _generate_equality_condition, gbind.
  pose proof (random_choice_In chance _ "" equality_field_choices g Hrange) as Hname.
  destruct (random_choice chance "" equality_field_choices g) as [name g1].
  simpl in Hname. specialize (Hname ltac:(discriminate)).
  destruct Hname as [<-|[<-|[<-|[]]]];
    cbv [String.eqb Ascii.eqb Bool.eqb andb].
  - pose proof (random_choice_In chance _ "" categories g1 Hrange ltac:(discriminate)) as Hv.
    destruct (random_choice chance "" categories g1) as [v g2]. simpl in *.
    split; [reflexivity|]. split; [reflexivity|]. left. now split.
  - pose proof (random_choice_In chance _ "" categories g1 Hrange ltac:(discriminate)) as Hc.
    destruct (random_choice chance "" categories g1) as [category g2].
    cbn [fst] in Hc.
    pose proof (random_choice_In chance _ "" (products_of category) g2 Hrange
                  (products_of_not_empty category Hc)) as Hv.
    destruct (random_choice chance "" (products_of category) g2) as [v g3].
    cbn [fst] in *. split; [reflexivity|]. split; [reflexivity|].
    right. left. split; [reflexivity|]. exists category. now split.
  - pose proof (random_choice_In chance _ "" users g1 Hrange users_not_empty) as Hv.
    destruct (random_choice chance "" users g1) as [v g2]. cbn [fst] in *.
    split; [reflexivity|]. split; [reflexivity|]. right. right. now split.
Qed.
Lemma _generate_condition_regular : forall (chance : Chance) (g : entropy chance),
  in_range chance ->
  regular_condition (fst (_generate_condition chance false g)).
Proof.
  intros chance g Hrange. unfold _generate_condition, gbind.
  pose proof (random_choice_In chance _ "" regular_field_choices g Hrange) as Hname.
  destruct (random_choice chance "" regular_field_choices g) as [name g1].
  simpl in Hname. specialize (Hname ltac:(discriminate)).
  assert (Hordering : forall g', In (fst (random_choice chance EQUAL ordering_operators g'))
                                    ordering_operators).
  { intros g'. apply random_choice_In; [assumption | discriminate]. }
  destruct Hname as [<-|[<-|[<-|[<-|[<-|[<-|[]]]]]]];
    cbv [String.eqb Ascii.eqb Bool.eqb andb existsb orb].
  - pose proof (random_choice_In chance _ "" categories g1 Hrange ltac:(discriminate)) as Hv.
    destruct (random_choice chance "" categories g1) as [v g2]. cbn [fst] in *.
    left. split; [reflexivity|]. split; [reflexivity|]. left. now split.
  - pose proof (random_choice_In chance _ "" categories g1 Hrange ltac:(discriminate)) as Hc.
    destruct (random_choice chance "" categories g1) as [category g2].
    cbn [fst] in Hc.
    pose proof (random_choice_In chance _ "" (products_of category) g2 Hrange
                  (products_of_not_empty category Hc)) as Hv.
    destruct (random_choice chance "" (products_of category) g2) as [v g3].
    cbn [fst] in *. left. split; [reflexivity|]. split; [reflexivity|].
    right. left. split; [reflexivity|]. exists category. now split.
  - pose proof (random_choice_In chance _ "" users g1 Hrange users_not_empty) as Hv.
    destruct (random_choice chance "" users g1) as [v g2]. cbn [fst] in *.
    left. split; [reflexivity|]. split; [reflexivity|]. right. right. now split.
  - specialize (Hordering g1).
    destruct (random_choice chance EQUAL ordering_operators g1) as [op g2].
    destruct (random_value chance 10 1000 2 g2) as [v g3]. cbn [fst] in *.
    right. split; [reflexivity|]. split; [simpl; auto | exact Hordering].
  - specialize (Hordering g1).
    destruct (random_choice chance EQUAL ordering_operators g1) as [op g2].
    unfold gbind. destruct (random_randint chance 1 100 g2) as [n g3].
    cbn [fst gret] in *.
    right. split; [reflexivity|]. split; [simpl; auto | exact Hordering].
  - specialize (Hordering g1).
    destruct (random_choice chance EQUAL ordering_operators g1) as [op g2].
    destruct (random_value chance 1 5 1 g2) as [v g3]. cbn [fst] in *.
    right. split; [reflexivity|]. split; [simpl; auto | exact Hordering].
Qed.

Lemma _generate_condition_windowed : forall (chance : Chance) (g : entropy chance),
  in_range chance ->
  windowed_condition (fst (_generate_condition chance true g)).
Proof.
  intros chance g Hrange. unfold _generate_condition, gbind.
  pose proof (random_choice_In chance _ "" windowed_field_choices g Hrange
                ltac:(discriminate)) as Hname.
  destruct (random_choice chance "" windowed_field_choices g) as [name g1].
  pose proof (random_choice_In chance _ EQUAL ordering_operators g1 Hrange
                ltac:(discriminate)) as Hop.
  destruct (random_choice chance EQUAL ordering_operators g1) as [op g2].
  cbn [fst] in *.
  destruct (str_contains "price" name);
    [destruct (random_value chance 10 1000 2 g2) as [v g3]
    | destruct (random_value chance 1 5 1 g2) as [v g3]];
    cbn [fst gret]; now repeat split.
Qed.
Lemma generate_complex_subscription_shape : forall (chance : Chance)
  (subscriber : string) (g : entropy chance),
  in_range chance ->
  let S := fst (generate_complex_subscription chance subscriber g) in
  sub_type S = COMPLEX
  /\ subscriber_id S = subscriber
  /\ 5 <= window_size (window_config S) <= 20
  /\ In (aggregation_type (window_config S)) ["avg"; "max"; "min"]
  /\ exists regular c,
       conditions S = regular ++ [c]
       /\ (1 <= List.length regular <= 2)%nat
       /\ Forall regular_condition regular
       /\ windowed_condition c.
Proof.
  intros chance subscriber g Hrange. unfold generate_complex_subscription, gbind.
  pose proof (random_randint_range chance 1 2 g Hrange ltac:(lia)) as Hnum.
  destruct (random_randint chance 1 2 g) as [num g1]. cbn [fst] in Hnum.
  destruct (draw_each_all chance _ regular_condition (_generate_condition chance false)
              (fun g' => _generate_condition_regular chance g' Hrange)
              (Z.to_nat num) g1) as [Hlen Hall].
  destruct (draw_each chance (Z.to_nat num) (_generate_condition chance false) g1)
    as [regular g2]. cbn [fst] in Hlen, Hall.
  pose proof (_generate_condition_windowed chance g2 Hrange) as Hwindowed.
  destruct (_generate_condition chance true g2) as [c g3]. cbn [fst] in Hwindowed.
  pose proof (random_randint_range chance 5 20 g3 Hrange ltac:(lia)) as Hsize.
  destruct (random_randint chance 5 20 g3) as [size g4]. cbn [fst] in Hsize.
  pose proof (random_choice_In chance _ "" ["avg"; "max"; "min"] g4 Hrange
                ltac:(discriminate)) as Hkind.
  destruct (random_choice chance "" ["avg"; "max"; "min"] g4) as [kind g5].
  cbn [fst] in Hkind.
  destruct (uuid4 chance g5) as [sid g6]. cbn.
  split; [reflexivity|]. split; [reflexivity|]. split; [exact Hsize|].
  split; [exact Hkind|]. exists regular, c.
  split; [reflexivity|]. split; [lia|]. now split.
Qed.

Lemma regular_condition_not_windowed : forall c : FilterCondition,
  regular_condition c -> is_windowed c = false.
Proof. intros c [[H _] | [H _]]; exact H. Qed.

Lemma generated_conditions_shape : forall (chance : Chance) (draw : G chance FilterCondition)
  (subscriber : string) (g : entropy chance) (P : FilterCondition -> Prop),
  in_range chance ->
  (forall g', P (fst (draw g'))) ->
  let S :=
    fst (gbind chance (random_randint chance 1 3) (fun num_conditions =>
         gbind chance (draw_each chance (Z.to_nat num_conditions) draw) (fun conds =>
         gbind chance (uuid4 chance) (fun sid =>
         gret chance
           {| subscription_id := sid; subscriber_id := subscriber;
              sub_type := SIMPLE; conditions := conds;
              window_config := no_window_config |}))) g) in
  sub_type S = SIMPLE
  /\ subscriber_id S = subscriber
  /\ window_config S = no_window_config
  /\ (1 <= List.length (conditions S) <= 3)%nat
  /\ Forall P (conditions S).
Proof.
  intros chance draw subscriber g P Hrange Hdraw. unfold gbind.
  pose proof (random_randint_range chance 1 3 g Hrange ltac:(lia)) as Hnum.
  destruct (random_randint chance 1 3 g) as [num g1]. cbn [fst] in Hnum.
  destruct (draw_each_all chance _ P draw Hdraw (Z.to_nat num) g1) as [Hlen Hall].
  destruct (draw_each chance (Z.to_nat num) draw g1) as [conds g2].
  cbn [fst] in Hlen, Hall.
  destruct (uuid4 chance g2) as [sid g3]. cbn.
  repeat split; try assumption; lia.
Qed.
Lemma filter_none : forall (A : Type) (p : A -> bool) (l : list A),
  Forall (fun x => p x = false) l -> filter p l = [].
Proof.
  intros A p l H. induction H as [|x l Hx _ IH]; simpl; [reflexivity|].
  now rewrite Hx.
Qed.

(** X23. Every subscription [generate_complex_subscription] returns is
    COMPLEX and for the given subscriber, has a window size between 5 and
    20 and the aggregation type "avg", "max" or "min", and consists of one
    or two non-windowed conditions followed by exactly one windowed
    condition; that condition orders (it never tests equality) one of
    [avg_rating], [avg_price], [max_price] and [min_rating], whose base
    field is [rating] or [price], and it is the only windowed condition
    on its field name. *)
Theorem generated_complex_subscription_is_well_formed : forall (chance : Chance)
  (subscriber : string) (g : entropy chance),
  in_range chance ->
  let S := fst (generate_complex_subscription chance subscriber g) in
  sub_type S = COMPLEX
  /\ subscriber_id S = subscriber
  /\ 5 <= window_size (window_config S) <= 20
  /\ In (aggregation_type (window_config S)) ["avg"; "max"; "min"]
  /\ exists regular c,
       conditions S = regular ++ [c]
       /\ (1 <= List.length regular <= 2)%nat
       /\ Forall regular_condition regular
       /\ windowed_condition c
       /\ windowed_on (field_name c) S = [c]
       /\ In (base_field (field_name c)) ["rating"; "price"].
Proof.
  intros chance subscriber g Hrange S.
  destruct (generate_complex_subscription_shape chance subscriber g Hrange)
    as [Ht [Hs [Hsize [Hkind [regular [c [Hconds [Hlen [Hall Hc]]]]]]]]].
  fold S in Ht, Hs, Hsize, Hkind, Hconds.
  repeat (split; [assumption|]). exists regular, c.
  repeat (split; [assumption|]). split.
  - unfold windowed_on. rewrite Hconds, filter_app. rewrite filter_none.
    + simpl. destruct Hc as [-> _]. now rewrite String.eqb_refl.
    + eapply Forall_impl; [|exact Hall]. intros r Hr.
      now rewrite (regular_condition_not_windowed r Hr).
  - destruct Hc as [_ [Hname _]]. unfold windowed_field_choices in Hname.
    simpl in Hname. destruct Hname as [<-|[<-|[<-|[<-|[]]]]]; vm_compute; auto.
Qed.

(** X24. Every subscription [generate_simple_subscription] and
    [generate_subscription_with_equality_ratio] return is SIMPLE and for
    the given subscriber, sets no window configuration and has between
    one and three conditions, none windowed: each is an equality on
    [category], [product_id] or [user_id] with a value from the
    generator's tables, or an ordering on [price], [stock_level] or
    [rating]. When every [random.random()] draw is below the equality
    ratio (as for a ratio of 1.0), all conditions are equalities. *)
Theorem generated_simple_subscription_is_well_formed : forall (chance : Chance)
  (subscriber : string) (g : entropy chance),
  in_range chance ->
  (let S := fst (generate_simple_subscription chance subscriber g) in
   sub_type S = SIMPLE /\ subscriber_id S = subscriber
   /\ window_config S = no_window_config
   /\ (1 <= List.length (conditions S) <= 3)%nat
   /\ Forall regular_condition (conditions S))
  /\ (forall ratio : float,
        let S := fst (generate_subscription_with_equality_ratio chance subscriber ratio g) in
        sub_type S = SIMPLE /\ subscriber_id S = subscriber
        /\ window_config S = no_window_config
        /\ (1 <= List.length (conditions S) <= 3)%nat
        /\ Forall regular_condition (conditions S)
        /\ ((forall g', PrimFloat.ltb (fst (random_random chance g')) ratio = true) ->
            Forall equality_condition (conditions S))).
Proof.
  intros chance subscriber g Hrange. split.
  - apply (generated_conditions_shape chance (_generate_condition chance false)
             subscriber g regular_condition Hrange).
    intros g'. now apply _generate_condition_regular.
  - intros ratio S.
    pose (draw := gbind chance (random_random chance)
                    (fun u => if PrimFloat.ltb u ratio
                              then _generate_equality_condition chance
                              else _generate_condition chance false)).
    assert (Hregular : forall g', regular_condition (fst (draw g'))).
    { intros g'. unfold draw, gbind.
      destruct (random_random chance g') as [u g1]. destruct (PrimFloat.ltb u ratio).
      - left. now apply _generate_equality_condition_shape.
      - now apply _generate_condition_regular. }
    destruct (generated_conditions_shape chance draw subscriber g regular_condition
                Hrange Hregular) as [H1 [H2 [H3 [H4 H5]]]].
    repeat (split; [assumption|]).
    intros Hbelow.
    apply (generated_conditions_shape chance draw subscriber g equality_condition Hrange).
    intros g'. unfold draw, gbind. specialize (Hbelow g').
    destruct (random_random chance g') as [u g1]. cbn [fst] in Hbelow. rewrite Hbelow.
    now apply _generate_equality_condition_shape.
Qed.

Lemma generated_sized : forall (chance : Chance) (S : Subscription),
  in_range chance -> generated chance S -> sized (call_add S).
Proof.
  intros chance S Hrange [subscriber [g [-> | [-> | [ratio ->]]]]]; simpl.
  - left. apply (generated_conditions_shape chance (_generate_condition chance false)
                   subscriber g (fun _ => True) Hrange). auto.
  - right.
    destruct (generate_complex_subscription_shape chance subscriber g Hrange)
      as [_ [_ [Hsize _]]]. lia.
  - left.
    apply (generated_conditions_shape chance
             (gbind chance (random_random chance)
                (fun u => if PrimFloat.ltb u ratio
                          then _generate_equality_condition chance
                          else _generate_condition chance false))
             subscriber g (fun _ => True) Hrange). auto.
Qed.

(** X25. Generated subscriptions are safe to register. In any sequence
    of calls on a new matcher in which every subscription registered is
    one that the generators returned, no call raises, whatever events are
    matched and whatever ids are removed in between, and the matcher stays
    valid. *)
Theorem generated_subscriptions_never_raise : forall (chance : Chance)
  (calls : list Call),
  in_range chance ->
  Forall (fun c => forall S, c = call_add S -> generated chance S) calls ->
  fst (run_calls calls SubscriptionMatcher_init) = repeat None (List.length calls)
  /\ valid (snd (run_calls calls SubscriptionMatcher_init)).
Proof.
  intros chance calls Hrange. generalize valid_init.
  generalize SubscriptionMatcher_init as self.
  induction calls as [|c calls IH]; intros self Hvalid Hall; [now split|].
  inversion Hall as [|? ? Hc Hrest]; subst.
  assert (Hsized : sized c).
  { destruct c as [S| |]; simpl; auto.
    apply (generated_sized chance S Hrange). now apply Hc. }
  destruct (run_call_valid c self Hvalid Hsized) as [Hnone Hvalid1].
  cbn [run_calls]. destruct (run_call c self) as [e self1]. cbn [fst snd] in *.
  destruct (IH self1 Hvalid1 Hrest) as [Hes Hvalid2].
  destruct (run_calls calls self1) as [es self2]. cbn [fst snd] in *.
  split; [|exact Hvalid2]. now rewrite Hnone, Hes.
Qed.

(** X26. The generator can return a complex subscription that never
    fires. The windowed condition of a generated complex subscription
    aggregates ratings or prices, which inventory updates do not have,
    while [stock_level] exists on inventory updates only: when one of the
    non-windowed conditions drawn is on [stock_level], no event is ever
    sampled, and over any sequence of events no complex notification
    carries the id of the subscription. *)
Theorem generated_complex_subscription_on_stock_level_is_silent :
  forall (chance : Chance) (subscriber : string) (g : entropy chance)
         (events : list (Z * EcommerceEvent)) (self : SubscriptionMatcher)
         (r : FilterCondition) (n : Notification),
  in_range chance ->
  let S := fst (generate_complex_subscription chance subscriber g) in
  In r (conditions S) -> field_name r = "stock_level" ->
  registry_ok (complex_subscriptions self) ->
  In S (dict_values (complex_subscriptions self)) ->
  In n (fst (match_events events self)) ->
  n_subscription_id n = subscription_id S ->
  exists event, body n = SimpleNotification event.
Proof.
  intros chance subscriber g events self r n Hrange S Hr Hname Hok HS Hin Hid.
  destruct (generate_complex_subscription_shape chance subscriber g Hrange)
    as [_ [_ [_ [_ [regular [c0 [Hconds [_ [Hall [Hw0 [Hn0 _]]]]]]]]]]].
  fold S in Hconds.
  destruct (match_events_In _ _ _ Hin)
    as [now [event [s1 [s2 [out [_ [[_ [Hcomplex _]] [Hrun Hn]]]]]]]].
  destruct (match_event_origin _ _ _ _ _ _ Hrun Hn)
    as [[A [HA ->]] | [S' [c [a [v [HS' [Hc [Ew [G [Hv [_ ->]]]]]]]]]]].
  - now exists event.
  - exfalso. simpl in Hid. rewrite Hcomplex in HS'.
    assert (S' = S) by (eapply registry_ok_unique; eassumption). subst S'.
    assert (Hregular : forall x, In x regular -> is_windowed x = false).
    { intros x Hx. apply regular_condition_not_windowed.
      rewrite Forall_forall in Hall. now apply Hall. }
    assert (Hc0 : c = c0).
    { rewrite Hconds in Hc. apply in_app_or in Hc. destruct Hc as [Hc|[<-|[]]];
        [|reflexivity]. apply Hregular in Hc. congruence. }
    subst c.
    assert (Hr_regular : is_windowed r = false).
    { rewrite Hconds in Hr. apply in_app_or in Hr. destruct Hr as [Hr|[<-|[]]];
        [now apply Hregular|].
      exfalso. unfold windowed_field_choices in Hn0. simpl in Hn0.
      rewrite Hname in Hn0. destruct Hn0 as [E|[E|[E|[E|[]]]]]; discriminate. }
    pose proof (non_windowed_match_conditions event S G r Hr Hr_regular) as Heval.
    assert (Hdiff : different_events (field_name r) (base_field (field_name c0)) = true).
    { rewrite Hname. unfold windowed_field_choices in Hn0. simpl in Hn0.
      destruct Hn0 as [<-|[<-|[<-|[<-|[]]]]]; reflexivity. }
    destruct (different_events_disjoint _ _ event Hdiff) as [H|H].
    + unfold _evaluate_condition in Heval. rewrite H in Heval. discriminate.
    + unfold _extract_numeric_value in Hv. rewrite H in Hv. discriminate.
Qed.

(* ================================================================== *)
(** ** Unsubscribing, and repeating a control operation *)

Lemma registry_ok_absent : forall (d : dict Subscription) (sid : string) (S : Subscription),
  registry_ok d -> dict_get sid d = None -> In S (dict_values d) ->
  subscription_id S <> sid.
Proof.
  intros d sid S [Hnd Hid] Hnone HS Heq.
  apply in_map_iff in HS. destruct HS as [[k x] [E Hin]]. simpl in E. subst x.
  pose proof (Hid _ _ Hin) as Hk.
  apply (In_dict_get _ _ _ _ Hnd) in Hin. congruence.
Qed.

Lemma absent_id_is_silent : forall (events : list (Z * EcommerceEvent))
  (self : SubscriptionMatcher) (sid : string) (n : Notification),
  registry_ok (simple_subscriptions self) ->
  registry_ok (complex_subscriptions self) ->
  dict_get sid (simple_subscriptions self) = None ->
  dict_get sid (complex_subscriptions self) = None ->
  In n (fst (match_events events self)) ->
  n_subscription_id n <> sid.
Proof.
  intros events self sid n Hs Hc Hns Hnc Hin.
  destruct (match_events_In _ _ _ Hin)
    as [now [event [s1 [s2 [out [_ [[Hsimple [Hcomplex _]] [Hrun Hn]]]]]]]].
  destruct (match_event_origin _ _ _ _ _ _ Hrun Hn)
    as [[A [HA ->]] | [S [c [a [v [HS [_ [_ [_ [_ [_ ->]]]]]]]]]]]; simpl.
  - rewrite Hsimple in HA. now apply (registry_ok_absent _ _ _ Hs Hns).
  - rewrite Hcomplex in HS. now apply (registry_ok_absent _ _ _ Hc Hnc).
Qed.

(** X27. Unsubscribing works. After [remove_subscription] of an id that
    is not registered under both kinds at once, no notification carries
    that id, whatever events follow. *)
Theorem removed_subscription_is_silent : forall (sid : string)
  (self : SubscriptionMatcher) (events : list (Z * EcommerceEvent)) (n : Notification),
  registry_ok (simple_subscriptions self) ->
  registry_ok (complex_subscriptions self) ->
  dict_get sid (simple_subscriptions self) = None
  \/ dict_get sid (complex_subscriptions self) = None ->
  In n (fst (match_events events (snd (remove_subscription sid self)))) ->
  n_subscription_id n <> sid.
Proof.
  intros sid self events n Hs Hc Hone.
  rewrite remove_subscription_run. cbn [snd].
  destruct (dict_mem sid (simple_subscriptions self)) eqn:Es.
  - apply absent_id_is_silent; cbn.
    + now apply registry_ok_del.
    + assumption.
    + apply dict_get_del_same. apply Hs.
    + destruct Hone as [H|H]; [|exact H].
      apply dict_mem_false in H. congruence.
  - apply dict_mem_false in Es.
    destruct (dict_mem sid (complex_subscriptions self)) eqn:Ec.
    + apply absent_id_is_silent; cbn.
      * assumption.
      * now apply registry_ok_del.
      * assumption.
      * apply dict_get_del_same. apply Hc.
    + apply dict_mem_false in Ec. now apply absent_id_is_silent.
Qed.

(** X28. Repeating a control operation changes nothing more.
    Registering a subscription a second time right after the first leaves
    the matcher as the first registration left it; and a second
    [remove_subscription] of an id that was not registered under both
    kinds changes nothing. *)
Theorem control_operations_are_idempotent :
  (forall (S : Subscription) (self : SubscriptionMatcher),
     registrable S ->
     snd (add_subscription S (snd (add_subscription S self)))
     = snd (add_subscription S self))
  /\ (forall (sid : string) (self : SubscriptionMatcher),
        NoDup (dict_keys (simple_subscriptions self)) ->
        NoDup (dict_keys (complex_subscriptions self)) ->
        dict_get sid (simple_subscriptions self) = None
        \/ dict_get sid (complex_subscriptions self) = None ->
        snd (remove_subscription sid (snd (remove_subscription sid self)))
        = snd (remove_subscription sid self)).
Proof.
  split.
  - intros S self Hreg. rewrite !add_subscription_run by assumption. cbn [snd].
    destruct (sub_type S); cbn; now rewrite !dict_set_set.
  - intros sid self Hs Hc Hone.
    rewrite (remove_subscription_absent sid (snd (remove_subscription sid self)));
      [reflexivity | |]; rewrite remove_subscription_run; cbn [snd].
    + destruct (dict_mem sid (simple_subscriptions self)) eqn:Es; cbn.
      * now apply dict_get_del_same.
      * apply dict_mem_false in Es.
        now destruct (dict_mem sid (complex_subscriptions self)).
    + destruct (dict_mem sid (simple_subscriptions self)) eqn:Es; cbn.
      * destruct Hone as [H|H]; [|exact H]. apply dict_mem_false in H. congruence.
      * destruct (dict_mem sid (complex_subscriptions self)) eqn:Ec; cbn.
        -- now apply dict_get_del_same.
        -- now apply dict_mem_false.
Qed.

End Matcher.

(* ================================================================== *)
(** ** The properties on concrete inputs *)

(** Witness of C1: the second Electronics rating fills the window of
    [complex_ratings]; its notification comes from a registered
    subscription whose non-windowed condition holds on the event. *)
Lemma match_event_sound_witness :
  let event := rating_event "Electronics" 5 in
  let self :=
    snd (match_events decimal_float str_of_float_unused
           [(999, rating_event "Electronics" 4)]
           (registered [simple_electronics; complex_ratings])) in
  let n := _create_complex_notification 1000 complex_ratings avg_rating_above_3 4.5 in
  fst (match_event decimal_float str_of_float_unused 1000 event self)
  = Ok [_create_simple_notification 1000 event simple_electronics; n]
  /\ exists S,
       ((In S (dict_values (simple_subscriptions self))
         /\ n = _create_simple_notification 1000 event S)
        \/ (In S (dict_values (complex_subscriptions self))
            /\ exists c a, In c (conditions S) /\ is_windowed c = true
                           /\ n = _create_complex_notification 1000 S c a))
       /\ (forall c, In c (conditions S) -> is_windowed c = false ->
           _evaluate_condition decimal_float str_of_float_unused event c = true).
Proof.
  intros event self n. split; [vm_compute; reflexivity|].
  apply (match_event_sound decimal_float str_of_float_unused 1000 event self
           (snd (match_event decimal_float str_of_float_unused 1000 event self))
           [_create_simple_notification 1000 event simple_electronics; n] n).
  - vm_compute. reflexivity.
  - right. left. reflexivity.
Defined.



(** Counterexample to C8 as stated: on a NaN aggregate EQUAL and
    NOT_EQUAL against ["3.0"] are both false. *)
Lemma equal_and_not_equal_both_false :
  decimal_float (value avg_rating_is_3) = Some 3%float
  /\ value avg_rating_is_not_3 = value avg_rating_is_3
  /\ _evaluate_windowed_condition decimal_float nan avg_rating_is_3 = false
  /\ _evaluate_windowed_condition decimal_float nan avg_rating_is_not_3 = false.
Proof. repeat split; vm_compute; reflexivity. Qed.

(** Witness of the amended C8: an aggregate [2^-7] above the value ["3.0"]
    is EQUAL to it and not NOT_EQUAL. *)
Lemma evaluate_windowed_condition_spec_witness :
  decimal_float (value avg_rating_is_3) = Some 3%float
  /\ _evaluate_windowed_condition decimal_float 3.0078125 avg_rating_is_3 = true
  /\ _evaluate_windowed_condition decimal_float 3.0078125 avg_rating_is_not_3 = false.
Proof.
  assert (H : decimal_float (value avg_rating_is_3) = Some 3%float)
    by (vm_compute; reflexivity).
  split; [exact H|].
  destruct (evaluate_windowed_condition_spec decimal_float 3.0078125 3 avg_rating_is_3 H)
    as [Heq _].
  destruct (evaluate_windowed_condition_spec decimal_float 3.0078125 3
              avg_rating_is_not_3 H) as [_ [Hne _]].
  rewrite (Heq eq_refl), (Hne eq_refl). split; vm_compute; reflexivity.
Defined.

(** Counterexample to C2 as stated: [complex_range] has two windowed
    conditions on [avg_rating], so one sampled event puts two samples in
    the window of capacity two, which fires: one notification for
    [avg_rating] after a single sampled event. *)
Lemma one_sampled_event_fills_window_of_two :
  let self := registered [complex_range] in
  let events := [(1000, rating_event "Electronics" 4)] in
  manager_at self "S5" "avg_rating"
  = Some {| wm_window_size := 2; wm_aggregation_type := "avg";
            window := []; is_full := false |}
  /\ List.length
       (filter (fun p => sampled decimal_float str_of_float_unused complex_range "avg_rating" (snd p)) events)
     = 1%nat
  /\ count_for "S5" "avg_rating"
       (fst (match_events decimal_float str_of_float_unused events self))
     = 1%nat.
Proof. repeat split; vm_compute; reflexivity. Qed.

(** Witness of the amended C2: [complex_ratings] (one windowed condition,
    capacity two) over two sampled Electronics ratings and one Books
    rating that is not sampled. *)
Lemma window_notifications_bounded_witness :
  let self := registered [simple_electronics; complex_ratings] in
  let events :=
    [(1000, rating_event "Electronics" 4); (1001, rating_event "Books" 1);
     (1002, rating_event "Electronics" 5)] in
  count_for "S4" "avg_rating"
    (fst (match_events decimal_float str_of_float_unused events self)) = 1%nat
  /\ 2 * Z.of_nat (count_for "S4" "avg_rating"
                     (fst (match_events decimal_float str_of_float_unused events self)))
     <= Z.of_nat 0
        + Z.of_nat (List.length (windowed_on "avg_rating" complex_ratings))
          * Z.of_nat (List.length
                        (filter (fun p => sampled decimal_float str_of_float_unused complex_ratings
                                            "avg_rating" (snd p)) events)).
Proof.
  intros self events. split; [vm_compute; reflexivity|].
  assert (Hvalid : valid (registered [simple_electronics; complex_ratings])).
  { apply valid_registered.
    constructor; [now left|]. constructor; [right; simpl; lia | constructor]. }
  apply (window_notifications_bounded decimal_float str_of_float_unused events self
           complex_ratings "avg_rating"
           {| wm_window_size := 2; wm_aggregation_type := "avg";
              window := []; is_full := false |}).
  - apply Hvalid.
  - vm_compute. left. reflexivity.
  - vm_compute. reflexivity.
  - split; simpl; lia.
Defined.

(** Counterexample to C5 as stated: a subscription with an empty
    conditions list, and a COMPLEX one with a window size of 0 and an
    aggregation type outside the recognized set, are registered without
    error; the registry changes and the broker answers "success". *)
Lemma add_subscription_rejects_nothing :
  conditions simple_everything = []
  /\ add_subscription simple_everything SubscriptionMatcher_init
     = (Ok tt,
        {| simple_subscriptions := [("S0", simple_everything)];
           complex_subscriptions := []; window_managers := [];
           subscription_contexts := [] |})
  /\ window_config complex_unconfigured = {| window_size := 0; aggregation_type := "" |}
  /\ add_subscription complex_unconfigured SubscriptionMatcher_init
     = (Ok tt,
        {| simple_subscriptions := [];
           complex_subscriptions := [("S6", complex_unconfigured)];
           window_managers :=
             [("S6", [("avg_rating",
                       {| wm_window_size := 0; wm_aggregation_type := "";
                          window := []; is_full := false |})])];
           subscription_contexts := [("S6", tt)] |})
  /\ response_status
       (fst (_handle_subscriber_request (subscribe simple_everything "tcp://alice")
               (broker_with SubscriptionMatcher_init)))
     = "success".
Proof. repeat split. Qed.

(** Witness of the amended C5, on the COMPLEX subscription without
    [window_config]. *)
Lemma add_subscription_accepts_witness :
  registrable complex_unconfigured
  /\ fst (add_subscription complex_unconfigured
            (registered [simple_electronics])) = Ok tt
  /\ response_status
       (fst (_handle_subscriber_request (subscribe complex_unconfigured "tcp://erin")
               (broker_with (registered [simple_electronics]))))
     = "success".
Proof.
  assert (H : registrable complex_unconfigured) by (right; left; simpl; lia).
  split; [exact H|].
  destruct (add_subscription_accepts complex_unconfigured
              (registered [simple_electronics]) H) as [Hrun Hreply].
  split.
  - now rewrite Hrun.
  - now apply Hreply.
Defined.

(** Counterexample to C6 as stated: the event matches
    [simple_electronics], but with [complex_unconfigured] registered
    beside it (window size 0, mean of an empty window) the call raises and
    nothing is published; without it the simple notification is
    published. *)
Lemma one_failure_drops_every_notification :
  let event := rating_event "Electronics" 4 in
  _match_simple_subscription decimal_float str_of_float_unused event simple_electronics
  = true
  /\ fst (match_event decimal_float str_of_float_unused 1000 event
            (registered [simple_electronics; complex_unconfigured]))
     = Raise (StatisticsError "mean requires at least one data point")
  /\ published
       (_handle_event decimal_float str_of_float_unused 1000 event
          (broker_with (registered [simple_electronics; complex_unconfigured])))
     = []
  /\ published
       (_handle_event decimal_float str_of_float_unused 1000 event
          (broker_with (registered [simple_electronics])))
     = [("alice", _create_simple_notification 1000 event simple_electronics)].
Proof. repeat split; vm_compute; reflexivity. Qed.

(** Witness of the amended C6, on the same matcher. *)
Lemma handle_event_failure_witness :
  let event := rating_event "Electronics" 4 in
  let broker := broker_with (registered [simple_electronics; complex_unconfigured]) in
  published (_handle_event decimal_float str_of_float_unused 1000 event broker) = []
  /\ notifications_sent
       (_handle_event decimal_float str_of_float_unused 1000 event broker) = 0.
Proof.
  intros event broker.
  destruct (handle_event_failure decimal_float str_of_float_unused 1000 event broker)
    as [Hraise _].
  destruct (Hraise [] [] complex_unconfigured []
              (matcher broker)
              (snd (_match_complex_subscription decimal_float str_of_float_unused 1000 event
                      complex_unconfigured (matcher broker)))
              (StatisticsError "mean requires at least one data point"))
    as [_ [Hp [Hn _]]]; try (vm_compute; reflexivity).
  now rewrite Hp, Hn.
Defined.

(** Witness of C7: [complex_ratings] added to and removed from a matcher
    that holds [simple_electronics]; and the removal of an unknown id. *)
Lemma add_then_remove_restores_witness :
  let self := registered [simple_electronics] in
  remove_subscription "S4" (snd (add_subscription complex_ratings self)) = (Ok tt, self)
  /\ remove_subscription "S9" self = (Ok tt, self).
Proof.
  intros self. destruct add_then_remove_restores as [Hadd Habsent].
  split.
  - destruct (Hadd complex_ratings self) as [self1 [E1 E2]].
    + right. left. simpl. lia.
    + apply consistent_registered.
    + reflexivity.
    + reflexivity.
    + rewrite E1. exact E2.
  - apply Habsent; reflexivity.
Defined.

(** Counterexample to C10 as stated: [simple_everything] has no
    condition and is registered without error, but with
    [complex_unconfigured] registered beside it (window size 0, mean of an
    empty window) [match_event] raises on a rating: the call hands back no
    notification for [simple_everything] and the broker publishes nothing
    to its subscriber. *)
Lemma empty_simple_subscription_not_notified :
  let event := rating_event "Books" 1 in
  let self := registered [simple_everything; complex_unconfigured] in
  sub_type simple_everything = SIMPLE
  /\ conditions simple_everything = []
  /\ fst (add_subscription simple_everything SubscriptionMatcher_init) = Ok tt
  /\ fst (add_subscription complex_unconfigured (registered [simple_everything]))
     = Ok tt
  /\ dict_get "S0" (simple_subscriptions self) = Some simple_everything
  /\ fst (match_event decimal_float str_of_float_unused 1000 event self)
     = Raise (StatisticsError "mean requires at least one data point")
  /\ filter (is_simple_for "S0")
       (emitted (fst (match_event decimal_float str_of_float_unused 1000 event self)))
     = []
  /\ published
       (_handle_event decimal_float str_of_float_unused 1000 event (broker_with self))
     = [].
Proof. repeat split; vm_compute; reflexivity. Qed.

(** Witness of the amended C10: [simple_everything] beside
    [complex_ratings]. *)
Lemma empty_simple_subscription_matches_everything_witness :
  let event := rating_event "Books" 1 in
  let self := registered [simple_everything; complex_ratings] in
  sub_type simple_everything = SIMPLE
  /\ conditions simple_everything = []
  /\ exists out self',
       match_event decimal_float str_of_float_unused 1000 event self = (Ok out, self')
       /\ filter (is_simple_for "S0") out
          = [_create_simple_notification 1000 event simple_everything].
Proof.
  intros event self. split; [reflexivity|]. split; [reflexivity|].
  assert (Hvalid : valid self).
  { apply valid_registered.
    constructor; [now left|]. constructor; [right; simpl; lia | constructor]. }
  destruct (empty_simple_subscription_matches_everything decimal_float
              str_of_float_unused simple_everything eq_refl eq_refl)
    as [_ [Hmatch _]].
  destruct (Hmatch 1000 event self (proj1 Hvalid) eq_refl) as [Hone Hreturns].
  destruct (Hreturns Hvalid) as [out [self' E]].
  exists out, self'. split; [exact E | exact (Hone out self' E)].
Defined.

(** Witness of X1: two whole blocks and one further value through a
    manager of capacity two. *)
Lemma add_values_tumbling_witness :
  exists aggregates : list float,
    Forall2 (fun block a => _calculate_aggregation (set_window empty_manager block) = Ok a)
            [[4; 5]; [1; 2]]%float aggregates
    /\ add_values [4; 5; 1; 2; 3]%float empty_manager
       = (flat_map (fun a => [Ok (false, None); Ok (true, Some a)]) aggregates
          ++ [Ok (false, None)],
          {| wm_window_size := 2; wm_aggregation_type := "avg";
             window := [3%float]; is_full := true |}).
Proof.
  apply (add_values_tumbling [[4; 5]; [1; 2]]%float [3%float] empty_manager).
  - simpl. lia.
  - reflexivity.
  - repeat constructor.
  - simpl. lia.
Defined.

(** Witness of X4: a purchase passes the gate of [complex_ratings] but
    has no rating; only the simple subscription is notified and the
    matcher is unchanged. *)
Lemma match_event_without_samples_witness :
  let event := purchase_event "Electronics" 999 in
  let self := registered [simple_electronics; complex_ratings] in
  match_event decimal_float str_of_float_unused 1000 event self
  = (Ok [_create_simple_notification 1000 event simple_electronics], self).
Proof.
  intros event self.
  apply (match_event_without_samples decimal_float str_of_float_unused 1000 event self).
  intros S c HS Hc Hw. vm_compute in HS. destruct HS as [<-|[]].
  simpl in Hc. destruct Hc as [<-|[<-|[]]]; [discriminate|].
  vm_compute. reflexivity.
Defined.

(** Witness of X5: a Books rating does not pass the gate of
    [complex_ratings]; the sample buffered before stays as it is. *)
Lemma match_event_touches_only_sampled_witness :
  let self :=
    snd (match_events decimal_float str_of_float_unused
           [(999, rating_event "Electronics" 4)] (registered [complex_ratings])) in
  manager_at
    (snd (match_event decimal_float str_of_float_unused 1000 (rating_event "Books" 5) self))
    "S4" "avg_rating"
  = Some half_full_manager.
Proof.
  intros self.
  rewrite (match_event_touches_only_sampled decimal_float str_of_float_unused 1000
             (rating_event "Books" 5) self "S4" "avg_rating").
  - vm_compute. reflexivity.
  - intros S HS _. vm_compute in HS. destruct HS as [<-|[]].
    left. vm_compute. reflexivity.
Defined.

(** Witness of X6: [complex_gate_only] shares its id with
    [simple_electronics]; the notification with that id is the simple one. *)
Lemma complex_without_windowed_condition_is_silent_witness :
  let event := rating_event "Electronics" 4 in
  let self := registered [simple_electronics; complex_gate_only] in
  exists (matched : EcommerceEvent) (A : Subscription),
    body (_create_simple_notification 1000 event simple_electronics)
    = SimpleNotification matched
    /\ In A (dict_values (simple_subscriptions self))
    /\ subscription_id A = subscription_id complex_gate_only.
Proof.
  intros event self.
  apply (complex_without_windowed_condition_is_silent decimal_float str_of_float_unused
           [(1000, event)] self complex_gate_only).
  - split.
    + vm_compute. constructor; [intros [] | constructor].
    + intros k S H. vm_compute in H. destruct H as [[= <- <-]|[]]. reflexivity.
  - vm_compute. left. reflexivity.
  - reflexivity.
  - vm_compute. left. reflexivity.
  - reflexivity.
Defined.

(** Witness of X7: the second Electronics rating fills the window of
    [complex_ratings]. *)
Lemma complex_notification_on_sampled_event_witness :
  let event := rating_event "Electronics" 5 in
  let self :=
    snd (match_events decimal_float str_of_float_unused
           [(999, rating_event "Electronics" 4)] (registered [complex_ratings])) in
  exists S c a,
    In S (dict_values (complex_subscriptions self))
    /\ subscription_id S = "S4"
    /\ In c (windowed_on "avg_rating" S)
    /\ sampled decimal_float str_of_float_unused S "avg_rating" event = true
    /\ _evaluate_windowed_condition decimal_float a c = true
    /\ _create_complex_notification 1000 complex_ratings avg_rating_above_3 4.5
       = _create_complex_notification 1000 S c a.
Proof.
  intros event self.
  apply (complex_notification_on_sampled_event decimal_float str_of_float_unused
           1000 event self
           (snd (match_event decimal_float str_of_float_unused 1000 event self))
           [_create_complex_notification 1000 complex_ratings avg_rating_above_3 4.5]).
  - vm_compute. reflexivity.
  - now left.
  - vm_compute. reflexivity.
Defined.

(** Witness of X9: [simple_electronics] and [complex_gate_only] share
    the id "S1". *)
Lemma same_id_simple_and_complex_witness :
  let both :=
    snd (add_subscription complex_gate_only
           (snd (add_subscription simple_electronics SubscriptionMatcher_init))) in
  let once := snd (remove_subscription "S1" both) in
  let twice := snd (remove_subscription "S1" once) in
  dict_get "S1" (simple_subscriptions both) = Some simple_electronics
  /\ dict_get "S1" (complex_subscriptions both) = Some complex_gate_only
  /\ dict_get "S1" (simple_subscriptions once) = None
  /\ complex_subscriptions once = complex_subscriptions both
  /\ window_managers once = window_managers both
  /\ dict_get "S1" (complex_subscriptions twice) = None
  /\ dict_get "S1" (window_managers twice) = None.
Proof.
  apply (same_id_simple_and_complex simple_electronics complex_gate_only
           SubscriptionMatcher_init);
    [reflexivity | reflexivity | reflexivity | simpl; lia
    | constructor | constructor | constructor].
Defined.

(** Witness of X10: [complex_ratings] is registered again while its
    window holds one sample. *)
Lemma add_subscription_again_resets_windows_witness :
  let self :=
    snd (match_events decimal_float str_of_float_unused
           [(999, rating_event "Electronics" 4)] (registered [complex_ratings])) in
  manager_at self "S4" "avg_rating" = Some half_full_manager
  /\ manager_at (snd (add_subscription complex_ratings self)) "S4" "avg_rating"
     = Some empty_manager.
Proof.
  intros self. split; [vm_compute; reflexivity|].
  destruct (add_subscription_again_resets_windows complex_ratings self eq_refl)
    as [Hfresh _]; [simpl; lia|].
  exact (Hfresh "avg_rating").
Defined.

(** Witness of X12: [complex_negative] on a new matcher, and an
    Electronics rating afterwards. *)
Lemma add_subscription_negative_window_size_witness :
  let stored :=
    {| simple_subscriptions := [];
       complex_subscriptions := [("S7", complex_negative)];
       window_managers := [("S7", [])];
       subscription_contexts := [("S7", tt)] |} in
  add_subscription complex_negative SubscriptionMatcher_init
  = (Raise (ValueError "maxlen must be non-negative"), stored)
  /\ exists c,
       In c (conditions complex_negative) /\ is_windowed c = true
       /\ _match_complex_subscription decimal_float str_of_float_unused 1000
            (rating_event "Electronics" 4) complex_negative stored
          = (Raise (KeyError (field_name c)), stored).
Proof.
  intros stored.
  destruct (add_subscription_negative_window_size decimal_float str_of_float_unused
              complex_negative SubscriptionMatcher_init eq_refl)
    as [Hadd [_ Hlater]]; [simpl; lia | reflexivity |].
  split; [exact Hadd|].
  apply (Hlater 1000 (rating_event "Electronics" 4)).
  - vm_compute. reflexivity.
  - exists avg_rating_above_3. split; [simpl; auto|]. split; [reflexivity|].
    vm_compute. discriminate.
Defined.

(** Witness of X15: the notification of [simple_electronics] is published
    under "alice". *)
Lemma published_to_registered_subscriber_witness :
  let event := rating_event "Electronics" 4 in
  let self := broker_with (registered [simple_electronics]) in
  let n := _create_simple_notification 1000 event simple_electronics in
  In ("alice", n) (published self)
  \/ exists S,
       (In S (dict_values (simple_subscriptions (matcher self)))
        \/ In S (dict_values (complex_subscriptions (matcher self))))
       /\ "alice" = subscriber_id S
       /\ n_subscriber_id n = subscriber_id S
       /\ n_subscription_id n = subscription_id S.
Proof.
  intros event self n.
  apply (published_to_registered_subscriber decimal_float str_of_float_unused
           [(1000, event)] self "alice" n).
  vm_compute. left. reflexivity.
Defined.

(** Witness of X18: a new subscriber receives one simple and one complex
    notification. *)
Lemma notification_listener_keeps_last_witness :
  let simple := _create_simple_notification 1000 (rating_event "Books" 1)
                  simple_everything in
  let complex := _create_complex_notification 1001 complex_ratings avg_rating_above_3 4.5 in
  let after :=
    _notification_listener [(1003, simple); (1005, complex)] EcommerceSubscriber_init in
  recent_notifications after = [simple; complex]
  /\ latencies after = [3; 4]
  /\ notifications_received after = 2
  /\ simple_notifications after = 1
  /\ complex_notifications after = 1.
Proof.
  intros simple complex after.
  apply (notification_listener_keeps_last [(1003, simple); (1005, complex)]
           EcommerceSubscriber_init); simpl; lia.
Defined.

(** Witness of X19: [complex_ratings] over three Electronics ratings and
    one Books rating; the window is fed 4, 5 and 3, fires once with 4.5
    and keeps the 3. *)
Lemma window_receives_the_samples_witness :
  let self := registered [simple_electronics; complex_ratings] in
  let events :=
    [(1000, rating_event "Electronics" 4); (1001, rating_event "Books" 1);
     (1002, rating_event "Electronics" 5); (1003, rating_event "Electronics" 3)] in
  samples decimal_float str_of_float_unused complex_ratings "avg_rating" events
  = [4; 5; 3]%float
  /\ manager_at (snd (match_events decimal_float str_of_float_unused events self))
       "S4" "avg_rating"
     = Some (snd (add_values [4; 5; 3]%float empty_manager))
  /\ reported "S4" "avg_rating"
       (fst (match_events decimal_float str_of_float_unused events self))
     = filter (fun a => _evaluate_windowed_condition decimal_float a avg_rating_above_3)
              (fired (fst (add_values [4; 5; 3]%float empty_manager))).
Proof.
  intros self events. split; [vm_compute; reflexivity|].
  assert (Hvalid : valid self).
  { apply valid_registered.
    constructor; [now left|]. constructor; [right; simpl; lia | constructor]. }
  apply (window_receives_the_samples decimal_float str_of_float_unused events self
           complex_ratings avg_rating_above_3 "avg_rating" empty_manager Hvalid).
  - vm_compute. auto.
  - reflexivity.
  - vm_compute. reflexivity.
Defined.

(** Witness of X20: two registrations, one event and one removal. *)
Lemma sized_calls_never_raise_witness :
  let calls :=
    [call_add simple_electronics; call_add complex_ratings;
     call_match 1000 (rating_event "Electronics" 4); call_remove "S4"] in
  fst (run_calls decimal_float str_of_float_unused calls SubscriptionMatcher_init)
  = [None; None; None; None]
  /\ valid (snd (run_calls decimal_float str_of_float_unused calls
                   SubscriptionMatcher_init)).
Proof.
  intros calls.
  apply (sized_calls_never_raise decimal_float str_of_float_unused calls
           SubscriptionMatcher_init valid_init).
  constructor; [now left|]. constructor; [right; simpl; lia|].
  constructor; [exact I|]. constructor; [exact I | constructor].
Defined.

(** Witness of X21: a subscription on a price and a rating matches
    neither a purchase nor a rating. *)
Lemma conditions_on_different_events_never_match_witness :
  let on_price := {| field_name := "price"; operator := GREATER_THAN; value := "1";
                     is_windowed := false |} in
  let on_rating := {| field_name := "rating"; operator := GREATER_THAN; value := "1";
                      is_windowed := false |} in
  let S := {| subscription_id := "S8"; subscriber_id := "gina"; sub_type := SIMPLE;
              conditions := [on_price; on_rating];
              window_config := no_window_config |} in
  different_events "price" "rating" = true
  /\ _match_simple_subscription decimal_float str_of_float_unused
       (purchase_event "Books" 20) S = false
  /\ _match_simple_subscription decimal_float str_of_float_unused
       (rating_event "Books" 5) S = false.
Proof.
  intros on_price on_rating S.
  destruct (conditions_on_different_events_never_match decimal_float
              str_of_float_unused "price" "rating" eq_refl) as [_ [Hsimple _]].
  split; [reflexivity|].
  split; apply (Hsimple S _ on_price on_rating); simpl; auto.
Defined.

Lemma counting_chance_in_range : in_range counting_chance.
Proof. intros n g Hn. simpl. apply Nat.mod_upper_bound. lia. Qed.

(** Witness of X23: the first complex subscription drawn from
    [counting_chance]. *)
Lemma generated_complex_subscription_is_well_formed_witness :
  let S := fst (generate_complex_subscription str_of_float_unused counting_chance
                  "alice" O) in
  sub_type S = COMPLEX
  /\ subscriber_id S = "alice"
  /\ 5 <= window_size (window_config S) <= 20
  /\ In (aggregation_type (window_config S)) ["avg"; "max"; "min"]
  /\ exists regular c,
       conditions S = regular ++ [c]
       /\ (1 <= List.length regular <= 2)%nat
       /\ Forall regular_condition regular
       /\ windowed_condition c
       /\ windowed_on (field_name c) S = [c]
       /\ In (base_field (field_name c)) ["rating"; "price"].
Proof.
  exact (generated_complex_subscription_is_well_formed str_of_float_unused
           counting_chance "alice" O counting_chance_in_range).
Defined.

(** Witness of X24: the first simple subscription drawn from
    [counting_chance]. *)
Lemma generated_simple_subscription_is_well_formed_witness :
  let S := fst (generate_simple_subscription str_of_float_unused counting_chance
                  "alice" O) in
  sub_type S = SIMPLE /\ subscriber_id S = "alice"
  /\ window_config S = no_window_config
  /\ (1 <= List.length (conditions S) <= 3)%nat
  /\ Forall regular_condition (conditions S).
Proof.
  exact (proj1 (generated_simple_subscription_is_well_formed str_of_float_unused
                  counting_chance "alice" O counting_chance_in_range)).
Defined.

(** Witness of X25: a generated complex subscription is registered and
    an event is matched. *)
Lemma generated_subscriptions_never_raise_witness :
  let S := fst (generate_complex_subscription str_of_float_unused counting_chance
                  "alice" O) in
  let calls := [call_add S; call_match 1000 (rating_event "Electronics" 4)] in
  fst (run_calls decimal_float str_of_float_unused calls SubscriptionMatcher_init)
  = [None; None]
  /\ valid (snd (run_calls decimal_float str_of_float_unused calls
                   SubscriptionMatcher_init)).
Proof.
  intros S calls.
  apply (generated_subscriptions_never_raise decimal_float str_of_float_unused
           counting_chance calls counting_chance_in_range).
  constructor.
  - intros S' [= <-]. exists "alice", O. right. now left.
  - constructor; [discriminate | constructor].
Defined.

(** Witness of X26: the complex subscription drawn from
    [counting_chance] at count 3 has a condition on [stock_level]; the
    notification with its id comes from a simple subscription that shares
    the id. *)
Lemma generated_complex_subscription_on_stock_level_is_silent_witness :
  let S := fst (generate_complex_subscription str_of_float_unused counting_chance
                  "alice" 3%nat) in
  let A := {| subscription_id := "uuid-15"; subscriber_id := "bob";
              sub_type := SIMPLE; conditions := [];
              window_config := no_window_config |} in
  let event := rating_event "Books" 1 in
  map field_name (conditions S) = ["stock_level"; "product_id"; "max_price"]
  /\ exists matched,
       body (_create_simple_notification 1000 event A) = SimpleNotification matched.
Proof.
  intros S A event. split; [vm_compute; reflexivity|].
  apply (generated_complex_subscription_on_stock_level_is_silent decimal_float
           str_of_float_unused counting_chance "alice" 3%nat [(1000, event)]
           (registered [A; S])
           {| field_name := "stock_level"; operator := LESS_THAN; value := "7";
              is_windowed := false |}
           (_create_simple_notification 1000 event A) counting_chance_in_range).
  - vm_compute. left. reflexivity.
  - reflexivity.
  - split.
    + vm_compute. constructor; [intros [] | constructor].
    + intros k S' H. vm_compute in H. destruct H as [[= <- <-]|[]]. reflexivity.
  - vm_compute. left. reflexivity.
  - vm_compute. left. reflexivity.
  - reflexivity.
Defined.

(** Witness of X27: [simple_electronics] is removed; the two Electronics
    ratings that follow notify [complex_ratings] only. *)
Lemma removed_subscription_is_silent_witness :
  let self := snd (remove_subscription "S1"
                     (registered [simple_electronics; complex_ratings])) in
  let events :=
    [(1000, rating_event "Electronics" 4); (1001, rating_event "Electronics" 5)] in
  let n := _create_complex_notification 1001 complex_ratings avg_rating_above_3 4.5 in
  fst (match_events decimal_float str_of_float_unused events self) = [n]
  /\ n_subscription_id n <> "S1".
Proof.
  intros self events n.
  assert (Hvalid : valid (registered [simple_electronics; complex_ratings])).
  { apply valid_registered.
    constructor; [now left|]. constructor; [right; simpl; lia | constructor]. }
  assert (Hout : fst (match_events decimal_float str_of_float_unused events self) = [n])
    by (vm_compute; reflexivity).
  split; [exact Hout|].
  apply (removed_subscription_is_silent decimal_float str_of_float_unused "S1"
           (registered [simple_electronics; complex_ratings]) events n).
  - apply Hvalid.
  - apply Hvalid.
  - right. reflexivity.
  - fold self. rewrite Hout. now left.
Defined.

(* ================================================================== *)
(** ** The scenarios of the specification, run on the model *)

(** S2: only a price strictly above ["500.0"] matches. *)
Example scenario_numeric_coercion :
  map (fun price =>
         List.length
           (emitted (fst (match_event decimal_float str_of_float_unused 1000
                            (purchase_event "Electronics" price)
                            (registered [price_above_500])))))
      [499.5%float; 500%float; 500.5%float]
  = [0%nat; 0%nat; 1%nat].
Proof. vm_compute. reflexivity. Qed.

(** S3: the conditions of a subscription are a conjunction. *)
Example scenario_conjunction :
  map (fun event =>
         List.length
           (emitted (fst (match_event decimal_float str_of_float_unused 1000 event
                            (registered [electronics_above_100])))))
      [purchase_event "Electronics" 50; purchase_event "Clothing" 500;
       purchase_event "Electronics" 500]
  = [0%nat; 0%nat; 1%nat].
Proof. vm_compute. reflexivity. Qed.

(** S4 and S5 with a window of two: ratings of another category are not
    sampled; the window fires on the second Electronics rating and starts
    again; an aggregate that fails the threshold gives no notification. *)
Example scenario_tumbling_window :
  map body
      (fst (match_events decimal_float str_of_float_unused
              [(1000, rating_event "Electronics" 4); (1001, rating_event "Clothing" 5);
               (1002, rating_event "Electronics" 4.5);
               (1003, rating_event "Electronics" 1); (1004, rating_event "Electronics" 1)]
              (registered [complex_ratings])))
  = [ComplexNotification "Electronics" "avg_rating" 4.25 2 true].
Proof. vm_compute. reflexivity. Qed.

(** S6: after [remove_subscription] a matching event gives no notification. *)
Example scenario_remove_mid_stream :
  let event := purchase_event "Electronics" 750 in
  let self := registered [simple_electronics] in
  List.length (emitted (fst (match_event decimal_float str_of_float_unused 1000 event self)))
  = 1%nat
  /\ emitted (fst (match_event decimal_float str_of_float_unused 1001 event
                     (snd (remove_subscription "S1" self))))
     = []
  /\ get_statistics (snd (remove_subscription "S1" self))
     = [("simple_subscriptions", 0); ("complex_subscriptions", 0);
        ("total_subscriptions", 0)].
Proof. repeat split; vm_compute; reflexivity. Qed.
